(** * Safety-governed batch engine of the WhatsApp group manager

    A shallow embedding of [src/services/whatsapp.service.js] and of the
    parts of [src/services/storage.service.js] it drives: the session
    statistics object, its persistence, the quota and circuit-breaker
    checks, the delay scheduler and the batch loop of [addMembersToGroup].

    Conventions of the embedding.
    - JavaScript integers are [Z]; array indices and lengths are [nat].
    - [Math.random()] is a rational in the interval [0, 1); the floating
      point rounding of the products is not modelled.
    - A [Date] is its number of milliseconds in local time, a [Z]; the
      hour of day and the calendar day are computed from it (no daylight
      saving shifts).  Each [new Date()] of the source is one read of the
      clock oracle, each [Math.random()] one read of the random oracle and
      each call of the messaging client one read of the client oracle.
    - [await new Promise(resolve => setTimeout(resolve, ms))] is recorded
      as a [Sleep ms] event; the logger is not modelled. *)

From Stdlib Require Import ZArith QArith Qround String Ascii List Lia Lqa Bool.
From stdpp Require Import base option list strings gmap pretty.
Close Scope Q_scope.
Local Open Scope string_scope.
Local Open Scope Z_scope.

(** ** Strings *)

(** [s.includes(sub)] *)
Fixpoint includes (s sub : string) : bool :=
  if String.prefix sub s then true
  else match s with
       | EmptyString => false
       | String _ s' => includes s' sub
       end.

Definition isDigit (c : ascii) : bool :=
  ((48 <=? nat_of_ascii c) && (nat_of_ascii c <=? 57))%nat.

(** [s.replace(/\D/g, '')] *)
Fixpoint stripNonDigits (s : string) : string :=
  match s with
  | EmptyString => EmptyString
  | String c s' => if isDigit c then String c (stripNonDigits s') else stripNonDigits s'
  end.

(** the longest prefix matched by [\d*] is removed *)
Fixpoint skipDigits (s : string) : string :=
  match s with
  | EmptyString => EmptyString
  | String c s' => if isDigit c then skipDigits s' else s
  end.

Definition startsWithDigit (s : string) : bool :=
  match s with
  | String c _ => isDigit c
  | EmptyString => false
  end.

(** [/^\d+@g\.us$/.test(s)] *)
Definition matchesNewerGroupId (s : string) : bool :=
  startsWithDigit s && String.eqb (skipDigits s) "@g.us".

(** [/^\d+-\d+@g\.us$/.test(s)] *)
Definition matchesTraditionalGroupId (s : string) : bool :=
  startsWithDigit s &&
  match skipDigits s with
  | String "-"%char s' => startsWithDigit s' && String.eqb (skipDigits s') "@g.us"
  | _ => false
  end.

(** [/^0{10,}$/.test(s)] *)
Fixpoint allZeros (s : string) : bool :=
  match s with
  | EmptyString => true
  | String c s' => Ascii.eqb c "0"%char && allZeros s'
  end.

Definition onlyZeros (s : string) : bool :=
  (10 <=? String.length s)%nat && allZeros s.

Definition isWhiteSpace (c : ascii) : bool :=
  let n := nat_of_ascii c in
  ((n =? 32) || ((9 <=? n) && (n <=? 13)))%nat.

Fixpoint trimStart (s : string) : string :=
  match s with
  | String c s' => if isWhiteSpace c then trimStart s' else s
  | EmptyString => EmptyString
  end.

Fixpoint trimEnd (s : string) : string :=
  match s with
  | EmptyString => EmptyString
  | String c s' =>
      match trimEnd s' with
      | EmptyString => if isWhiteSpace c then EmptyString else String c EmptyString
      | t => String c t
      end
  end.

(** [s.trim()] on ASCII white space *)
Definition trim (s : string) : string := trimEnd (trimStart s).

(** [isGroupId]: the empty string is falsy. *)
Definition isGroupId (input : string) : bool :=
  match input with
  | EmptyString => false
  | _ => let input := trim input in
         matchesTraditionalGroupId input || matchesNewerGroupId input
  end.

(** ** Phone numbers *)

(** An element of the [numbers] array.  The route validates the elements
    with a pattern that converts them to strings first, so a JSON number
    passes and reaches the service as a number. *)
Inductive Item : Type :=
  | ItemString (s : string)
  | ItemNumber (n : Z).

(** What a [throw] carries: the [message] of the error, which may be
    missing. *)
Record JsError : Type := mkError { errMessage : option string }.

Definition newError (msg : string) : JsError := mkError (Some msg).

(** A call that either returns or throws. *)
Inductive Completion (A : Type) : Type :=
  | Returned (a : A)
  | Thrown (e : JsError).
Arguments Returned {A} a.
Arguments Thrown {A} e.

Record Validation : Type := mkValidation {
  isValid : bool;
  validationReason : string;
  formatted : option string
}.

(** [validatePhoneNumber]: on a value that is not a string,
    [number.replace] is not a function and the call throws. *)
Definition validatePhoneNumber (number : Item) : Completion Validation :=
  match number with
  | ItemNumber _ => Thrown (newError "number.replace is not a function")
  | ItemString number =>
      let stripped := stripNonDigits number in
      let len := String.length stripped in
      if ((len <? 10) || (15 <? len))%nat then
        Returned (mkValidation false
          ("Invalid length (" ++ pretty len ++ "). Must be 10-15 digits.") None)
      else if onlyZeros stripped then
        Returned (mkValidation false "Number contains only zeros" None)
      else
        Returned (mkValidation true "Valid number" (Some (stripped ++ "@c.us")))
  end.

(** [`${x}`] of an array element *)
Definition itemToString (number : Item) : string :=
  match number with
  | ItemString s => s
  | ItemNumber n => pretty n
  end.

(** ** Dates *)

Definition msPerSecond : Z := 1000.
Definition msPerHour : Z := 3600000.
Definition msPerDay : Z := 86400000.

(** [d.getHours()] *)
Definition getHours (d : Z) : Z := (d / msPerHour) mod 24.

(** [d.toDateString()]: the calendar day, as the number of the day. *)
Definition toDateString (d : Z) : Z := d / msPerDay.

(** [Math.trunc] on a rational: what [setSeconds] does to its argument. *)
Definition Qtrunc (x : Q) : Z :=
  if Qle_bool 0 x then Qfloor x else Qceiling x.

(** [x < y] on rationals *)
Definition Qlt_bool (x y : Q) : bool := negb (Qle_bool y x).

(** [d.getSeconds()] *)
Definition getSeconds (d : Z) : Z := (d / msPerSecond) mod 60.

(** [d.setSeconds(sec)]: the seconds field replaced, overflow carried. *)
Definition setSeconds (d : Z) (sec : Q) : Z :=
  d - getSeconds d * msPerSecond + Qtrunc sec * msPerSecond.

(** [d.setSeconds(d.getSeconds() + seconds)] *)
Definition addSeconds (d : Z) (seconds : Q) : Z :=
  setSeconds d (inject_Z (getSeconds d) + seconds)%Q.

(** [nextHour]: the hour after [now], minute 0, second 5, the
    milliseconds of [now] kept. *)
Definition nextHourOf (now : Z) : Z :=
  (now / msPerHour + 1) * msPerHour + 5 * msPerSecond + now mod msPerSecond.

(** [new Date(iso)], with [new Date(null)] the epoch. *)
Definition dateOf (iso : option Z) : Z :=
  match iso with
  | Some t => t
  | None => 0
  end.

(** ** The session statistics object *)

Module Failure.
Record t : Type := mk {
  count : Z;
  firstFailure : Z;
  lastFailure : Z;
  reason : string
}.
End Failure.

(** [sessionStats] of the storage service, field by field.  The
    configuration values are the numbers of the defaults. *)
Record SessionStats : Type := mkSessionStats {
  addedToday : Z;
  lastDateReset : Z;
  hourlyAdditionCounts : list Z;
  circuitBreakerTripped : bool;
  circuitBreakerResetTime : option Z;
  isAddingMembers : bool;
  userStatus : string;
  consecutiveFailures : Z;
  failedNumbers : gmap string Failure.t;
  currentBatch : list Item;
  currentBatchIndex : nat;
  lastGroupId : option string;
  minDelay : Z;
  maxDelay : Z;
  dailyLimit : Z;
  maxBatchSize : Z;
  pauseAfterBatch : Z;
  batchCooldown : Z;
  failureThreshold : Z;
  circuitBreakerTimeout : Z;
  hourlyLimit : Z;
  patternVariation : bool
}.

Definition set_addedToday (v : Z) (s : SessionStats) : SessionStats :=
  mkSessionStats v (lastDateReset s) (hourlyAdditionCounts s)
    (circuitBreakerTripped s) (circuitBreakerResetTime s) (isAddingMembers s)
    (userStatus s) (consecutiveFailures s) (failedNumbers s) (currentBatch s)
    (currentBatchIndex s) (lastGroupId s) (minDelay s) (maxDelay s) (dailyLimit s)
    (maxBatchSize s) (pauseAfterBatch s) (batchCooldown s) (failureThreshold s)
    (circuitBreakerTimeout s) (hourlyLimit s) (patternVariation s).

Definition set_lastDateReset (v : Z) (s : SessionStats) : SessionStats :=
  mkSessionStats (addedToday s) v (hourlyAdditionCounts s)
    (circuitBreakerTripped s) (circuitBreakerResetTime s) (isAddingMembers s)
    (userStatus s) (consecutiveFailures s) (failedNumbers s) (currentBatch s)
    (currentBatchIndex s) (lastGroupId s) (minDelay s) (maxDelay s) (dailyLimit s)
    (maxBatchSize s) (pauseAfterBatch s) (batchCooldown s) (failureThreshold s)
    (circuitBreakerTimeout s) (hourlyLimit s) (patternVariation s).

Definition set_hourlyAdditionCounts (v : list Z) (s : SessionStats) : SessionStats :=
  mkSessionStats (addedToday s) (lastDateReset s) v
    (circuitBreakerTripped s) (circuitBreakerResetTime s) (isAddingMembers s)
    (userStatus s) (consecutiveFailures s) (failedNumbers s) (currentBatch s)
    (currentBatchIndex s) (lastGroupId s) (minDelay s) (maxDelay s) (dailyLimit s)
    (maxBatchSize s) (pauseAfterBatch s) (batchCooldown s) (failureThreshold s)
    (circuitBreakerTimeout s) (hourlyLimit s) (patternVariation s).

Definition set_circuitBreakerTripped (v : bool) (s : SessionStats) : SessionStats :=
  mkSessionStats (addedToday s) (lastDateReset s) (hourlyAdditionCounts s)
    v (circuitBreakerResetTime s) (isAddingMembers s)
    (userStatus s) (consecutiveFailures s) (failedNumbers s) (currentBatch s)
    (currentBatchIndex s) (lastGroupId s) (minDelay s) (maxDelay s) (dailyLimit s)
    (maxBatchSize s) (pauseAfterBatch s) (batchCooldown s) (failureThreshold s)
    (circuitBreakerTimeout s) (hourlyLimit s) (patternVariation s).

Definition set_circuitBreakerResetTime (v : option Z) (s : SessionStats) : SessionStats :=
  mkSessionStats (addedToday s) (lastDateReset s) (hourlyAdditionCounts s)
    (circuitBreakerTripped s) v (isAddingMembers s)
    (userStatus s) (consecutiveFailures s) (failedNumbers s) (currentBatch s)
    (currentBatchIndex s) (lastGroupId s) (minDelay s) (maxDelay s) (dailyLimit s)
    (maxBatchSize s) (pauseAfterBatch s) (batchCooldown s) (failureThreshold s)
    (circuitBreakerTimeout s) (hourlyLimit s) (patternVariation s).

Definition set_isAddingMembers (v : bool) (s : SessionStats) : SessionStats :=
  mkSessionStats (addedToday s) (lastDateReset s) (hourlyAdditionCounts s)
    (circuitBreakerTripped s) (circuitBreakerResetTime s) v
    (userStatus s) (consecutiveFailures s) (failedNumbers s) (currentBatch s)
    (currentBatchIndex s) (lastGroupId s) (minDelay s) (maxDelay s) (dailyLimit s)
    (maxBatchSize s) (pauseAfterBatch s) (batchCooldown s) (failureThreshold s)
    (circuitBreakerTimeout s) (hourlyLimit s) (patternVariation s).

Definition set_userStatus (v : string) (s : SessionStats) : SessionStats :=
  mkSessionStats (addedToday s) (lastDateReset s) (hourlyAdditionCounts s)
    (circuitBreakerTripped s) (circuitBreakerResetTime s) (isAddingMembers s)
    v (consecutiveFailures s) (failedNumbers s) (currentBatch s)
    (currentBatchIndex s) (lastGroupId s) (minDelay s) (maxDelay s) (dailyLimit s)
    (maxBatchSize s) (pauseAfterBatch s) (batchCooldown s) (failureThreshold s)
    (circuitBreakerTimeout s) (hourlyLimit s) (patternVariation s).

Definition set_consecutiveFailures (v : Z) (s : SessionStats) : SessionStats :=
  mkSessionStats (addedToday s) (lastDateReset s) (hourlyAdditionCounts s)
    (circuitBreakerTripped s) (circuitBreakerResetTime s) (isAddingMembers s)
    (userStatus s) v (failedNumbers s) (currentBatch s)
    (currentBatchIndex s) (lastGroupId s) (minDelay s) (maxDelay s) (dailyLimit s)
    (maxBatchSize s) (pauseAfterBatch s) (batchCooldown s) (failureThreshold s)
    (circuitBreakerTimeout s) (hourlyLimit s) (patternVariation s).

Definition set_failedNumbers (v : gmap string Failure.t) (s : SessionStats) : SessionStats :=
  mkSessionStats (addedToday s) (lastDateReset s) (hourlyAdditionCounts s)
    (circuitBreakerTripped s) (circuitBreakerResetTime s) (isAddingMembers s)
    (userStatus s) (consecutiveFailures s) v (currentBatch s)
    (currentBatchIndex s) (lastGroupId s) (minDelay s) (maxDelay s) (dailyLimit s)
    (maxBatchSize s) (pauseAfterBatch s) (batchCooldown s) (failureThreshold s)
    (circuitBreakerTimeout s) (hourlyLimit s) (patternVariation s).

Definition set_currentBatch (v : list Item) (s : SessionStats) : SessionStats :=
  mkSessionStats (addedToday s) (lastDateReset s) (hourlyAdditionCounts s)
    (circuitBreakerTripped s) (circuitBreakerResetTime s) (isAddingMembers s)
    (userStatus s) (consecutiveFailures s) (failedNumbers s) v
    (currentBatchIndex s) (lastGroupId s) (minDelay s) (maxDelay s) (dailyLimit s)
    (maxBatchSize s) (pauseAfterBatch s) (batchCooldown s) (failureThreshold s)
    (circuitBreakerTimeout s) (hourlyLimit s) (patternVariation s).

Definition set_currentBatchIndex (v : nat) (s : SessionStats) : SessionStats :=
  mkSessionStats (addedToday s) (lastDateReset s) (hourlyAdditionCounts s)
    (circuitBreakerTripped s) (circuitBreakerResetTime s) (isAddingMembers s)
    (userStatus s) (consecutiveFailures s) (failedNumbers s) (currentBatch s)
    v (lastGroupId s) (minDelay s) (maxDelay s) (dailyLimit s)
    (maxBatchSize s) (pauseAfterBatch s) (batchCooldown s) (failureThreshold s)
    (circuitBreakerTimeout s) (hourlyLimit s) (patternVariation s).

Definition set_lastGroupId (v : option string) (s : SessionStats) : SessionStats :=
  mkSessionStats (addedToday s) (lastDateReset s) (hourlyAdditionCounts s)
    (circuitBreakerTripped s) (circuitBreakerResetTime s) (isAddingMembers s)
    (userStatus s) (consecutiveFailures s) (failedNumbers s) (currentBatch s)
    (currentBatchIndex s) v (minDelay s) (maxDelay s) (dailyLimit s)
    (maxBatchSize s) (pauseAfterBatch s) (batchCooldown s) (failureThreshold s)
    (circuitBreakerTimeout s) (hourlyLimit s) (patternVariation s).

(** ** The three persisted records *)

Module StatsFile.
Record t : Type := mk {
  addedToday : Z;
  lastDateReset : Z;
  hourlyAdditionCounts : list Z;
  circuitBreakerTripped : bool;
  circuitBreakerResetTime : option Z
}.
End StatsFile.

Module BatchFile.
Record t : Type := mk {
  currentBatch : list Item;
  currentBatchIndex : nat;
  lastGroupId : option string
}.
End BatchFile.

(** The [data] directory: a file is [None] when it does not exist.
    Failing file operations are not modelled. *)
Record Disk : Type := mkDisk {
  statsFile : option StatsFile.t;
  failedNumbersFile : option (gmap string Failure.t);
  batchesFile : option BatchFile.t
}.

(** ** The outside world *)

(** The calls made on the messaging client. *)
Inductive ClientCall : Type :=
  | getParticipants (groupId : string)
  | getChatById (groupId : string)
  | isRegisteredUser (formattedNumber : string)
  | getContactById (formattedNumber : string)
  | addParticipants (groupId formattedNumber : string)
  | sendMessage (groupId message : string).

(** A promise of the client resolves (with the one boolean the caller
    looks at: [isGroup] of a chat, the answer of [isRegisteredUser]) or
    rejects. *)
Inductive Response : Type :=
  | Resolve (value : bool)
  | Reject (e : JsError).

Record Oracle : Type := mkOracle {
  clock : nat -> Z;
  random : nat -> Q;
  client : nat -> ClientCall -> Response
}.

(** What an observer sees of a run, besides the returned object. *)
Inductive Event : Type :=
  | Sleep (ms : Q)
  | WriteBatch (b : BatchFile.t)
  | UnlinkBatch
  | Called (c : ClientCall)
  | Attempt (number : Item) (groupId : string).

(** The state a run threads: the session object, the disk, how many
    reads were made of each oracle, and the events so far, the most recent
    first. *)
Record Machine : Type := mkMachine {
  stats : SessionStats;
  files : Disk;
  clockReads : nat;
  randomDraws : nat;
  clientCalls : nat;
  events : list Event
}.

Definition set_stats (v : SessionStats) (m : Machine) : Machine :=
  mkMachine v (files m) (clockReads m) (randomDraws m) (clientCalls m) (events m).

Definition set_files (v : Disk) (m : Machine) : Machine :=
  mkMachine (stats m) v (clockReads m) (randomDraws m) (clientCalls m) (events m).

Definition emit (e : Event) (m : Machine) : Machine :=
  mkMachine (stats m) (files m) (clockReads m) (randomDraws m) (clientCalls m)
    (e :: events m).

(** ** A state monad over the machine *)

Definition M (A : Type) : Type := Machine -> A * Machine.

Definition ret {A : Type} (a : A) : M A := fun m => (a, m).

Definition bind {A B : Type} (c : M A) (k : A -> M B) : M B :=
  fun m => let (a, m') := c m in k a m'.

Declare Scope js_scope.
Delimit Scope js_scope with js.
Notation "'let*' x := c 'in' k" := (bind c (fun x => k))
  (at level 10, x name, c at level 100, k at level 200) : js_scope.
Notation "c ;; k" := (bind c (fun _ => k))
  (at level 100, k at level 200, right associativity) : js_scope.
Local Open Scope js_scope.

(** [getSessionStats()] *)
Definition getSessionStats : M SessionStats := fun m => (stats m, m).

(** an assignment to fields of the session object *)
Definition assign (f : SessionStats -> SessionStats) : M unit :=
  fun m => (tt, set_stats (f (stats m)) m).

(** [await new Promise(resolve => setTimeout(resolve, ms))] *)
Definition sleep (ms : Q) : M unit := fun m => (tt, emit (Sleep ms) m).

(** [when c k]: [if (c) { k }] *)
Definition when (c : bool) (k : M unit) : M unit := if c then k else ret tt.

(** ** Persistence (storage.service.js) *)

(** What [saveSessionStats] does to the machine: the stats and the
    failures are always written, the batch record only while a batch is in
    memory. *)
Definition writeFiles (m : Machine) : Machine :=
  let s := stats m in
  let record :=
    StatsFile.mk (addedToday s) (lastDateReset s) (hourlyAdditionCounts s)
      (circuitBreakerTripped s) (circuitBreakerResetTime s) in
  match currentBatch s with
  | [] =>
      set_files (mkDisk (Some record) (Some (failedNumbers s))
                   (batchesFile (files m))) m
  | _ :: _ =>
      let batchData :=
        BatchFile.mk (currentBatch s) (currentBatchIndex s) (lastGroupId s) in
      emit (WriteBatch batchData)
        (set_files (mkDisk (Some record) (Some (failedNumbers s))
                      (Some batchData)) m)
  end.

Definition saveSessionStats : M unit := fun m => (tt, writeFiles m).

(** What [clearBatchData] of the WhatsApp service does: the file is
    unlinked when it exists; the session object is not touched here. *)
Definition unlinkBatchFile (m : Machine) : Machine :=
  match batchesFile (files m) with
  | Some _ =>
      emit UnlinkBatch
        (set_files (mkDisk (statsFile (files m))
                      (failedNumbersFile (files m)) None) m)
  | None => m
  end.

Definition clearBatchData : M unit := fun m => (tt, unlinkBatchFile m).

(** [loadBatchData] of the storage service, the file being readable. *)
Definition loadBatchData : M unit := fun m =>
  match batchesFile (files m) with
  | Some batchData =>
      match BatchFile.currentBatch batchData with
      | _ :: _ =>
          assign (fun s =>
            set_lastGroupId (BatchFile.lastGroupId batchData)
              (set_currentBatchIndex (BatchFile.currentBatchIndex batchData)
                 (set_currentBatch (BatchFile.currentBatch batchData) s))) m
      | [] => (tt, m)
      end
  | None => (tt, m)
  end.

(** ** The results object *)

Module Detail.
Record t : Type := mk {
  number : Item;
  status : string;
  reason : string
}.
End Detail.

Record BatchProgress : Type := mkBatchProgress {
  total : nat;
  processed : nat;
  remaining : nat;
  estimatedCompletion : option Z
}.

Record Results : Type := mkResults {
  success : bool;
  message : option string;
  added : nat;
  failed : nat;
  skipped : nat;
  details : list Detail.t;
  batch : BatchProgress
}.

(** What [addMembersToGroup] resolves to: the bare
    [{ success: false, message }] of a refused submission, or the results
    object, possibly with [success] and [message] overridden. *)
Inductive Reply : Type :=
  | Rejected (message : string)
  | Report (r : Results).

(** [results.details.push({number, status, reason})] *)
Definition pushDetail (number : Item) (status reason : string) (r : Results) : Results :=
  mkResults (success r) (message r) (added r) (failed r) (skipped r)
    (details r ++ [Detail.mk number status reason]) (batch r).

Definition incrAdded (r : Results) : Results :=
  mkResults (success r) (message r) (S (added r)) (failed r) (skipped r)
    (details r) (batch r).

Definition incrFailed (r : Results) : Results :=
  mkResults (success r) (message r) (added r) (S (failed r)) (skipped r)
    (details r) (batch r).

Definition incrSkipped (r : Results) : Results :=
  mkResults (success r) (message r) (added r) (failed r) (S (skipped r))
    (details r) (batch r).

Definition set_batch (b : BatchProgress) (r : Results) : Results :=
  mkResults (success r) (message r) (added r) (failed r) (skipped r)
    (details r) b.

(** [{ ...results, success: false, message }] *)
Definition paused (msg : string) (r : Results) : Results :=
  mkResults false (Some msg) (added r) (failed r) (skipped r)
    (details r) (batch r).

Definition initialResults (numbers : list Item) : Results :=
  mkResults true None 0 0 0 []
    (mkBatchProgress (length numbers) 0 (length numbers) None).

(** ** The service (whatsapp.service.js) *)

(** [errorMsg.includes(k)] for one of the seven keywords *)
Definition isBanRelated (errorMsg : string) : bool :=
  includes errorMsg "not-authorized" ||
  includes errorMsg "forbidden" ||
  includes errorMsg "denied" ||
  includes errorMsg "blocked" ||
  includes errorMsg "spam" ||
  includes errorMsg "limit" ||
  includes errorMsg "banned".

(** [err.message || 'Unknown error'] *)
Definition messageOrUnknown (err : JsError) : string :=
  match errMessage err with
  | Some EmptyString | None => "Unknown error"
  | Some msg => msg
  end.

(** [`${err.message}`] *)
Definition messageText (err : JsError) : string :=
  match errMessage err with
  | Some msg => msg
  | None => "undefined"
  end.

(** The wait before a retry: 5 seconds after an execution context
    error, 2 seconds otherwise. *)
Definition retryWait (err : JsError) : Q :=
  match errMessage err with
  | Some msg =>
      if negb (String.eqb msg "") && includes msg "Execution context was destroyed"
      then 5000%Q else 2000%Q
  | None => 2000%Q
  end.

(** [arr[h]++] on the array of hourly counts; nothing is done outside
    the array (JavaScript would store [NaN] past its end). *)
Definition incrementAt (h : nat) (counts : list Z) : list Z :=
  match counts !! h with
  | Some c => <[h := c + 1]> counts
  | None => counts
  end.

Definition formattedOr (v : Validation) (alt : string) : string :=
  match formatted v with
  | Some f => f
  | None => alt
  end.

(** How one pass of the loop body, or the whole [try] block, ends: the
    loop goes on, the function returns a results object, or an exception
    leaves the block.  The results object is mutated in place, so its
    current value travels with each of them. *)
Inductive Step : Type :=
  | Next (results : Results)
  | Return (results : Results)
  | Throw (e : JsError) (results : Results).

Section Service.

Variable env : Oracle.

(** [new Date()] *)
Definition newDate : M Z := fun m =>
  (clock env (clockReads m),
   mkMachine (stats m) (files m) (S (clockReads m)) (randomDraws m)
     (clientCalls m) (events m)).

(** [Math.random()] *)
Definition mathRandom : M Q := fun m =>
  (random env (randomDraws m),
   mkMachine (stats m) (files m) (clockReads m) (S (randomDraws m))
     (clientCalls m) (events m)).

(** [await client.<call>] *)
Definition call (c : ClientCall) : M Response := fun m =>
  (client env (clientCalls m) c,
   mkMachine (stats m) (files m) (clockReads m) (randomDraws m)
     (S (clientCalls m)) (Called c :: events m)).

Definition checkHourlyLimit : M bool :=
  let* safetyConfig := getSessionStats in
  let* d := newDate in
  let currentHour := Z.to_nat (getHours d) in
  ret (match hourlyAdditionCounts safetyConfig !! currentHour with
       | Some c => hourlyLimit safetyConfig <=? c
       | None => false
       end).

Definition updateHourlyCount : M unit :=
  let* d := newDate in
  let currentHour := Z.to_nat (getHours d) in
  assign (fun s =>
    set_hourlyAdditionCounts (incrementAt currentHour (hourlyAdditionCounts s)) s) ;;
  saveSessionStats.

Definition resetCircuitBreaker : M unit :=
  assign (fun s =>
    set_consecutiveFailures 0
      (set_circuitBreakerResetTime None
         (set_circuitBreakerTripped false s))) ;;
  saveSessionStats.

Definition checkCircuitBreaker : M bool :=
  let* safetyConfig := getSessionStats in
  if circuitBreakerTripped safetyConfig then
    let resetTime := dateOf (circuitBreakerResetTime safetyConfig) in
    let* now := newDate in
    if resetTime <? now then
      resetCircuitBreaker ;; ret false
    else ret true
  else if failureThreshold safetyConfig <=? consecutiveFailures safetyConfig then
    assign (set_circuitBreakerTripped true) ;;
    let* resetTime := newDate in
    assign (fun s =>
      set_circuitBreakerResetTime
        (Some (addSeconds resetTime (inject_Z (circuitBreakerTimeout s)))) s) ;;
    saveSessionStats ;;
    ret true
  else ret false.

Definition updateFailedNumber (formattedNumber reason : string) : M unit :=
  let* now := newDate in
  assign (fun s =>
    match failedNumbers s !! formattedNumber with
    | Some record =>
        set_failedNumbers
          (<[formattedNumber :=
               Failure.mk (Failure.count record + 1) (Failure.firstFailure record)
                 now reason]> (failedNumbers s)) s
    | None =>
        set_failedNumbers
          (<[formattedNumber := Failure.mk 1 now now reason]> (failedNumbers s)) s
    end) ;;
  saveSessionStats.

(** [getSmartDelay]: the delay in milliseconds.  The division by a
    [dailyLimit] of 0 follows the convention of [Q] (the quotient is 0),
    where JavaScript has [NaN] or [Infinity]. *)
Definition getSmartDelay : M Z :=
  let* safetyConfig := getSessionStats in
  let* r := mathRandom in
  let baseDelay :=
    Qfloor (r * inject_Z (maxDelay safetyConfig - minDelay safetyConfig + 1)
            + inject_Z (minDelay safetyConfig))%Q in
  let delayMultiplier := 1%Q in
  let* d := newDate in
  let hour := getHours d in
  let delayMultiplier :=
    if (1 <=? hour) && (hour <=? 4) then (delayMultiplier * (3 # 2))%Q
    else delayMultiplier in
  let dailyProgress :=
    (inject_Z (addedToday safetyConfig) / inject_Z (dailyLimit safetyConfig))%Q in
  let delayMultiplier :=
    if Qlt_bool (7 # 10) dailyProgress
    then (delayMultiplier * (1 + (dailyProgress - (7 # 10))))%Q
    else delayMultiplier in
  let delayMultiplier :=
    if 0 <? consecutiveFailures safetyConfig
    then (delayMultiplier *
          (1 + inject_Z (consecutiveFailures safetyConfig) * (1 # 10)))%Q
    else delayMultiplier in
  let* delayMultiplier :=
    if patternVariation safetyConfig then
      let* r1 := mathRandom in
      if Qlt_bool r1 (15 # 100) then
        let* r2 := mathRandom in
        if Qlt_bool r2 (7 # 10) then
          let* r3 := mathRandom in
          ret (delayMultiplier * ((3 # 2) + r3))%Q
        else ret (delayMultiplier * (7 # 10))%Q
      else ret delayMultiplier
    else ret delayMultiplier in
  ret (Qfloor (inject_Z baseDelay * delayMultiplier) * 1000).

(** *** Saving a contact, then adding it *)

Definition maxRetries : nat := 3.

(** The first retry loop, with [left] attempts left: the registration
    check.  After the last failed attempt the error is thrown. *)
Fixpoint checkRegistered (left : nat) (formattedNumber : string)
  : M (Completion bool) :=
  match left with
  | O => ret (Returned false)
  | S left' =>
      let* r := call (isRegisteredUser formattedNumber) in
      match r with
      | Resolve contactExists => ret (Returned contactExists)
      | Reject err =>
          sleep (retryWait err) ;;
          match left' with
          | O => ret (Thrown (newError
                   ("Failed to check if number is registered after 3 attempts: "
                    ++ messageText err)))
          | S _ => checkRegistered left' formattedNumber
          end
      end
  end.

(** The second retry loop: the contact is fetched for its name only, and
    the loop is left without an error after the last attempt. *)
Fixpoint fetchContact (left : nat) (formattedNumber : string) : M unit :=
  match left with
  | O => ret tt
  | S left' =>
      let* r := call (getContactById formattedNumber) in
      match r with
      | Resolve _ => ret tt
      | Reject err => sleep (retryWait err) ;; fetchContact left' formattedNumber
      end
  end.

(** The third retry loop: the addition itself; the last error is thrown
    as it is. *)
Fixpoint addWithRetry (left : nat) (groupId formattedNumber : string)
  : M (Completion bool) :=
  match left with
  | O => ret (Returned false)
  | S left' =>
      let* r := call (addParticipants groupId formattedNumber) in
      match r with
      | Resolve _ => ret (Returned true)
      | Reject err =>
          sleep (retryWait err) ;;
          match left' with
          | O => ret (Thrown err)
          | S _ => addWithRetry left' groupId formattedNumber
          end
      end
  end.

Definition saveContactThenAdd (number : Item) (groupId : string)
  : M (Completion bool) :=
  (fun m => (tt, emit (Attempt number groupId) m)) ;;
  match validatePhoneNumber number with
  | Thrown e => ret (Thrown e)
  | Returned validation =>
      if negb (isValid validation) then
        ret (Thrown (newError (validationReason validation)))
      else
        let formattedNumber := formattedOr validation "null" in
        let* registered := checkRegistered maxRetries formattedNumber in
        match registered with
        | Thrown e => ret (Thrown e)
        | Returned contactExists =>
            if negb contactExists then
              ret (Thrown (newError "Number not registered on WhatsApp"))
            else
              fetchContact maxRetries formattedNumber ;;
              let* r := mathRandom in
              let humanDelay := 500 + Qfloor (r * 1500)%Q in
              sleep (inject_Z humanDelay) ;;
              addWithRetry maxRetries groupId formattedNumber
        end
  end.

(** *** The batch loop *)

(** The success path of one item: the statements after the awaited
    [saveContactThenAdd] inside the [try]. *)
Definition recordAddition (numbers : list Item) (i : nat) (number : Item)
    (results : Results) : M Results :=
  assign (fun s => set_addedToday (addedToday s + 1) s) ;;
  updateHourlyCount ;;
  let results :=
    pushDetail number "added" "Successfully saved contact and added to group"
      (incrAdded results) in
  assign (set_consecutiveFailures 0) ;;
  saveSessionStats ;;
  (if (Z.of_nat i <? Z.of_nat (length numbers) - 1) then
     let* delay := getSmartDelay in sleep (inject_Z delay)
   else ret tt) ;;
  ret results.

(** The [catch] block of one item. *)
Definition handleAddFailure (number : Item) (err : JsError) (results : Results)
  : M Step :=
  let errorMsg := messageOrUnknown err in
  let isBan := isBanRelated errorMsg in
  assign (fun s => set_consecutiveFailures (consecutiveFailures s + 1) s) ;;
  match validatePhoneNumber number with
  | Thrown e => ret (Throw e results)
  | Returned validation =>
      let formattedNumber :=
        if isValid validation then formattedOr validation "null"
        else itemToString number ++ "@c.us" in
      updateFailedNumber formattedNumber errorMsg ;;
      let results := incrFailed (pushDetail number "failed" errorMsg results) in
      let* early :=
        if isBan then
          let* r := mathRandom in
          let extraDelay := (300 + r * 300)%Q in
          sleep (extraDelay * 1000)%Q ;;
          let* safetyConfig := getSessionStats in
          if (3 <=? consecutiveFailures safetyConfig) && isBan then
            assign (set_circuitBreakerTripped true) ;;
            let* resetTime := newDate in
            assign (fun s =>
              set_circuitBreakerResetTime
                (Some (addSeconds resetTime (inject_Z (circuitBreakerTimeout s)))) s) ;;
            saveSessionStats ;;
            ret (Some (paused
              "Operation paused due to potential ban risk. Will resume automatically after cooldown period."
              results))
          else ret None
        else ret None in
      match early with
      | Some partial => ret (Return partial)
      | None =>
          let* safetyConfig := getSessionStats in
          let failureDelay :=
            Z.min (60 + consecutiveFailures safetyConfig * 30) 300 in
          sleep (inject_Z (failureDelay * 1000)) ;;
          ret (Next results)
      end
  end.

(** The body of the [for] loop at index [i], [number] being
    [numbers[i]]. *)
Definition iteration (groupId : string) (numbers : list Item) (i : nat)
    (number : Item) (results : Results) : M Step :=
  assign (set_currentBatchIndex i) ;;
  saveSessionStats ;;
  let remainingNow := (length numbers - i)%nat in
  let* safetyConfig := getSessionStats in
  let avgDelaySeconds :=
    (inject_Z (minDelay safetyConfig + maxDelay safetyConfig) / 2 * (6 # 5))%Q in
  let estimatedRemainingSeconds :=
    (inject_Z (Z.of_nat remainingNow) * avgDelaySeconds)%Q in
  let* estimatedCompletion := newDate in
  let results :=
    set_batch (mkBatchProgress (total (batch results)) i remainingNow
                 (Some (addSeconds estimatedCompletion estimatedRemainingSeconds)))
      results in
  when ((0 <? Z.of_nat i) &&
        (Z.rem (Z.of_nat i) (maxBatchSize safetyConfig) =? 0))
    (sleep (inject_Z (batchCooldown safetyConfig * 1000))) ;;
  let* safetyConfig := getSessionStats in
  if dailyLimit safetyConfig <=? addedToday safetyConfig then
    ret (Next (incrSkipped (pushDetail number "skipped" "Daily limit reached" results)))
  else
    let* hourly := checkHourlyLimit in
    if hourly then
      let results :=
        incrSkipped (pushDetail number "skipped" "Hourly limit reached" results) in
      let* now := newDate in
      let waitTime := nextHourOf now - now in
      when (0 <? waitTime)
        (sleep (inject_Z waitTime) ;;
         let* d := newDate in
         let newHour := Z.to_nat (getHours d) in
         assign (fun s =>
           set_hourlyAdditionCounts (<[newHour := 0]> (hourlyAdditionCounts s)) s)) ;;
      ret (Next results)
    else
      let* outcome := saveContactThenAdd number groupId in
      let* step :=
        match outcome with
        | Returned _ =>
            let* results := recordAddition numbers i number results in
            ret (Next results)
        | Thrown err => handleAddFailure number err results
        end in
      match step with
      | Next results =>
          let* tripped := checkCircuitBreaker in
          if tripped then
            saveSessionStats ;;
            ret (Return (paused
              "Operation paused due to too many consecutive failures. Will resume automatically after cooldown period."
              results))
          else ret (Next results)
      | _ => ret step
      end.

(** [for (let i = ...; i < numbers.length; i++)], [rest] being the
    elements of [numbers] from index [i] on. *)
Fixpoint forLoop (groupId : string) (numbers : list Item) (i : nat)
    (rest : list Item) (results : Results) : M Step :=
  match rest with
  | [] => ret (Next results)
  | number :: rest' =>
      let* step := iteration groupId numbers i number results in
      match step with
      | Next results => forLoop groupId numbers (S i) rest' results
      | _ => ret step
      end
  end.

(** The end of the [try] block, once the loop has run to its end: the
    greeting, the clean-up of the batch, and the return of the results. *)
Definition finishBatch (groupId message : string) (results : Results) : M Step :=
  when (negb (String.eqb message "") && (0 <? added results)%nat)
    (let* _ := call (sendMessage groupId message) in ret tt) ;;
  let* safetyConfig := getSessionStats in
  when ((0 <? length (currentBatch safetyConfig))%nat &&
        (Z.of_nat (length (currentBatch safetyConfig)) - 1
           <=? Z.of_nat (currentBatchIndex safetyConfig)))
    (assign (fun s =>
       set_lastGroupId None (set_currentBatchIndex 0 (set_currentBatch [] s))) ;;
     clearBatchData) ;;
  ret (Return results).

(** The [try] block. *)
Definition tryBlock (groupId : string) (numbers : list Item) (message : string)
    (results : Results) : M Step :=
  let* safetyConfig := getSessionStats in
  let start := currentBatchIndex safetyConfig in
  let* step := forLoop groupId numbers start (drop start numbers) results in
  match step with
  | Next results => finishBatch groupId message results
  | _ => ret step
  end.

(** From [safetyConfig.isAddingMembers = true] to the [try]: the flag is
    raised, the results object is made, and the batch is taken over, from
    the stored cursor when the stored batch is of this group. *)
Definition startBatch (groupId : string) (numbers : list Item) : M Results :=
  assign (fun s => set_userStatus "adding" (set_isAddingMembers true s)) ;;
  let results := initialResults numbers in
  let* safetyConfig := getSessionStats in
  (if (0 <? length (currentBatch safetyConfig))%nat &&
      bool_decide (lastGroupId safetyConfig = Some groupId)
   then assign (set_currentBatch numbers)
   else assign (fun s => set_currentBatchIndex 0 (set_currentBatch numbers s))) ;;
  ret results.

(** The [catch] of the outer [try]: what the function resolves to for
    each way the [try] block ends. *)
Definition catchUnexpected (step : Step) : Reply :=
  match step with
  | Next results | Return results => Report results
  | Throw err results =>
      Report (paused ("Unexpected error: " ++ messageText err ++
                      ". Current progress saved for later resumption.") results)
  end.

(** The [finally] of the outer [try]. *)
Definition finallyBlock : M unit :=
  assign (fun s => set_userStatus "ready" (set_isAddingMembers false s)) ;;
  saveSessionStats.

(** The second half of [addMembersToGroup], entered once the submission
    is admitted. *)
Definition processBatch (groupId : string) (numbers : list Item) (message : string)
  : M Reply :=
  let* results := startBatch groupId numbers in
  let* step := tryBlock groupId numbers message results in
  finallyBlock ;;
  ret (catchUnexpected step).

(** The verification of the group: [None] when the submission goes on. *)
Definition verifyGroup (groupId : string) : M (option Reply) :=
  if matchesNewerGroupId groupId then
    let* r := call (getParticipants groupId) in
    match r with
    | Resolve _ => ret None
    | Reject _ =>
        assign (fun s => set_consecutiveFailures (consecutiveFailures s + 1) s) ;;
        ret None
    end
  else
    let* r := call (getChatById groupId) in
    match r with
    | Resolve isGroup =>
        if negb isGroup then ret (Some (Rejected "Provided ID is not a group"))
        else ret None
    | Reject _ =>
        assign (fun s => set_consecutiveFailures (consecutiveFailures s + 1) s) ;;
        ret (Some (Rejected "Invalid group ID or group not found"))
    end.

(** [Math.ceil(ms / (60 * 1000))] *)
Definition ceilMinutes (ms : Z) : Z := - ((- ms) / 60000).

(** The checks before the verification of the group: [None] when all of
    them pass. *)
Definition admission : M (option Reply) :=
  let* safetyConfig := getSessionStats in
  if isAddingMembers safetyConfig then
    ret (Some (Rejected "Already adding members to a group"))
  else
    let* today := newDate in
    when (negb (lastDateReset safetyConfig =? toDateString today))
      (assign (fun s =>
         set_hourlyAdditionCounts (replicate 24 0) (set_addedToday 0 s)) ;;
       let* today := newDate in
       assign (set_lastDateReset (toDateString today)) ;;
       saveSessionStats) ;;
    let* tripped := checkCircuitBreaker in
    if tripped then
      let* safetyConfig := getSessionStats in
      let resetTime := dateOf (circuitBreakerResetTime safetyConfig) in
      let* now := newDate in
      let waitMins := ceilMinutes (resetTime - now) in
      ret (Some (Rejected
        ("Protection mode active due to too many failures. Please wait "
         ++ pretty waitMins ++ " minutes.")))
    else
      let* hourly := checkHourlyLimit in
      let* safetyConfig := getSessionStats in
      if hourly then
        ret (Some (Rejected
          ("Hourly limit of " ++ pretty (hourlyLimit safetyConfig)
           ++ " members reached. Please try again later.")))
      else
        let remainingToday := dailyLimit safetyConfig - addedToday safetyConfig in
        if remainingToday <=? 0 then
          ret (Some (Rejected
            ("Daily limit of " ++ pretty (dailyLimit safetyConfig)
             ++ " members reached. Try again tomorrow.")))
        else ret None.

Definition addMembersToGroup (groupId : string) (numbers : list Item)
    (message : string) : M Reply :=
  let* refused := admission in
  match refused with
  | Some reply => ret reply
  | None =>
      let* invalid := verifyGroup groupId in
      match invalid with
      | Some reply => ret reply
      | None => processBatch groupId numbers message
      end
  end.

End Service.

(** ** Repeated polling of the circuit breaker *)

(** The time the next read of the clock returns. *)
Definition nextReading (env : Oracle) (m : Machine) : Z :=
  clock env (clockReads m).


(** ** Concrete worlds and session objects, for the examples *)

(** The clock starts in hour 13 of day 11 and advances one second per
    read; every draw is one half; the client accepts everything. *)
Definition calmWorld : Oracle :=
  mkOracle (fun n => 1000000000 + Z.of_nat n * 1000)
           (fun _ => (1 # 2)%Q)
           (fun _ _ => Resolve true).

(** The defaults of the storage service, on day 11. *)
Definition defaultStats : SessionStats :=
  mkSessionStats 0 11 (replicate 24 0) false None false "ready" 0 ∅ [] 0 None
    30 90 20000 1000 3600 300 10 1800 1000 true.

Definition emptyDisk : Disk := mkDisk None None None.

Definition machineOf (s : SessionStats) : Machine :=
  mkMachine s emptyDisk 0 0 0 [].

(** A breaker tripped at second 1000000 of the clock, to reset half an
    hour later. *)
Definition trippedStats : SessionStats :=
  set_consecutiveFailures 10
    (set_circuitBreakerResetTime (Some 1001800000)
       (set_circuitBreakerTripped true defaultStats)).





(** A world in which the client refuses every addition with an error
    that reads as a ban, and accepts every other call. *)
Definition banWorld : Oracle :=
  mkOracle (clock calmWorld) (random calmWorld)
           (fun _ c => match c with
                       | addParticipants _ _ => Reject (newError "forbidden")
                       | _ => Resolve true
                       end).

(** The defaults after two failures in a row. *)
Definition twoFailures : SessionStats := set_consecutiveFailures 2 defaultStats.

Definition exampleGroup : string := "120363413164388361@g.us".

Definition exampleLegacyGroup : string := "1234567890-1234567890@g.us".

Definition alice : Item := ItemString "1234567890".
Definition bob : Item := ItemString "1234567891".
Definition carol : Item := ItemString "1234567892".
Definition dave : Item := ItemString "1234567893".
Definition erin : Item := ItemString "1234567894".
Definition frank : Item := ItemString "1234567895".
Definition grace : Item := ItemString "1234567896".


(** The results object of a reply, the empty one for a refusal. *)
Definition reported (reply : Reply) : Results :=
  match reply with
  | Report r => r
  | Rejected _ => initialResults []
  end.

(** A batch of four interrupted at its third item: in memory and on
    disk, for [exampleGroup]. *)
Definition fourItems : list Item := [alice; bob; carol; dave].

Definition interruptedStats : SessionStats :=
  set_lastGroupId (Some exampleGroup)
    (set_currentBatchIndex 2 (set_currentBatch fourItems defaultStats)).

Definition interruptedMachine : Machine :=
  mkMachine interruptedStats
    (mkDisk None None (Some (BatchFile.mk fourItems 2 (Some exampleGroup))))
    0 0 0 [].

(** A batch whose only element is a JSON number. *)
Definition numberItem : Item := ItemNumber 1234567890.




(** A batch of seven, and the defaults with five additions left today. *)
Definition sevenItems : list Item := [alice; bob; carol; dave; erin; frank; grace].

Definition fiveLeft : SessionStats := set_addedToday 19995 defaultStats.

(** A world whose clock reads 23:59:56 of day 11 first and advances one
    second per read: the fifth read is midnight. *)
Definition midnightWorld : Oracle :=
  mkOracle (fun n => 1036796000 + Z.of_nat n * 1000)
           (random calmWorld) (client calmWorld).

(** The defaults after a thousand additions in hour 0 of day 11: the
    counter of that hour is at the hourly limit. *)
Definition fullFirstHour : SessionStats :=
  set_hourlyAdditionCounts (1000 :: replicate 23 0)
    (set_addedToday 1000 defaultStats).

(** ** Observations on the events *)

(** The sleeps of a run, in the order they were taken. *)
Fixpoint sleepsOf (es : list Event) : list Q :=
  match es with
  | [] => []
  | Sleep ms :: es' => sleepsOf es' ++ [ms]
  | _ :: es' => sleepsOf es'
  end.

(** The items handed to [saveContactThenAdd], in order. *)
Fixpoint attemptsOf (es : list Event) : list Item :=
  match es with
  | [] => []
  | Attempt number _ :: es' => attemptsOf es' ++ [number]
  | _ :: es' => attemptsOf es'
  end.

(** The batch records written, in order. *)
Fixpoint writesOf (es : list Event) : list BatchFile.t :=
  match es with
  | [] => []
  | WriteBatch b :: es' => writesOf es' ++ [b]
  | _ :: es' => writesOf es'
  end.

(** The batch record the session object describes. *)
Definition batchRecord (s : SessionStats) : BatchFile.t :=
  BatchFile.mk (currentBatch s) (currentBatchIndex s) (lastGroupId s).

(** ** Relations between the machine before and after a computation *)

(** [stays R c]: running [c] takes every machine to one related to it
    by [R]. *)
Definition stays {A : Type} (R : Machine -> Machine -> Prop) (c : M A) : Prop :=
  forall m : Machine, R m (snd (c m)).

(** Nothing of the session object or of the disk changed, nothing was
    attempted, and the events only grew. *)
Record sameSession (m m' : Machine) : Prop := mkSameSession {
  sameSession_stats : stats m' = stats m;
  sameSession_files : files m' = files m;
  sameSession_attempts : attemptsOf (events m') = attemptsOf (events m);
  sameSession_writes : writesOf (events m') = writesOf (events m);
  sameSession_unlinks : In UnlinkBatch (events m') -> In UnlinkBatch (events m)
}.

(** The batch in memory was left alone: its three fields are unchanged,
    the batch file is either untouched or was rewritten from the session
    object, nothing was attempted or unlinked, and every batch record
    written is the one the session object describes. *)
Record quiet (m m' : Machine) : Prop := mkQuiet {
  quiet_batch : currentBatch (stats m') = currentBatch (stats m);
  quiet_index : currentBatchIndex (stats m') = currentBatchIndex (stats m);
  quiet_group : lastGroupId (stats m') = lastGroupId (stats m);
  quiet_file :
    batchesFile (files m') = batchesFile (files m) \/
    batchesFile (files m') = Some (batchRecord (stats m));
  quiet_attempts : attemptsOf (events m') = attemptsOf (events m);
  quiet_writes :
    exists k : nat,
      writesOf (events m') =
        (writesOf (events m) ++ replicate k (batchRecord (stats m)))%list;
  quiet_unlinks : In UnlinkBatch (events m') -> In UnlinkBatch (events m)
}.

(** As [quiet], but for at most one call of [saveContactThenAdd], on
    [number]. *)
Definition attempting (number : Item) (groupId : string) (m m' : Machine) : Prop :=
  quiet m m' \/
  exists ma : Machine, quiet m ma /\ quiet (emit (Attempt number groupId) ma) m'.

(** [returns Q c]: whatever the machine, the value of [c] satisfies [Q]. *)
Definition returns {A : Type} (Q : A -> Prop) (c : M A) : Prop :=
  forall m : Machine, Q (fst (c m)).

Definition numbersOf (r : Results) : list Item := map Detail.number (details r).

Definition handled (r : Results) : nat := (added r + failed r + skipped r)%nat.

(** What one pass of the loop on [number] does to the results object:
    one more detail, for [number], and one more item counted; nothing when
    the pass ends in an exception. *)
Definition processedOne (number : Item) (before : Results) (step : Step) : Prop :=
  match step with
  | Next r =>
      numbersOf r = (numbersOf before ++ [number])%list /\
      handled r = S (handled before) /\
      success r = success before
  | Return r =>
      numbersOf r = (numbersOf before ++ [number])%list /\
      handled r = S (handled before) /\
      success r = false
  | Throw _ r =>
      numbersOf r = numbersOf before /\ handled r = handled before /\
      success r = success before
  end.

(** What a pass of the loop at index [i] on [number] leaves behind. *)
Record passed (groupId : string) (i : nat) (number : Item) (m m' : Machine)
  : Prop := mkPassed {
  passed_batch : currentBatch (stats m') = currentBatch (stats m);
  passed_index : currentBatchIndex (stats m') = i;
  passed_group : lastGroupId (stats m') = lastGroupId (stats m);
  passed_file :
    currentBatch (stats m) <> [] ->
    batchesFile (files m') =
      Some (BatchFile.mk (currentBatch (stats m)) i (lastGroupId (stats m)));
  passed_attempts :
    attemptsOf (events m') = attemptsOf (events m) \/
    attemptsOf (events m') = (attemptsOf (events m) ++ [number])%list;
  passed_writes :
    exists k : nat,
      writesOf (events m') =
        (writesOf (events m) ++
         replicate k (BatchFile.mk (currentBatch (stats m)) i (lastGroupId (stats m))))%list;
  passed_unlinks : In UnlinkBatch (events m') -> In UnlinkBatch (events m)
}.

(** The results object a step carries. *)
Definition carried (step : Step) : Results :=
  match step with
  | Next r | Return r | Throw _ r => r
  end.

(** A batch record written while the loop runs from index [i] over
    [rest]: the batch and the group of the session object, and a cursor in
    the range of the loop. *)
Definition writtenInLoop (m : Machine) (i : nat) (rest : list Item)
    (b : BatchFile.t) : Prop :=
  BatchFile.currentBatch b = currentBatch (stats m) /\
  BatchFile.lastGroupId b = lastGroupId (stats m) /\
  (i <= BatchFile.currentBatchIndex b < i + length rest)%nat.

(** What the loop from index [i] over [rest] leaves behind, [n] being
    the number of items it handled. *)
Record looped (i : nat) (rest : list Item) (results : Results)
    (m : Machine) (step : Step) (m' : Machine) (n : nat) : Prop := mkLooped {
  looped_batch : currentBatch (stats m') = currentBatch (stats m);
  looped_group : lastGroupId (stats m') = lastGroupId (stats m);
  looped_attempts :
    exists l : list Item,
      attemptsOf (events m') = (attemptsOf (events m) ++ l)%list /\ sublist l (take
      (match step with Throw _ _ => S n | _ => n end) rest);
  looped_writes :
    exists ws : list BatchFile.t,
      writesOf (events m') = (writesOf (events m) ++ ws)%list /\
      Forall (writtenInLoop m i rest) ws;
  looped_unlinks : In UnlinkBatch (events m') -> In UnlinkBatch (events m);
  looped_count : (n <= length rest)%nat;
  looped_numbers : numbersOf (carried step) = (numbersOf results ++ take n rest)%list;
  looped_handled : handled (carried step) = (handled results + n)%nat;
  looped_success :
    match step with
    | Return r => success r = false
    | Next r | Throw _ r => success r = success results
    end;
  looped_cursor :
    match step with
    | Next _ => n = length rest /\
                (rest <> [] -> S (currentBatchIndex (stats m')) = (i + n)%nat)
    | Return _ => S (currentBatchIndex (stats m')) = (i + n)%nat /\ (1 <= n)%nat
    | Throw _ _ => currentBatchIndex (stats m') = (i + n)%nat /\ (n < length rest)%nat
    end;
  looped_file :
    rest <> [] -> currentBatch (stats m) <> [] ->
    batchesFile (files m') =
      Some (BatchFile.mk (currentBatch (stats m)) (currentBatchIndex (stats m'))
              (lastGroupId (stats m)));
  looped_nothing : rest = [] -> m' = m
}.

(** The index the loop of a submission starts from: the stored cursor
    when a batch is stored for this very group, 0 otherwise. *)
Definition startIndex (groupId : string) (s : SessionStats) : nat :=
  if (0 <? length (currentBatch s))%nat && bool_decide (lastGroupId s = Some groupId)
  then currentBatchIndex s
  else 0%nat.

(** A batch record written while the batch [numbers] is processed from
    a session object [s]. *)
Definition writtenInBatch (s : SessionStats) (numbers : list Item) (start : nat)
    (b : BatchFile.t) : Prop :=
  BatchFile.currentBatch b = numbers /\
  BatchFile.lastGroupId b = lastGroupId s /\
  (start <= BatchFile.currentBatchIndex b < length numbers)%nat.

(** What [processBatch] leaves behind, [r] being the results it reports
    and [start] the index its loop started from. *)
Record batchRun (numbers : list Item) (start : nat) (m : Machine)
    (r : Results) (m' : Machine) : Prop := mkBatchRun {
  run_flag : isAddingMembers (stats m') = false;
  run_numbers :
    exists n : nat,
      numbersOf r = take n (drop start numbers) /\ handled r = n /\
      (n <= length numbers - start)%nat;
  run_attempts :
    exists l : list Item,
      attemptsOf (events m') = (attemptsOf (events m) ++ l)%list /\
      sublist l (drop start numbers);
  run_writes :
    exists ws : list BatchFile.t,
      writesOf (events m') = (writesOf (events m) ++ ws)%list /\
      Forall (writtenInBatch (stats m) numbers start) ws;
  run_group :
    lastGroupId (stats m') = lastGroupId (stats m) \/ lastGroupId (stats m') = None;
  run_complete :
    success r = true ->
    numbersOf r = drop start numbers /\
    (numbers <> [] ->
     currentBatch (stats m') = [] /\
     currentBatchIndex (stats m') = 0%nat /\
     lastGroupId (stats m') = None /\
     batchesFile (files m') = None);
  run_paused :
    success r = false ->
    currentBatch (stats m') = numbers /\
    lastGroupId (stats m') = lastGroupId (stats m) /\
    (start <= currentBatchIndex (stats m') < length numbers)%nat /\
    batchesFile (files m') =
      Some (BatchFile.mk numbers (currentBatchIndex (stats m')) (lastGroupId (stats m)))
}.

(** The clean-up condition of [finishBatch]. *)
Definition batchDone (s : SessionStats) : bool :=
  (0 <? length (currentBatch s))%nat &&
  (Z.of_nat (length (currentBatch s)) - 1 <=? Z.of_nat (currentBatchIndex s)).


(** A refusal is the bare object. *)
Definition refusal (o : option Reply) : Prop :=
  match o with
  | Some (Report _) => False
  | _ => True
  end.


(** ** Quotas *)

(** [k] additions are left today, every hour has room for them, and the
    breaker is armed with a threshold above 0. *)
Record headroom (k : nat) (s : SessionStats) : Prop := mkHeadroom {
  headroom_daily : dailyLimit s - addedToday s = Z.of_nat k;
  headroom_hourly :
    forall (h : nat) (c : Z),
      hourlyAdditionCounts s !! h = Some c -> c + Z.of_nat k <= hourlyLimit s;
  headroom_armed : circuitBreakerTripped s = false;
  headroom_threshold : 0 < failureThreshold s
}.

(** Every call of [saveContactThenAdd] on an item of [items] returns. *)
Definition allAddsSucceed (env : Oracle) (groupId : string) (items : list Item)
  : Prop :=
  forall (number : Item) (m : Machine),
    In number items ->
    exists b : bool, fst (saveContactThenAdd env number groupId m) = Returned b.

Definition addedDetail (number : Item) : Detail.t :=
  Detail.mk number "added" "Successfully saved contact and added to group".

Definition skippedDetail (number : Item) : Detail.t :=
  Detail.mk number "skipped" "Daily limit reached".

(** The quota bounds of the specification. *)
Definition withinQuota (s : SessionStats) : Prop :=
  addedToday s <= dailyLimit s /\
  forall (h : nat) (c : Z),
    hourlyAdditionCounts s !! h = Some c -> c <= hourlyLimit s.

(** ** Triples *)

(** [hoare P c Q]: from a machine that satisfies [P], the computation
    [c] yields a value and a machine that satisfy [Q]. *)
Definition hoare {A : Type} (P : Machine -> Prop) (c : M A)
    (Q : A -> Machine -> Prop) : Prop :=
  forall m : Machine, P m -> Q (fst (c m)) (snd (c m)).

(** A property of the session object only. *)
Definition onStats (S : SessionStats -> Prop) : Machine -> Prop :=
  fun m => S (stats m).

(** The session object is unchanged. *)
Definition sameStats (m m' : Machine) : Prop := stats m' = stats m.

(** The results [r'] are the results [r] after the details [ds], [a]
    additions and [k] skips, and nothing else. *)
Record tally (ds : list Detail.t) (a k : nat) (r r' : Results) : Prop := mkTally {
  tally_details : details r' = (details r ++ ds)%list;
  tally_added : added r' = (added r + a)%nat;
  tally_skipped : skipped r' = (skipped r + k)%nat;
  tally_failed : failed r' = failed r;
  tally_success : success r' = success r;
  tally_message : message r' = message r
}.

(** The details of a batch whose first [k] items are added and whose
    other items are skipped for the daily limit. *)
Definition addedThenSkipped (k : nat) (items : list Item) : list Detail.t :=
  (map addedDetail (take k items) ++ map skippedDetail (drop k items))%list.

(** The counters and the limits of the quotas are unchanged. *)
Record sameQuota (m m' : Machine) : Prop := mkSameQuota {
  sameQuota_added : addedToday (stats m') = addedToday (stats m);
  sameQuota_daily : dailyLimit (stats m') = dailyLimit (stats m);
  sameQuota_counts : hourlyAdditionCounts (stats m') = hourlyAdditionCounts (stats m);
  sameQuota_hourly : hourlyLimit (stats m') = hourlyLimit (stats m)
}.

(** The session object is unchanged and the clock was not read. *)
Record sameClock (m m' : Machine) : Prop := mkSameClock {
  sameClock_stats : stats m' = stats m;
  sameClock_reads : clockReads m' = clockReads m
}.

(** The session object satisfies [S] and the clock was read [k] times. *)
Definition clocked (k : nat) (S : SessionStats -> Prop) : Machine -> Prop :=
  fun m => S (stats m) /\ clockReads m = k.

(** The daily bound, an hourly limit that is not negative and, when
    [G] holds, the hourly bounds. *)
Definition inQuota (G : Prop) (s : SessionStats) : Prop :=
  addedToday s <= dailyLimit s /\
  0 <= hourlyLimit s /\
  (G -> forall (h : nat) (c : Z),
          hourlyAdditionCounts s !! h = Some c -> c <= hourlyLimit s).

(** ** The rest of the storage service (storage.service.js) *)

Section Storage.

Variable env : Oracle.

(** [loadSessionStats], the stats file being readable when it exists.
    The fields of the record it reads have the types [saveSessionStats]
    writes, so that each [stats.field || default] is the field itself. *)
Definition loadSessionStats : M unit := fun m =>
  match statsFile (files m) with
  | None => (tt, m)
  | Some stats =>
      (let* today := newDate env in
       let* stats :=
         if negb (StatsFile.lastDateReset stats =? toDateString today) then
           let* today := newDate env in
           ret (StatsFile.mk 0 (toDateString today) (replicate 24 0)
                  (StatsFile.circuitBreakerTripped stats)
                  (StatsFile.circuitBreakerResetTime stats))
         else ret stats in
       assign (fun s =>
         set_circuitBreakerResetTime (StatsFile.circuitBreakerResetTime stats)
           (set_circuitBreakerTripped (StatsFile.circuitBreakerTripped stats)
              (set_hourlyAdditionCounts (StatsFile.hourlyAdditionCounts stats)
                 (set_lastDateReset (StatsFile.lastDateReset stats)
                    (set_addedToday (StatsFile.addedToday stats) s))))) ;;
       let* sessionStats := getSessionStats in
       match circuitBreakerTripped sessionStats,
             circuitBreakerResetTime sessionStats with
       | true, Some resetTime =>
           let* now := newDate env in
           when (resetTime <? now)
             (assign (fun s =>
                set_consecutiveFailures 0
                  (set_circuitBreakerResetTime None
                     (set_circuitBreakerTripped false s))))
       | _, _ => ret tt
       end) m
  end.

(** [loadFailedNumbers], the file being readable when it exists. *)
Definition loadFailedNumbers : M unit := fun m =>
  match failedNumbersFile (files m) with
  | Some failedNumbersData => assign (set_failedNumbers failedNumbersData) m
  | None => (tt, m)
  end.

(** [initializeDataStorage]: the directories are not modelled. *)
Definition initializeDataStorage : M SessionStats :=
  loadSessionStats ;;
  loadFailedNumbers ;;
  loadBatchData ;;
  getSessionStats.

End Storage.

(** [updateSessionStats(updates)]: [Object.assign] on the session object,
    then a save; [updates] is what the assignment does to the object. *)
Definition updateSessionStats (updates : SessionStats -> SessionStats) : M unit :=
  assign updates ;;
  saveSessionStats.

(** [clearFailedNumbers] *)
Definition clearFailedNumbers : M bool :=
  assign (set_failedNumbers ∅) ;;
  (fun m =>
     (tt, set_files (mkDisk (statsFile (files m)) None (batchesFile (files m))) m)) ;;
  ret true.

(** ** Invitation links (whatsapp.service.js) *)

(** A character of [[A-Za-z0-9_-]] *)
Definition isCodeChar (c : ascii) : bool :=
  let n := nat_of_ascii c in
  (((65 <=? n) && (n <=? 90)) || ((97 <=? n) && (n <=? 122)) ||
   ((48 <=? n) && (n <=? 57)) || (n =? 95) || (n =? 45))%nat.

(** The lower case of an ASCII letter; with the flag [i] a character of
    the pattern matches both cases of an ASCII letter and nothing outside
    ASCII. *)
Definition lowerAscii (c : ascii) : ascii :=
  let n := nat_of_ascii c in
  if ((65 <=? n) && (n <=? 90))%nat then ascii_of_nat (n + 32) else c.

(** [s] without the prefix [p], compared without case; [p] is in lower
    case. *)
Fixpoint dropPrefixNoCase (p s : string) : option string :=
  match p, s with
  | EmptyString, _ => Some s
  | String a p', String b s' =>
      if Ascii.eqb a (lowerAscii b) then dropPrefixNoCase p' s' else None
  | String _ _, EmptyString => None
  end.

(** The longest prefix matched by [[A-Za-z0-9_-]*] *)
Fixpoint takeCode (s : string) : string :=
  match s with
  | String c s' => if isCodeChar c then String c (takeCode s') else EmptyString
  | EmptyString => EmptyString
  end.

Fixpoint allCode (s : string) : bool :=
  match s with
  | String c s' => isCodeChar c && allCode s'
  | EmptyString => true
  end.

Definition startsWithCode (s : string) : bool :=
  match s with
  | String c _ => isCodeChar c
  | EmptyString => false
  end.

(** The match of the pattern at the start of [s] exactly. *)
Definition matchInviteCodeHere (s : string) : option string :=
  match dropPrefixNoCase "chat.whatsapp.com/" s with
  | Some rest => if startsWithCode rest then Some (takeCode rest) else None
  | None => None
  end.

(** [s.match(/chat\.whatsapp\.com\/([A-Za-z0-9_-]+)/i)]: the group
    captured by the leftmost match. *)
Fixpoint matchInviteCode (s : string) : option string :=
  match matchInviteCodeHere s with
  | Some code => Some code
  | None =>
      match s with
      | String _ s' => matchInviteCode s'
      | EmptyString => None
      end
  end.

(** [/^https?:\/\/chat\.whatsapp\.com\/[A-Za-z0-9_-]+$/i.test(s)] *)
Definition matchesInviteUrl (s : string) : bool :=
  match dropPrefixNoCase "http" s with
  | Some rest =>
      let rest :=
        match dropPrefixNoCase "s" rest with
        | Some rest' => rest'
        | None => rest
        end in
      match dropPrefixNoCase "://chat.whatsapp.com/" rest with
      | Some code => startsWithCode code && allCode code
      | None => false
      end
  | None => false
  end.

(** [isInvitationLink]: the empty string is falsy. *)
Definition isInvitationLink (input : string) : bool :=
  match input with
  | EmptyString => false
  | _ => let input := trim input in
         includes input "chat.whatsapp.com/" || matchesInviteUrl input
  end.

(** [extractInviteCode]: both branches make the same match. *)
Definition extractInviteCode (inviteLink : string) : option string :=
  match inviteLink with
  | EmptyString => None
  | _ =>
      let inviteLink := trim inviteLink in
      let fromUrl :=
        if String.prefix "http" inviteLink then matchInviteCode inviteLink
        else None in
      match fromUrl with
      | Some code => Some code
      | None => matchInviteCode inviteLink
      end
  end.

(** ** Joining a group by invitation *)

Module Chat.
Record t : Type := mk {
  isGroup : bool;
  timestamp : Z;
  name : string;
  serializedId : string
}.
End Chat.

Module InviteInfo.
Record t : Type := mk {
  groupName : option string;
  subject : option string;
  size : Z
}.
End InviteInfo.

(** The three calls of the client that [processGroupInvitation] makes,
    each answered by the number of client calls made before it:
    [getInviteInfo], [acceptInvite] (what matters of its result is whether
    it is truthy) and [getChats]. *)
Record InviteOracle : Type := mkInviteOracle {
  getInviteInfo : nat -> string -> Completion InviteInfo.t;
  acceptInvite : nat -> string -> Completion bool;
  getChats : nat -> Completion (list Chat.t)
}.

(** One of these calls: a read of the oracle, counted as a client call. *)
Definition ask {A : Type} (answer : nat -> Completion A) : M (Completion A) :=
  fun m =>
    (answer (clientCalls m),
     mkMachine (stats m) (files m) (clockReads m) (randomDraws m)
       (S (clientCalls m)) (events m)).

(** [inviteInfo.groupName || inviteInfo.subject] *)
Definition inviteName (info : InviteInfo.t) : option string :=
  match InviteInfo.groupName info with
  | Some (String _ _ as n) => Some n
  | _ => InviteInfo.subject info
  end.

(** a string that is there and not empty *)
Definition truthy (s : option string) : bool :=
  match s with
  | Some (String _ _) => true
  | _ => false
  end.

(** [l.sort((a, b) => b.timestamp - a.timestamp)]: the sort is stable,
    so a chat goes after the chats already placed that are as recent as it
    is. *)
Fixpoint insertByRecent (c : Chat.t) (l : list Chat.t) : list Chat.t :=
  match l with
  | [] => [c]
  | d :: l' =>
      if Chat.timestamp d <? Chat.timestamp c then c :: l
      else d :: insertByRecent c l'
  end.

Definition sortByRecent (l : list Chat.t) : list Chat.t :=
  fold_left (fun sorted c => insertByRecent c sorted) l [].

Section Invitation.

Variable env : Oracle.
Variable inv : InviteOracle.

(** The groups joined in the last two minutes: [Date.now()] is read for
    each chat that is a group.  The timestamps are seconds on the scale of
    the clock. *)
Fixpoint recentGroupsOf (chats : list Chat.t) : M (list Chat.t) :=
  match chats with
  | [] => ret []
  | chat :: chats' =>
      if Chat.isGroup chat then
        let* now := newDate env in
        let* others := recentGroupsOf chats' in
        ret (if now - 120000 <? Chat.timestamp chat * 1000
             then chat :: others else others)
      else recentGroupsOf chats'
  end.

(** The choice of the group that was joined, among the chats. *)
Definition chooseJoinedGroup (groupInfo : option InviteInfo.t)
    (chats recentGroups : list Chat.t) : option Chat.t :=
  let matchedByName :=
    match groupInfo with
    | Some info =>
        if truthy (inviteName info) then
          Some (filter (fun chat =>
                  Chat.isGroup chat = true /\ Some (Chat.name chat) = inviteName info)
                  chats)
        else None
    | None => None
    end in
  let allGroups := sortByRecent (filter (fun chat => Chat.isGroup chat = true) chats) in
  match recentGroups with
  | _ :: _ => head (sortByRecent recentGroups)
  | [] =>
      match matchedByName with
      | Some (group :: _) => Some group
      | _ => head allGroups
      end
  end.

Definition invitationError (err : JsError) : Reply :=
  Rejected ("Error processing invitation: " ++ messageText err ++
            ". This may be a temporary issue - please try again or contact support if the problem persists.").

Definition processGroupInvitation (inviteLink : string) (numbers : list Item)
    (message : string) : M Reply :=
  match extractInviteCode inviteLink with
  | None =>
      ret (Rejected "Invalid invitation link format. Could not extract invitation code.")
  | Some inviteCode =>
      let* info := ask (fun n => getInviteInfo inv n inviteCode) in
      let groupInfo :=
        match info with
        | Returned inviteInfo => Some inviteInfo
        | Thrown _ => None
        end in
      let* joined := ask (fun n => acceptInvite inv n inviteCode) in
      match joined with
      | Thrown err => ret (invitationError err)
      | Returned joinResult =>
          if negb joinResult then
            ret (Rejected "Failed to join the group. The invitation may be invalid or expired.")
          else
            sleep 10000 ;;
            let* answer := ask (getChats inv) in
            match answer with
            | Thrown err => ret (invitationError err)
            | Returned chats =>
                let* recentGroups := recentGroupsOf chats in
                match chooseJoinedGroup groupInfo chats recentGroups with
                | None =>
                    ret (Rejected "Joined the group but could not identify it in your chats. The members will be added once you open this group in WhatsApp.")
                | Some joinedGroup =>
                    addMembersToGroup env (Chat.serializedId joinedGroup)
                      numbers message
                end
            end
      end
  end.

(** [processGroupAddition]: a link, a group identifier, or a guess. *)
Definition processGroupAddition (groupIdOrLink : string) (numbers : list Item)
    (message : string) : M Reply :=
  if isInvitationLink groupIdOrLink then
    processGroupInvitation groupIdOrLink numbers message
  else if isGroupId groupIdOrLink then
    addMembersToGroup env groupIdOrLink numbers message
  else if includes groupIdOrLink "chat.whatsapp.com" then
    processGroupInvitation groupIdOrLink numbers message
  else addMembersToGroup env groupIdOrLink numbers message.

End Invitation.

(** ** The routes (api.routes.js) *)

(** What a handler sends: the status code and the body. *)
Record Http (A : Type) : Type := mkHttp {
  httpStatus : nat;
  httpBody : A
}.
Arguments mkHttp {A} httpStatus httpBody.
Arguments httpStatus {A} h.
Arguments httpBody {A} h.

(** The body of [POST /api/config], once parsed: the fields that were
    sent, the numbers as integers and the flag as a boolean. *)
Record ConfigBody : Type := mkConfigBody {
  bodyDailyLimit : option Z;
  bodyHourlyLimit : option Z;
  bodyMaxBatchSize : option Z;
  bodyMinDelay : option Z;
  bodyMaxDelay : option Z;
  bodyPatternVariation : option bool
}.

(** [body(field).optional().isInt({ min, max })] *)
Definition optionalIntIn (lo hi : Z) (field : option Z) : bool :=
  match field with
  | Some v => (lo <=? v) && (v <=? hi)
  | None => true
  end.

(** The validators of [POST /api/config]: no error. *)
Definition configAccepted (body : ConfigBody) : bool :=
  optionalIntIn 1 50000 (bodyDailyLimit body) &&
  optionalIntIn 1 5000 (bodyHourlyLimit body) &&
  optionalIntIn 10 5000 (bodyMaxBatchSize body) &&
  optionalIntIn 10 300 (bodyMinDelay body) &&
  optionalIntIn 20 600 (bodyMaxDelay body).

(** [if (req.body.field) updates.field = parseInt(req.body.field)]: the
    field of [updates], absent when the number sent is absent or 0. *)
Definition provided (field : option Z) : option Z :=
  match field with
  | Some 0 => None
  | _ => field
  end.

Definition orElse {A : Type} (update : option A) (current : A) : A :=
  match update with
  | Some v => v
  | None => current
  end.

(** [Object.assign(sessionStats, updates)] for the updates of the
    configuration. *)
Definition applyConfig (body : ConfigBody) (s : SessionStats) : SessionStats :=
  mkSessionStats (addedToday s) (lastDateReset s) (hourlyAdditionCounts s)
    (circuitBreakerTripped s) (circuitBreakerResetTime s) (isAddingMembers s)
    (userStatus s) (consecutiveFailures s) (failedNumbers s) (currentBatch s)
    (currentBatchIndex s) (lastGroupId s)
    (orElse (provided (bodyMinDelay body)) (minDelay s))
    (orElse (provided (bodyMaxDelay body)) (maxDelay s))
    (orElse (provided (bodyDailyLimit body)) (dailyLimit s))
    (orElse (provided (bodyMaxBatchSize body)) (maxBatchSize s))
    (pauseAfterBatch s) (batchCooldown s) (failureThreshold s)
    (circuitBreakerTimeout s)
    (orElse (provided (bodyHourlyLimit body)) (hourlyLimit s))
    (orElse (bodyPatternVariation body) (patternVariation s)).

(** The configuration a reply of [POST /api/config] shows. *)
Record ConfigShown : Type := mkConfigShown {
  shownDailyLimit : Z;
  shownHourlyLimit : Z;
  shownMaxBatchSize : Z;
  shownMinDelay : Z;
  shownMaxDelay : Z;
  shownPatternVariation : bool
}.

Inductive ConfigReply : Type :=
  | ConfigRefused (message : string)
  | ConfigUpdated (config : ConfigShown).

(** The check of the two delays against each other: [true] when the
    update is refused. *)
Definition delaysRefused (body : ConfigBody) (s : SessionStats) : bool :=
  match provided (bodyMinDelay body), provided (bodyMaxDelay body) with
  | Some newMin, Some newMax => newMax <=? newMin
  | Some newMin, None => maxDelay s <=? newMin
  | None, Some newMax => newMax <=? minDelay s
  | None, None => false
  end.

(** The body of the reply of [GET /api/status]; a field of the array of
    hourly counts is [None] when the array has no such index. *)
Record StatusBody : Type := mkStatusBody {
  statusClientReady : bool;
  statusDailyLimit : Z;
  statusAddedToday : Z;
  statusRemaining : Z;
  statusHourlyLimit : Z;
  statusHourlyAdded : option Z;
  statusHourlyRemaining : option Z;
  statusStatus : string;
  statusProtectionMode : bool;
  statusProtectionResetTime : option Z;
  statusCurrentBatchSize : nat;
  statusCurrentBatchProgress : nat;
  statusConsecutiveFailures : Z
}.

(** The reset of the breaker that [GET /api/status] and the fallback of
    [POST /api/reset-protection] hand to [updateSessionStats]. *)
Definition protectionOff (s : SessionStats) : SessionStats :=
  set_consecutiveFailures 0
    (set_circuitBreakerResetTime None (set_circuitBreakerTripped false s)).

Section Routes.

Variable env : Oracle.
Variable inv : InviteOracle.

(** [GET /api/status]; [clientReady] is [whatsappClient.info !==
    undefined].  The session object is read after the reset, the object
    the handler holds being the one that [updateSessionStats] changes. *)
Definition getStatus (clientReady : bool) : M (Http StatusBody) :=
  let* sessionStats := getSessionStats in
  let* d := newDate env in
  let currentHour := Z.to_nat (getHours d) in
  match circuitBreakerTripped sessionStats,
        circuitBreakerResetTime sessionStats with
  | true, Some resetTime =>
      let* now := newDate env in
      when (resetTime <? now) (updateSessionStats protectionOff)
  | _, _ => ret tt
  end ;;
  let* s := getSessionStats in
  let hourlyAdded := hourlyAdditionCounts s !! currentHour in
  ret (mkHttp 200
         (mkStatusBody clientReady (dailyLimit s) (addedToday s)
            (Z.max 0 (dailyLimit s - addedToday s))
            (hourlyLimit s) hourlyAdded
            (option_map (fun c => Z.max 0 (hourlyLimit s - c)) hourlyAdded)
            (userStatus s) (circuitBreakerTripped s) (circuitBreakerResetTime s)
            (length (currentBatch s)) (currentBatchIndex s)
            (consecutiveFailures s))).

(** [POST /api/reset-protection]: the client has its
    [resetCircuitBreaker]. *)
Definition postResetProtection : M (Http string) :=
  resetCircuitBreaker ;;
  ret (mkHttp 200 "Protection mode disabled").

(** [POST /api/add-members], from the check of the connection on, the
    validators having found no error; [connected] is [whatsappClient.info
    || global.whatsappAuthenticated]. *)
Definition postAddMembers (connected : bool) (groupId : string)
    (numbers : list Item) (message : string) : M (Http Reply) :=
  if negb connected then
    ret (mkHttp 503 (Rejected "WhatsApp not connected. Please scan the QR code first."))
  else if negb (isGroupId groupId) && negb (isInvitationLink groupId) then
    ret (mkHttp 400 (Rejected "Invalid group ID or invitation link format"))
  else if (length numbers =? 0)%nat then
    ret (mkHttp 400 (Rejected "No phone numbers provided"))
  else
    let* result := processGroupAddition env inv groupId numbers message in
    ret (mkHttp 200 result).

(** [POST /api/resume-batch] *)
Definition postResumeBatch : M (Http Reply) :=
  let* sessionStats := getSessionStats in
  if isAddingMembers sessionStats then
    ret (mkHttp 409 (Rejected "Already adding members to a group"))
  else
    match currentBatch sessionStats, lastGroupId sessionStats with
    | _ :: _, Some (String _ _ as groupId) =>
        let* result :=
          processGroupAddition env inv groupId (currentBatch sessionStats) "" in
        ret (mkHttp 200 result)
    | _, _ => ret (mkHttp 404 (Rejected "No interrupted batch found to resume"))
    end.

(** [POST /api/clear-failed-numbers] *)
Definition postClearFailedNumbers : M (Http string) :=
  clearFailedNumbers ;;
  ret (mkHttp 200 "Failed numbers list cleared").

(** [io.broadcastStats(stats)] of the socket service: on the machine,
    one reading of the clock, for the hour whose count it sends. *)
Definition broadcastStats : M unit :=
  let* _ := newDate env in
  ret tt.

(** [POST /api/config] *)
Definition postConfig (body : ConfigBody) : M (Http ConfigReply) :=
  if negb (configAccepted body) then
    ret (mkHttp 400 (ConfigRefused "Validation error"))
  else
    let* sessionStats := getSessionStats in
    if delaysRefused body sessionStats then
      ret (mkHttp 400 (ConfigRefused "Minimum delay must be less than maximum delay"))
    else
      updateSessionStats (applyConfig body) ;;
      broadcastStats ;;
      let* s := getSessionStats in
      ret (mkHttp 200
             (ConfigUpdated
                (mkConfigShown (dailyLimit s) (hourlyLimit s) (maxBatchSize s)
                   (minDelay s) (maxDelay s) (patternVariation s)))).

(** A request, and the requests of a session served one after the
    other. *)
Inductive Request : Type :=
  | GetStatus (clientReady : bool)
  | PostResetProtection
  | PostAddMembers (connected : bool) (groupId : string) (numbers : list Item)
      (message : string)
  | PostResumeBatch
  | PostClearFailedNumbers
  | PostConfig (body : ConfigBody).

Inductive Answer : Type :=
  | StatusAnswer (reply : Http StatusBody)
  | NoteAnswer (reply : Http string)
  | BatchAnswer (reply : Http Reply)
  | ConfigAnswer (reply : Http ConfigReply).

Definition handle (request : Request) : M Answer :=
  match request with
  | GetStatus clientReady =>
      let* reply := getStatus clientReady in ret (StatusAnswer reply)
  | PostResetProtection =>
      let* reply := postResetProtection in ret (NoteAnswer reply)
  | PostAddMembers connected groupId numbers message =>
      let* reply := postAddMembers connected groupId numbers message in
      ret (BatchAnswer reply)
  | PostResumeBatch =>
      let* reply := postResumeBatch in ret (BatchAnswer reply)
  | PostClearFailedNumbers =>
      let* reply := postClearFailedNumbers in ret (NoteAnswer reply)
  | PostConfig body =>
      let* reply := postConfig body in ret (ConfigAnswer reply)
  end.

Fixpoint serve (requests : list Request) : M (list Answer) :=
  match requests with
  | [] => ret []
  | request :: requests' =>
      let* answer := handle request in
      let* answers := serve requests' in
      ret (answer :: answers)
  end.

End Routes.

(** ** More observations *)

(** The calls made on the client, in order. *)
Fixpoint callsOf (es : list Event) : list ClientCall :=
  match es with
  | [] => []
  | Called c :: es' => callsOf es' ++ [c]
  | _ :: es' => callsOf es'
  end.

(** The time slept in all. *)
Definition totalSleep (ws : list Q) : Q := fold_right Qplus 0%Q ws.

(** A wait before a retry: 2 or 5 seconds. *)
Definition isRetryWait (w : Q) : Prop := w = 2000%Q \/ w = 5000%Q.

(** What a retry loop leaves behind after [n] calls, all of them the
    call [c]: the session object, the disk, the clock and the random
    source are untouched, and each call is followed by at most one wait. *)
Record talked (c : ClientCall) (n : nat) (m m' : Machine) : Prop := mkTalked {
  talked_stats : stats m' = stats m;
  talked_files : files m' = files m;
  talked_clock : clockReads m' = clockReads m;
  talked_draws : randomDraws m' = randomDraws m;
  talked_count : clientCalls m' = (clientCalls m + n)%nat;
  talked_calls : callsOf (events m') = (callsOf (events m) ++ replicate n c)%list;
  talked_attempts : attemptsOf (events m') = attemptsOf (events m);
  talked_sleeps :
    exists ws : list Q,
      sleepsOf (events m') = (sleepsOf (events m) ++ ws)%list /\
      (length ws <= n)%nat /\ Forall isRetryWait ws
}.

(** The pause between the save of the contact and the addition: half a
    second to two seconds, by one draw. *)
Definition humanPause (env : Oracle) : M unit :=
  let* r := mathRandom env in
  sleep (inject_Z (500 + Qfloor (r * 1500)%Q)).


(** No group is stored: none in the session object, none in the batch
    file. *)
Definition noStoredGroup (m : Machine) : Prop :=
  lastGroupId (stats m) = None /\
  forall b : BatchFile.t,
    batchesFile (files m) = Some b -> BatchFile.lastGroupId b = None.

(** An answer of [POST /api/resume-batch] that resumed nothing. *)
Definition notResumed (answer : Answer) : Prop :=
  answer = BatchAnswer (mkHttp 409 (Rejected "Already adding members to a group")) \/
  answer = BatchAnswer (mkHttp 404 (Rejected "No interrupted batch found to resume")).

(** The settings of the session object: the fields that no file holds. *)
Definition settingsOf (s : SessionStats)
  : Z * Z * Z * Z * Z * Z * Z * Z * Z * bool :=
  (minDelay s, maxDelay s, dailyLimit s, maxBatchSize s, pauseAfterBatch s,
   batchCooldown s, failureThreshold s, circuitBreakerTimeout s, hourlyLimit s,
   patternVariation s).

Definition sameSettings (m m' : Machine) : Prop :=
  settingsOf (stats m') = settingsOf (stats m).

(** The five numbers of the configuration are in the ranges of the
    validators of [POST /api/config], and the delays are in order. *)
Definition validSettings (s : SessionStats) : Prop :=
  1 <= dailyLimit s <= 50000 /\
  1 <= hourlyLimit s <= 5000 /\
  10 <= maxBatchSize s <= 5000 /\
  10 <= minDelay s <= 300 /\
  20 <= maxDelay s <= 600 /\
  minDelay s < maxDelay s.

(** The answer to a request that is not [POST /api/config], or to one
    that was refused. *)
Definition configKept (request : Request) (answer : Answer) : Prop :=
  match request, answer with
  | PostConfig _, ConfigAnswer (mkHttp 200 _) => False
  | _, _ => True
  end.

(** The greetings sent: the calls of [sendMessage], in order, each with
    its group and its text. *)
Fixpoint greetingsOf (es : list Event) : list (string * string) :=
  match es with
  | [] => []
  | Called (sendMessage groupId text) :: es' => greetingsOf es' ++ [(groupId, text)]
  | _ :: es' => greetingsOf es'
  end.

Definition sameGreetings (m m' : Machine) : Prop :=
  greetingsOf (events m') = greetingsOf (events m).

Definition isGreeting (c : ClientCall) : bool :=
  match c with
  | sendMessage _ _ => true
  | _ => false
  end.

(** ** More worlds and session objects, for the examples *)

(** A client on which no invitation can be read or accepted, and with
    no chat. *)
Definition closedDoor : InviteOracle :=
  mkInviteOracle (fun _ _ => Thrown (newError "invite not found"))
                 (fun _ _ => Returned false)
                 (fun _ => Returned []).

(** A client on which every invitation is accepted, the account being
    in one group, [exampleGroup], last active at the start of the clock of
    [calmWorld]. *)
Definition openDoor : InviteOracle :=
  mkInviteOracle (fun _ _ => Returned (InviteInfo.mk None None 3))
                 (fun _ _ => Returned true)
                 (fun _ => Returned [Chat.mk true 1000000 "friends" exampleGroup]).

Definition exampleLink : string := "https://chat.whatsapp.com/AbCdEf123".

(** A session in the middle of a submission. *)
Definition busyStats : SessionStats :=
  set_userStatus "adding" (set_isAddingMembers true defaultStats).

(** The machine of a new process on the files [saved] leaves when it
    saves its session. *)
Definition restartOf (saved : Machine) : Machine :=
  mkMachine defaultStats (files (writeFiles saved)) 0 0 0 [].

(** A session with a breaker tripped and a batch stopped at index 2. *)
Definition stoppedStats : SessionStats :=
  set_currentBatchIndex 2
    (set_currentBatch fourItems (set_addedToday 120 trippedStats)).

(** A session of the day before, its breaker due for a reset. *)
Definition yesterdayStats : SessionStats :=
  set_lastDateReset 10
    (set_addedToday 120
       (set_circuitBreakerResetTime (Some 999000000)
          (set_circuitBreakerTripped true defaultStats))).

(** The machine of a new process that finds the batch file of a batch
    stopped at index 2. *)
Definition stoppedBatchMachine : Machine :=
  mkMachine defaultStats
    (mkDisk None None (Some (BatchFile.mk fourItems 2 None))) 0 0 0 [].


(** Updates of the configuration: a minimum delay above the maximum in
    force, and both delays raised together. *)
Definition minDelayOnly : ConfigBody :=
  mkConfigBody None None None (Some 100) None None.

Definition bothDelays : ConfigBody :=
  mkConfigBody None None None (Some 100) (Some 200) None.

(** * Properties *)

(** ** Arithmetic of dates *)

Lemma Qtrunc_inject_Z (z : Z) : Qtrunc (inject_Z z) = z.
Proof.
  unfold Qtrunc. destruct (Qle_bool 0 (inject_Z z)).
  - apply Qfloor_Z.
  - apply Qceiling_Z.
Qed.

Lemma addSeconds_whole (d seconds : Z) :
  addSeconds d (inject_Z seconds) = d + seconds * 1000.
Proof.
  unfold addSeconds, setSeconds.
  rewrite <- inject_Z_plus, Qtrunc_inject_Z. unfold msPerSecond. lia.
Qed.

Lemma getHours_range (d : Z) : 0 <= getHours d < 24.
Proof. unfold getHours. apply Z.mod_pos_bound. lia. Qed.

(** ** Running the machine symbolically *)

(** Unfolds the plumbing of the monad and the projections of the
    records, and nothing of the arithmetic. *)
Ltac run :=
  repeat progress
    (cbv beta iota zeta delta
       [bind ret getSessionStats assign sleep when emit set_stats set_files
        mathRandom newDate call saveSessionStats clearBatchData fst snd];
     cbn beta iota zeta delta
       [andb orb negb stats files clockReads randomDraws clientCalls events
        addedToday lastDateReset hourlyAdditionCounts circuitBreakerTripped
        circuitBreakerResetTime isAddingMembers userStatus consecutiveFailures
        failedNumbers currentBatch currentBatchIndex lastGroupId minDelay maxDelay
        dailyLimit maxBatchSize pauseAfterBatch batchCooldown failureThreshold
        circuitBreakerTimeout hourlyLimit patternVariation
        set_addedToday set_lastDateReset set_hourlyAdditionCounts
        set_circuitBreakerTripped set_circuitBreakerResetTime set_isAddingMembers
        set_userStatus set_consecutiveFailures set_failedNumbers set_currentBatch
        set_currentBatchIndex set_lastGroupId]).

Ltac run_in H :=
  repeat progress
    (cbv beta iota zeta delta
       [bind ret getSessionStats assign sleep when emit set_stats set_files
        mathRandom newDate call saveSessionStats clearBatchData fst snd] in H;
     cbn beta iota zeta delta
       [andb orb negb stats files clockReads randomDraws clientCalls events
        addedToday lastDateReset hourlyAdditionCounts circuitBreakerTripped
        circuitBreakerResetTime isAddingMembers userStatus consecutiveFailures
        failedNumbers currentBatch currentBatchIndex lastGroupId minDelay maxDelay
        dailyLimit maxBatchSize pauseAfterBatch batchCooldown failureThreshold
        circuitBreakerTimeout hourlyLimit patternVariation
        set_addedToday set_lastDateReset set_hourlyAdditionCounts
        set_circuitBreakerTripped set_circuitBreakerResetTime set_isAddingMembers
        set_userStatus set_consecutiveFailures set_failedNumbers set_currentBatch
        set_currentBatchIndex set_lastGroupId] in H).

(** ** What persistence leaves alone *)

Lemma stats_writeFiles (m : Machine) : stats (writeFiles m) = stats m.
Proof. unfold writeFiles. destruct (currentBatch (stats m)); reflexivity. Qed.

Lemma clockReads_writeFiles (m : Machine) :
  clockReads (writeFiles m) = clockReads m.
Proof. unfold writeFiles. destruct (currentBatch (stats m)); reflexivity. Qed.

Lemma randomDraws_writeFiles (m : Machine) :
  randomDraws (writeFiles m) = randomDraws m.
Proof. unfold writeFiles. destruct (currentBatch (stats m)); reflexivity. Qed.

Lemma clientCalls_writeFiles (m : Machine) :
  clientCalls (writeFiles m) = clientCalls m.
Proof. unfold writeFiles. destruct (currentBatch (stats m)); reflexivity. Qed.

Lemma stats_unlinkBatchFile (m : Machine) : stats (unlinkBatchFile m) = stats m.
Proof. unfold unlinkBatchFile. destruct (batchesFile (files m)); reflexivity. Qed.

Lemma batchesFile_unlinkBatchFile (m : Machine) :
  batchesFile (files (unlinkBatchFile m)) = None.
Proof.
  unfold unlinkBatchFile. destruct (batchesFile (files m)) eqn:H; [reflexivity|exact H].
Qed.

(** The batch record on disk after a save: rewritten from the session
    object while a batch is in memory, left as it was otherwise. *)
Lemma batchesFile_writeFiles (m : Machine) :
  batchesFile (files (writeFiles m)) =
    match currentBatch (stats m) with
    | [] => batchesFile (files m)
    | _ :: _ =>
        Some (BatchFile.mk (currentBatch (stats m)) (currentBatchIndex (stats m))
                (lastGroupId (stats m)))
    end.
Proof. unfold writeFiles. destruct (currentBatch (stats m)); reflexivity. Qed.

Create Rewrite HintDb machine.
#[global] Hint Rewrite stats_writeFiles clockReads_writeFiles
  randomDraws_writeFiles clientCalls_writeFiles stats_unlinkBatchFile
  batchesFile_unlinkBatchFile : machine.

#[global] Arguments writeFiles : simpl never.
#[global] Arguments unlinkBatchFile : simpl never.

(** ** The circuit breaker *)

Section CircuitBreaker.

Variable env : Oracle.

Lemma checkCircuitBreaker_armed (m : Machine) :
  circuitBreakerTripped (stats m) = false ->
  (fst (checkCircuitBreaker env m) = true <->
     failureThreshold (stats m) <= consecutiveFailures (stats m)) /\
  (fst (checkCircuitBreaker env m) = true ->
     let s' := stats (snd (checkCircuitBreaker env m)) in
     circuitBreakerTripped s' = true /\
     circuitBreakerResetTime s' =
       Some (nextReading env m + circuitBreakerTimeout (stats m) * 1000) /\
     consecutiveFailures s' = consecutiveFailures (stats m)) /\
  (fst (checkCircuitBreaker env m) = false ->
     snd (checkCircuitBreaker env m) = m).
Proof.
  intros Harmed.
  unfold checkCircuitBreaker, bind, getSessionStats. rewrite Harmed.
  destruct (failureThreshold (stats m) <=? consecutiveFailures (stats m)) eqn:Hcmp;
    cbn.
  - apply Z.leb_le in Hcmp. autorewrite with machine. cbn.
    rewrite addSeconds_whole. unfold nextReading.
    repeat split; auto; discriminate.
  - apply Z.leb_gt in Hcmp.
    repeat split; try discriminate; auto. intros H. lia.
Qed.

Lemma checkCircuitBreaker_tripped (m : Machine) :
  circuitBreakerTripped (stats m) = true ->
  (fst (checkCircuitBreaker env m) = false <->
     dateOf (circuitBreakerResetTime (stats m)) < nextReading env m) /\
  (fst (checkCircuitBreaker env m) = false ->
     let s' := stats (snd (checkCircuitBreaker env m)) in
     circuitBreakerTripped s' = false /\
     circuitBreakerResetTime s' = None /\
     consecutiveFailures s' = 0) /\
  (fst (checkCircuitBreaker env m) = true ->
     stats (snd (checkCircuitBreaker env m)) = stats m /\
     files (snd (checkCircuitBreaker env m)) = files m).
Proof.
  intros Htripped.
  unfold checkCircuitBreaker, bind, getSessionStats, nextReading.
  rewrite Htripped. cbn.
  destruct (dateOf (circuitBreakerResetTime (stats m)) <? clock env (clockReads m))
    eqn:Hcmp.
  - apply Z.ltb_lt in Hcmp.
    unfold resetCircuitBreaker, bind, assign, saveSessionStats. cbn.
    autorewrite with machine. cbn.
    repeat split; auto; discriminate.
  - apply Z.ltb_ge in Hcmp. cbn.
    repeat split; try discriminate; auto. intros H. lia.
Qed.


End CircuitBreaker.



(** ** The delay scheduler *)

Lemma Qfloor_between (x : Q) (a b : Z) :
  (inject_Z a <= x)%Q -> (x < inject_Z b)%Q -> a <= Qfloor x < b.
Proof.
  intros Hlo Hhi. split.
  - rewrite <- (Qfloor_Z a). apply Qfloor_resp_le. exact Hlo.
  - rewrite Zlt_Qlt. eapply Qle_lt_trans; [apply Qfloor_le | exact Hhi].
Qed.















(** ** Frames: what a computation leaves alone *)

Lemma attemptsOf_app (es1 es2 : list Event) :
  attemptsOf (es1 ++ es2) = (attemptsOf es2 ++ attemptsOf es1)%list.
Proof.
  induction es1 as [|e es1 IH]; cbn.
  - rewrite app_nil_r. reflexivity.
  - destruct e; rewrite IH; try reflexivity. rewrite app_assoc. reflexivity.
Qed.

#[global] Instance sameSession_preorder : PreOrder sameSession.
Proof.
  split.
  - intros m. split; auto.
  - intros m1 m2 m3 [] []. split; try congruence. auto.
Qed.

#[global] Instance quiet_preorder : PreOrder quiet.
Proof.
  split.
  - intros m. split; auto. exists 0%nat. cbn. rewrite app_nil_r. reflexivity.
  - intros m1 m2 m3 [Hb Hi Hg Hf Ha [k Hw] Hu] [Hb' Hi' Hg' Hf' Ha' [k' Hw'] Hu'].
    assert (Hrec : batchRecord (stats m2) = batchRecord (stats m1))
      by (unfold batchRecord; congruence).
    split; try congruence.
    + destruct Hf' as [Hf'|Hf']; [destruct Hf as [Hf|Hf]|].
      * left. congruence.
      * right. congruence.
      * right. congruence.
    + exists (k + k')%nat. rewrite Hw', Hw, Hrec, <- app_assoc.
      rewrite replicate_add. reflexivity.
    + auto.
Qed.

Lemma sameSession_quiet (m m' : Machine) : sameSession m m' -> quiet m m'.
Proof.
  intros [Hs Hf Ha Hw Hu].
  split; [congruence | congruence | congruence | left; congruence | congruence
         | | exact Hu].
  exists 0%nat. cbn. rewrite app_nil_r. exact Hw.
Qed.

Section Stays.

Context {R : Machine -> Machine -> Prop} `{!PreOrder R}.

Lemma stays_ret {A : Type} (a : A) : stays R (ret a).
Proof. intros m. reflexivity. Qed.

Lemma stays_bind {A B : Type} (c : M A) (k : A -> M B) :
  stays R c -> (forall a : A, stays R (k a)) -> stays R (bind c k).
Proof.
  intros Hc Hk m. unfold bind.
  specialize (Hc m). destruct (c m) as [a m1]. cbn in Hc.
  etransitivity; [exact Hc | apply Hk].
Qed.

Lemma stays_when (c : bool) (k : M unit) : stays R k -> stays R (when c k).
Proof. intros Hk. destruct c; [exact Hk | apply stays_ret]. Qed.

End Stays.

Lemma stays_sameSession_quiet {A : Type} (c : M A) :
  stays sameSession c -> stays quiet c.
Proof. intros H m. apply sameSession_quiet, H. Qed.

(** The primitives. *)

Lemma stays_getSessionStats : stays sameSession getSessionStats.
Proof. intros m. reflexivity. Qed.

Lemma stays_newDate (env : Oracle) : stays sameSession (newDate env).
Proof. intros m. split; auto. Qed.

Lemma stays_mathRandom (env : Oracle) : stays sameSession (mathRandom env).
Proof. intros m. split; auto. Qed.

Lemma stays_call (env : Oracle) (c : ClientCall) : stays sameSession (call env c).
Proof.
  intros m. split; auto. cbn. intros [H|H]; [discriminate | exact H].
Qed.

Lemma stays_sleep (ms : Q) : stays sameSession (sleep ms).
Proof.
  intros m. split; auto. cbn. intros [H|H]; [discriminate | exact H].
Qed.

Lemma quiet_writeFiles (m : Machine) : quiet m (writeFiles m).
Proof.
  unfold writeFiles. destruct (currentBatch (stats m)) eqn:Hbatch.
  - split; auto. exists 0%nat. cbn. rewrite app_nil_r. reflexivity.
  - split; auto.
    + right. cbn. unfold batchRecord. rewrite Hbatch. reflexivity.
    + exists 1%nat. cbn. unfold batchRecord. rewrite Hbatch. reflexivity.
    + cbn. intros [H|H]; [discriminate | exact H].
Qed.

Lemma stays_saveSessionStats : stays quiet saveSessionStats.
Proof. intros m. apply quiet_writeFiles. Qed.

(** An assignment that does not touch the three fields of the batch. *)
Lemma stays_assign (f : SessionStats -> SessionStats) :
  (forall s, currentBatch (f s) = currentBatch s) ->
  (forall s, currentBatchIndex (f s) = currentBatchIndex s) ->
  (forall s, lastGroupId (f s) = lastGroupId s) ->
  stays quiet (assign f).
Proof.
  intros Hb Hi Hg m. split; cbn; auto.
  exists 0%nat. cbn. rewrite app_nil_r. reflexivity.
Qed.

Create HintDb stays.
#[global] Hint Resolve stays_getSessionStats stays_newDate stays_mathRandom
  stays_call stays_sleep stays_saveSessionStats : stays.

(** Walks a computation along its binds and branches. *)
Ltac walk :=
  repeat first
    [ solve [ eauto 3 with stays ]
    | apply stays_ret
    | apply stays_when
    | apply stays_bind; [ | intros ? ]
    | apply stays_sameSession_quiet; solve [ eauto 3 with stays ]
    | apply stays_assign; intros ?;
      repeat (match goal with
              | |- context [match ?x with _ => _ end] => destruct x
              end);
      reflexivity
    | match goal with
      | |- stays _ (if ?c then _ else _) => destruct c
      | |- stays _ (match ?x with _ => _ end) => destruct x
      end ].

Section ServiceFrames.

Variable env : Oracle.

Lemma stays_checkHourlyLimit : stays sameSession (checkHourlyLimit env).
Proof. unfold checkHourlyLimit. walk. Qed.

Lemma stays_getSmartDelay : stays sameSession (getSmartDelay env).
Proof. unfold getSmartDelay. walk. Qed.

Lemma stays_checkRegistered (left : nat) (formattedNumber : string) :
  stays sameSession (checkRegistered env left formattedNumber).
Proof.
  induction left as [|left IH]; cbn [checkRegistered]; walk.
Qed.

Lemma stays_fetchContact (left : nat) (formattedNumber : string) :
  stays sameSession (fetchContact env left formattedNumber).
Proof.
  induction left as [|left IH]; cbn [fetchContact]; walk.
Qed.

Lemma stays_addWithRetry (left : nat) (groupId formattedNumber : string) :
  stays sameSession (addWithRetry env left groupId formattedNumber).
Proof.
  induction left as [|left IH]; cbn [addWithRetry]; walk.
Qed.

Lemma stays_updateHourlyCount : stays quiet (updateHourlyCount env).
Proof. unfold updateHourlyCount. walk. Qed.

Lemma stays_resetCircuitBreaker : stays quiet resetCircuitBreaker.
Proof. unfold resetCircuitBreaker. walk. Qed.

Lemma stays_checkCircuitBreaker : stays quiet (checkCircuitBreaker env).
Proof. unfold checkCircuitBreaker. pose proof stays_resetCircuitBreaker. walk. Qed.

Lemma stays_updateFailedNumber (formattedNumber reason : string) :
  stays quiet (updateFailedNumber env formattedNumber reason).
Proof. unfold updateFailedNumber. walk. Qed.

End ServiceFrames.

#[global] Hint Resolve stays_checkHourlyLimit stays_getSmartDelay
  stays_checkRegistered stays_fetchContact stays_addWithRetry
  stays_updateHourlyCount stays_resetCircuitBreaker stays_checkCircuitBreaker
  stays_updateFailedNumber : stays.

(** ** One pass of the loop *)

Section Iteration.

Variable env : Oracle.
Variable groupId : string.
Variable numbers : list Item.

Lemma stays_recordAddition (i : nat) (number : Item) (results : Results) :
  stays quiet (recordAddition env numbers i number results).
Proof. unfold recordAddition. walk. Qed.

Lemma stays_handleAddFailure (number : Item) (err : JsError) (results : Results) :
  stays quiet (handleAddFailure env number err results).
Proof. unfold handleAddFailure. walk. Qed.

(** [saveContactThenAdd] records the attempt and then only talks to the
    client, sleeps and draws. *)
Lemma saveContactThenAdd_sameSession (number : Item) (m : Machine) :
  sameSession (emit (Attempt number groupId) m)
    (snd (saveContactThenAdd env number groupId m)).
Proof.
  unfold saveContactThenAdd. unfold bind at 1. cbv beta iota.
  generalize (emit (Attempt number groupId) m). intros m1.
  destruct (validatePhoneNumber number) as [validation|e]; [|reflexivity].
  destruct (negb (isValid validation)); [reflexivity|].
  lazymatch goal with
  | |- sameSession ?x (snd (?c ?x)) =>
      cut (stays sameSession c); [intros Hst; apply Hst |]
  end.
  walk.
Qed.

Lemma saveContactThenAdd_stats (number : Item) (m : Machine) :
  stats (snd (saveContactThenAdd env number groupId m)) = stats m /\
  files (snd (saveContactThenAdd env number groupId m)) = files m.
Proof.
  destruct (saveContactThenAdd_sameSession number m) as [Hs Hf _ _ _].
  split; assumption.
Qed.

Lemma attempting_quiet (number : Item) {A : Type} (c : M A) :
  stays quiet c -> stays (attempting number groupId) c.
Proof. intros H m. left. apply H. Qed.

Lemma attempting_bind (number : Item) {A B : Type} (c : M A) (k : A -> M B) :
  stays quiet c ->
  (forall a : A, stays (attempting number groupId) (k a)) ->
  stays (attempting number groupId) (bind c k).
Proof.
  intros Hc Hk m. unfold bind.
  specialize (Hc m). destruct (c m) as [a m1]. cbn in Hc.
  destruct (Hk a m1) as [Hq|(ma & Hq1 & Hq2)].
  - left. etransitivity; eassumption.
  - right. exists ma. split; [etransitivity; eassumption | exact Hq2].
Qed.

Lemma attempting_saveContactThenAdd (number : Item) {B : Type}
    (k : Completion bool -> M B) :
  (forall a, stays quiet (k a)) ->
  stays (attempting number groupId)
    (bind (saveContactThenAdd env number groupId) k).
Proof.
  intros Hk m. unfold bind.
  pose proof (saveContactThenAdd_sameSession number m) as Hs.
  destruct (saveContactThenAdd env number groupId m) as [a m1]. cbn in Hs.
  right. exists m. split; [reflexivity|].
  etransitivity; [apply sameSession_quiet; exact Hs | apply Hk].
Qed.

(** After the assignment of the cursor and the save that follows it, a
    pass of the loop is quiet but for at most one attempt. *)
Lemma iteration_attempting (i : nat) (number : Item) (results : Results)
    (m : Machine) :
  attempting number groupId
    (writeFiles (set_stats (set_currentBatchIndex i (stats m)) m))
    (snd (iteration env groupId numbers i number results m)).
Proof.
  unfold iteration. unfold bind at 1 2. unfold assign at 1. unfold saveSessionStats at 1.
  cbv beta iota.
  generalize (writeFiles (set_stats (set_currentBatchIndex i (stats m)) m)).
  intros m1.
  lazymatch goal with
  | |- attempting _ _ ?x (snd (?c ?x)) =>
      cut (stays (attempting number groupId) c); [intros Hst; apply Hst |]
  end.
  pose proof stays_recordAddition. pose proof stays_handleAddFailure.
  repeat first
    [ apply attempting_saveContactThenAdd; intros ?; walk
    | apply attempting_bind; [ solve [ walk ] | intros ? ]
    | apply attempting_quiet; solve [ walk ]
    | match goal with
      | |- stays _ (if ?c then _ else _) => destruct c
      end ].
Qed.

End Iteration.

Lemma batchesFile_after_cursor_save (i : nat) (m : Machine) :
  currentBatch (stats m) <> [] ->
  batchesFile (files (writeFiles (set_stats (set_currentBatchIndex i (stats m)) m))) =
    Some (BatchFile.mk (currentBatch (stats m)) i (lastGroupId (stats m))).
Proof.
  intros Hne. rewrite batchesFile_writeFiles. cbn.
  destruct (currentBatch (stats m)); [congruence | reflexivity].
Qed.

(** Two quiet stretches around a step that changes neither the session
    object nor the disk, after the save at the head of the pass. *)
Lemma passed_of_stretches (groupId : string) (i : nat) (number : Item)
    (m ma mb m' : Machine) :
  let m1 := writeFiles (set_stats (set_currentBatchIndex i (stats m)) m) in
  quiet m1 ma ->
  quiet mb m' ->
  stats mb = stats ma ->
  files mb = files ma ->
  (In UnlinkBatch (events mb) -> In UnlinkBatch (events ma)) ->
  writesOf (events mb) = writesOf (events ma) ->
  (attemptsOf (events mb) = attemptsOf (events ma) \/
   attemptsOf (events mb) = (attemptsOf (events ma) ++ [number])%list) ->
  passed groupId i number m m'.
Proof.
  intros m1 Ha Hb Hstats Hfiles Hunl Hwr Hatt.
  set (m0 := set_stats (set_currentBatchIndex i (stats m)) m) in *.
  pose proof (quiet_writeFiles m0) as Hsave. fold m1 in Hsave.
  set (rec := BatchFile.mk (currentBatch (stats m)) i (lastGroupId (stats m))).
  assert (Hrec0 : batchRecord (stats m0) = rec) by reflexivity.
  assert (Erec : BatchFile.mk (currentBatch (stats m)) i (lastGroupId (stats m)) = rec)
    by reflexivity.
  assert (E0b : currentBatch (stats m0) = currentBatch (stats m)) by reflexivity.
  assert (E0i : currentBatchIndex (stats m0) = i) by reflexivity.
  assert (E0g : lastGroupId (stats m0) = lastGroupId (stats m)) by reflexivity.
  assert (E0e : events m0 = events m) by reflexivity.
  assert (H1 : currentBatch (stats m) <> [] -> batchesFile (files m1) = Some rec).
  { intros Hne. apply batchesFile_after_cursor_save. exact Hne. }
  clearbody m1 m0 rec.
  destruct Hsave as [Sb Si Sg Sf Sa [k0 Sw] Su].
  destruct Ha as [Ab Ai Ag Af Aa [k1 Aw] Au].
  destruct Hb as [Bb Bi Bg Bf Ba [k2 Bw] Bu].
  assert (Hrec1 : batchRecord (stats m1) = rec)
    by (rewrite <- Hrec0; unfold batchRecord; congruence).
  assert (Hreca : batchRecord (stats ma) = rec)
    by (rewrite <- Hrec1; unfold batchRecord; congruence).
  assert (Hrecb : batchRecord (stats mb) = rec) by (rewrite Hstats; exact Hreca).
  rewrite Hrec0 in *. rewrite Hrec1 in *. rewrite Hrecb in *.
  split.
  - congruence.
  - congruence.
  - congruence.
  - intros Hne. specialize (H1 Hne). rewrite Erec.
    assert (H2 : batchesFile (files ma) = Some rec)
      by (destruct Af as [Af|Af]; congruence).
    destruct Bf as [Bf|Bf]; congruence.
  - destruct Hatt as [Hatt|Hatt]; [left|right]; congruence.
  - exists (k0 + (k1 + k2))%nat.
    rewrite Erec, Bw, Hwr, Aw, Sw, E0e. rewrite !replicate_add, <- !app_assoc. reflexivity.
  - intros Hin. rewrite <- E0e. apply Su, Au, Hunl, Bu, Hin.
Qed.

Lemma iteration_passed (env : Oracle) (groupId : string) (numbers : list Item)
    (i : nat) (number : Item) (results : Results) (m : Machine) :
  passed groupId i number m (snd (iteration env groupId numbers i number results m)).
Proof.
  destruct (iteration_attempting env groupId numbers i number results m)
    as [Hq|(ma & Hq1 & Hq2)].
  - eapply passed_of_stretches; [exact Hq | reflexivity | | | | | ]; auto.
  - eapply passed_of_stretches; [exact Hq1 | exact Hq2 | | | | | ]; auto.
    cbn. intros [H|H]; [discriminate | exact H].
Qed.

(** ** What a pass of the loop adds to the results *)

Lemma returns_ret {A : Type} (Q : A -> Prop) (a : A) : Q a -> returns Q (ret a).
Proof. intros H m. exact H. Qed.

Lemma returns_bind {A B : Type} (Q : B -> Prop) (c : M A) (k : A -> M B) :
  (forall a : A, returns Q (k a)) -> returns Q (bind c k).
Proof. intros Hk m. unfold bind. destruct (c m) as [a m1]. apply Hk. Qed.

Lemma returns_bind_with {A B : Type} (P : A -> Prop) (Q : B -> Prop)
    (c : M A) (k : A -> M B) :
  returns P c -> (forall a : A, P a -> returns Q (k a)) -> returns Q (bind c k).
Proof.
  intros Hc Hk m. unfold bind. specialize (Hc m).
  destruct (c m) as [a m1]. apply Hk. exact Hc.
Qed.

Ltac returns_walk :=
  repeat first
    [ apply returns_bind; intros ?
    | match goal with
      | |- returns _ (if ?c then _ else _) => destruct c
      | |- returns _ (match ?x with _ => _ end) => destruct x
      | |- returns _ (when _ _) => unfold when
      end ].

Lemma numbersOf_pushDetail (number : Item) (status reason : string) (r : Results) :
  numbersOf (pushDetail number status reason r) = (numbersOf r ++ [number])%list.
Proof. unfold numbersOf, pushDetail. cbn. rewrite map_app. reflexivity. Qed.

Lemma numbersOf_paused (msg : string) (r : Results) :
  numbersOf (paused msg r) = numbersOf r.
Proof. reflexivity. Qed.

Lemma numbersOf_incrAdded (r : Results) : numbersOf (incrAdded r) = numbersOf r.
Proof. reflexivity. Qed.

Lemma numbersOf_incrFailed (r : Results) : numbersOf (incrFailed r) = numbersOf r.
Proof. reflexivity. Qed.

Lemma numbersOf_incrSkipped (r : Results) : numbersOf (incrSkipped r) = numbersOf r.
Proof. reflexivity. Qed.

Lemma numbersOf_set_batch (b : BatchProgress) (r : Results) :
  numbersOf (set_batch b r) = numbersOf r.
Proof. reflexivity. Qed.

Lemma handled_paused (msg : string) (r : Results) : handled (paused msg r) = handled r.
Proof. reflexivity. Qed.

Lemma handled_pushDetail (number : Item) (status reason : string) (r : Results) :
  handled (pushDetail number status reason r) = handled r.
Proof. reflexivity. Qed.

Lemma handled_set_batch (b : BatchProgress) (r : Results) :
  handled (set_batch b r) = handled r.
Proof. reflexivity. Qed.

Lemma handled_incrAdded (r : Results) : handled (incrAdded r) = S (handled r).
Proof. reflexivity. Qed.

Lemma handled_incrFailed (r : Results) : handled (incrFailed r) = S (handled r).
Proof. unfold handled. cbn. lia. Qed.

Lemma handled_incrSkipped (r : Results) : handled (incrSkipped r) = S (handled r).
Proof. unfold handled. cbn. lia. Qed.

Create Rewrite HintDb results.
#[global] Hint Rewrite numbersOf_paused numbersOf_incrAdded numbersOf_incrFailed
  numbersOf_incrSkipped numbersOf_set_batch numbersOf_pushDetail
  handled_paused handled_pushDetail handled_set_batch handled_incrAdded
  handled_incrFailed handled_incrSkipped : results.

Ltac results_leaf :=
  apply returns_ret; unfold processedOne;
  autorewrite with results; repeat split; reflexivity.

Section Details.

Variable env : Oracle.
Variable groupId : string.
Variable numbers : list Item.

Lemma recordAddition_returns (i : nat) (number : Item) (results : Results) :
  returns (fun r => r = pushDetail number "added"
                         "Successfully saved contact and added to group"
                         (incrAdded results))
    (recordAddition env numbers i number results).
Proof.
  unfold recordAddition. returns_walk; apply returns_ret; reflexivity.
Qed.

Lemma handleAddFailure_returns (number : Item) (err : JsError) (results : Results) :
  returns (processedOne number results)
    (handleAddFailure env number err results).
Proof.
  unfold handleAddFailure.
  apply returns_bind; intros _.
  destruct (validatePhoneNumber number) as [validation|e]; [|results_leaf].
  apply returns_bind; intros _.
  apply (returns_bind_with (fun early =>
    forall partial, early = Some partial ->
      processedOne number results (Return partial))).
  - returns_walk; apply returns_ret; intros partial Heq; try discriminate.
    injection Heq as <-. unfold processedOne.
    autorewrite with results. repeat split; reflexivity.
  - intros [partial|] Hearly.
    + apply returns_ret. apply Hearly. reflexivity.
    + returns_walk. results_leaf.
Qed.

Lemma processedOne_ext (number : Item) (before before' : Results) (step : Step) :
  numbersOf before = numbersOf before' ->
  handled before = handled before' ->
  success before = success before' ->
  processedOne number before step -> processedOne number before' step.
Proof.
  intros Hn Hh Hs. unfold processedOne. rewrite Hn, Hh, Hs. trivial.
Qed.

Lemma iteration_returns (i : nat) (number : Item) (results : Results) :
  returns (processedOne number results)
    (iteration env groupId numbers i number results).
Proof.
  unfold iteration.
  do 5 (apply returns_bind; intros ?).
  apply returns_bind; intros safetyConfig.
  destruct (dailyLimit safetyConfig <=? addedToday safetyConfig).
  { results_leaf. }
  apply returns_bind; intros hourly. destruct hourly.
  { returns_walk; results_leaf. }
  apply returns_bind; intros outcome.
  apply (returns_bind_with (processedOne number results)).
  - destruct outcome as [b|err].
    + apply (returns_bind_with _ _ _ _ (recordAddition_returns i number _)).
      intros r ->. results_leaf.
    + lazymatch goal with
      | |- returns _ (handleAddFailure _ _ _ ?r) =>
          pose proof (handleAddFailure_returns number err r) as H
      end.
      intros m. specialize (H m). revert H. apply processedOne_ext; reflexivity.
  - intros step Hstep. destruct step as [r|r|e r]; try (apply returns_ret; exact Hstep).
    destruct Hstep as (Hn & Hh & Hs).
    returns_walk; apply returns_ret; unfold processedOne;
      autorewrite with results; repeat split; assumption || reflexivity.
Qed.

End Details.

(** ** The loop *)

Section Loop.

Variable env : Oracle.
Variable groupId : string.
Variable numbers : list Item.

Lemma writtenInLoop_head (m : Machine) (i : nat) (number : Item) (rest : list Item)
    (k : nat) :
  Forall (writtenInLoop m i (number :: rest))
    (replicate k (BatchFile.mk (currentBatch (stats m)) i (lastGroupId (stats m)))).
Proof.
  apply Forall_replicate. unfold writtenInLoop. cbn. repeat split; lia.
Qed.

Lemma writtenInLoop_tail (m m1 : Machine) (i : nat) (number : Item)
    (rest : list Item) (ws : list BatchFile.t) :
  currentBatch (stats m1) = currentBatch (stats m) ->
  lastGroupId (stats m1) = lastGroupId (stats m) ->
  Forall (writtenInLoop m1 (S i) rest) ws ->
  Forall (writtenInLoop m i (number :: rest)) ws.
Proof.
  intros Hb Hg Hws. eapply Forall_impl; [exact Hws|]. intros b (H1 & H2 & H3).
  unfold writtenInLoop. rewrite <- Hb, <- Hg. cbn. repeat split; auto; lia.
Qed.

Lemma forLoop_looped (rest : list Item) :
  forall (i : nat) (results : Results) (m : Machine),
  exists n : nat,
    looped i rest results m
      (fst (forLoop env groupId numbers i rest results m))
      (snd (forLoop env groupId numbers i rest results m)) n.
Proof.
  induction rest as [|number rest IH]; intros i results m.
  - exists 0%nat. cbn. split; cbn.
    + reflexivity.
    + reflexivity.
    + exists []. rewrite app_nil_r. split; [reflexivity | constructor].
    + exists []. rewrite app_nil_r. split; [reflexivity | constructor].
    + trivial.
    + lia.
    + rewrite app_nil_r. reflexivity.
    + lia.
    + reflexivity.
    + split; [reflexivity | intros H; contradiction].
    + intros H. contradiction.
    + reflexivity.
  - cbn [forLoop]. unfold bind.
    pose proof (iteration_passed env groupId numbers i number results m) as Hp.
    pose proof (iteration_returns env groupId numbers i number results m) as Hr.
    destruct (iteration env groupId numbers i number results m) as [step m1].
    cbn [fst snd] in Hp, Hr.
    destruct Hp as [Pb Pi Pg Pf Pa [k Pw] Pu].
    destruct step as [r1|r1|e r1]; cbn in Hr; destruct Hr as (Hn & Hh & Hs).
    + (* the loop goes on *)
      destruct (IH (S i) r1 m1) as [n Hl].
      destruct (forLoop env groupId numbers (S i) rest r1 m1) as [step m'].
      cbn [fst snd] in *.
      destruct Hl as [Lb Lg (l & La & Ls) (ws & Lw & Lf) Lu Lc Ln Lh Lsu Lcur Lfile Lno].
      exists (S n). split.
      * congruence.
      * congruence.
      * destruct Pa as [Pa|Pa].
        -- exists l. split; [congruence|].
           destruct step; cbn [take]; apply sublist_cons; exact Ls.
        -- exists (number :: l). split.
           ++ rewrite La, Pa, <- app_assoc. reflexivity.
           ++ destruct step; cbn [take]; apply sublist_skip; exact Ls.
      * eexists. split.
        -- rewrite Lw, Pw, <- app_assoc. reflexivity.
        -- apply Forall_app. split; [apply writtenInLoop_head|].
           eapply writtenInLoop_tail; eassumption.
      * auto.
      * cbn. lia.
      * rewrite Ln, Hn, <- app_assoc. reflexivity.
      * rewrite Lh, Hh. lia.
      * destruct step; congruence.
      * destruct step; cbn [length].
        -- destruct Lcur as [-> Hidx]. split; [reflexivity|]. intros _.
           destruct rest as [|x rest'].
           ++ rewrite (Lno eq_refl). cbn. lia.
           ++ specialize (Hidx ltac:(discriminate)). cbn in *. lia.
        -- lia.
        -- lia.
      * intros _ Hne. destruct rest as [|x rest'].
        -- rewrite (Lno eq_refl). rewrite Pf, Pi by exact Hne. reflexivity.
        -- rewrite Lfile; [congruence | discriminate | congruence].
      * discriminate.
    + (* the function returns *)
      exists 1%nat. unfold ret. cbn [fst snd]. split; cbn [carried].
      * exact Pb.
      * exact Pg.
      * destruct Pa as [Pa|Pa].
        -- exists []. rewrite app_nil_r. split; [exact Pa | apply sublist_nil_l].
        -- exists [number]. split; [exact Pa|]. cbn. apply sublist_skip, sublist_nil_l.
      * eexists. split; [exact Pw | apply writtenInLoop_head].
      * exact Pu.
      * cbn. lia.
      * cbn. rewrite take_0. exact Hn.
      * rewrite Hh. lia.
      * exact Hs.
      * lia.
      * intros _ Hne. rewrite Pf, Pi by exact Hne. reflexivity.
      * discriminate.
    + (* an exception leaves the loop *)
      exists 0%nat. unfold ret. cbn [fst snd]. split; cbn [carried].
      * exact Pb.
      * exact Pg.
      * destruct Pa as [Pa|Pa].
        -- exists []. rewrite app_nil_r. split; [exact Pa | apply sublist_nil_l].
        -- exists [number]. split; [exact Pa|]. cbn. apply sublist_skip, sublist_nil_l.
      * eexists. split; [exact Pw | apply writtenInLoop_head].
      * exact Pu.
      * cbn. lia.
      * cbn. rewrite app_nil_r. exact Hn.
      * rewrite Hh. lia.
      * exact Hs.
      * cbn. lia.
      * intros _ Hne. rewrite Pf, Pi by exact Hne. reflexivity.
      * discriminate.
Qed.

End Loop.

(** ** The failure of an item *)




Section Failure.

Variable env : Oracle.
Variable number : string.
Variable err : JsError.
Variable results : Results.
Variable m : Machine.

Let errorMsg : string := messageOrUnknown err.
Let outcome : Step * Machine := handleAddFailure env (ItemString number) err results m.




End Failure.

(** ** The batch as a whole *)

Lemma attemptsOf_writeFiles (m : Machine) :
  attemptsOf (events (writeFiles m)) = attemptsOf (events m).
Proof. apply (quiet_attempts _ _ (quiet_writeFiles m)). Qed.

Lemma writesOf_writeFiles_nil (m : Machine) :
  currentBatch (stats m) = [] ->
  writesOf (events (writeFiles m)) = writesOf (events m).
Proof. intros H. unfold writeFiles. rewrite H. reflexivity. Qed.

Lemma writesOf_writeFiles_cons (m : Machine) :
  currentBatch (stats m) <> [] ->
  writesOf (events (writeFiles m)) =
    (writesOf (events m) ++ [batchRecord (stats m)])%list.
Proof.
  intros H. unfold writeFiles, batchRecord.
  destruct (currentBatch (stats m)); [congruence | reflexivity].
Qed.

Lemma attemptsOf_unlinkBatchFile (m : Machine) :
  attemptsOf (events (unlinkBatchFile m)) = attemptsOf (events m).
Proof. unfold unlinkBatchFile. destruct (batchesFile (files m)); reflexivity. Qed.

Lemma writesOf_unlinkBatchFile (m : Machine) :
  writesOf (events (unlinkBatchFile m)) = writesOf (events m).
Proof. unfold unlinkBatchFile. destruct (batchesFile (files m)); reflexivity. Qed.

Lemma startBatch_spec (groupId : string) (numbers : list Item) (m : Machine) :
  exists s0 : SessionStats,
    startBatch groupId numbers m = (initialResults numbers, set_stats s0 m) /\
    currentBatch s0 = numbers /\
    currentBatchIndex s0 = startIndex groupId (stats m) /\
    lastGroupId s0 = lastGroupId (stats m).
Proof.
  unfold startBatch, startIndex. run.
  destruct ((0 <? length (currentBatch (stats m)))%nat &&
            bool_decide (lastGroupId (stats m) = Some groupId));
    run; eexists; (split; [reflexivity|]); repeat split.
Qed.

Lemma finishBatch_spec (env : Oracle) (groupId message : string)
    (results : Results) (m : Machine) :
  let m' := snd (finishBatch env groupId message results m) in
  fst (finishBatch env groupId message results m) = Return results /\
  attemptsOf (events m') = attemptsOf (events m) /\
  writesOf (events m') = writesOf (events m) /\
  stats m' =
    (if batchDone (stats m)
     then set_lastGroupId None (set_currentBatchIndex 0 (set_currentBatch [] (stats m)))
     else stats m) /\
  batchesFile (files m') =
    (if batchDone (stats m) then None else batchesFile (files m)).
Proof.
  unfold finishBatch, batchDone.
  destruct (negb (message =? "")%string && (0 <? added results)%nat); run;
    destruct ((0 <? length (currentBatch (stats m)))%nat &&
              (Z.of_nat (length (currentBatch (stats m))) - 1
                 <=? Z.of_nat (currentBatchIndex (stats m)))); run;
    autorewrite with machine;
    rewrite ?attemptsOf_unlinkBatchFile, ?writesOf_unlinkBatchFile;
    repeat split.
Qed.

Lemma writtenInLoop_batch (m0 : Machine) (s : SessionStats) (numbers : list Item)
    (start : nat) (ws : list BatchFile.t) :
  currentBatch (stats m0) = numbers ->
  lastGroupId (stats m0) = lastGroupId s ->
  Forall (writtenInLoop m0 start (drop start numbers)) ws ->
  Forall (writtenInBatch s numbers start) ws.
Proof.
  intros Hb Hg Hws. eapply Forall_impl; [exact Hws|].
  intros b (H1 & H2 & H3). rewrite length_drop in H3.
  unfold writtenInBatch. repeat split; try congruence; lia.
Qed.

(** [processBatch] always reports, and what it leaves behind. *)
Lemma processBatch_batchRun (env : Oracle) (groupId : string)
    (numbers : list Item) (message : string) (m : Machine) :
  exists r : Results,
    fst (processBatch env groupId numbers message m) = Report r /\
    batchRun numbers (startIndex groupId (stats m)) m r
      (snd (processBatch env groupId numbers message m)).
Proof.
  destruct (processBatch env groupId numbers message m) as [reply m'] eqn:Hrun.
  cbn [fst snd]. revert Hrun.
  unfold processBatch, tryBlock, bind.
  destruct (startBatch_spec groupId numbers m) as (s0 & -> & Hb & Hi & Hg).
  set (start := startIndex groupId (stats m)) in *.
  set (m0 := set_stats s0 m).
  assert (E0 : events m0 = events m) by reflexivity.
  assert (S0 : stats m0 = s0) by reflexivity.
  unfold getSessionStats at 1. cbv beta iota. rewrite S0, Hi.
  destruct (forLoop_looped env groupId numbers (drop start numbers) start
              (initialResults numbers) m0) as [n Hl].
  destruct (forLoop env groupId numbers start (drop start numbers)
              (initialResults numbers) m0) as [step m1].
  cbn [fst snd] in Hl.
  destruct Hl as [Lb Lg (l & La & Ls) (ws & Lw & Lf) Lu Lc Ln Lh Lsu Lcur Lfile Lno].
  rewrite S0 in *. rewrite Hb in *. rewrite Hg in *. rewrite E0 in *.
  rewrite length_drop in *.
  assert (Hws : Forall (writtenInBatch (stats m) numbers start) ws).
  { eapply writtenInLoop_batch; [| |exact Lf]; rewrite S0; assumption. }
  assert (I0 : currentBatchIndex (stats m0) = start) by (rewrite S0; exact Hi).
  clearbody m0. clear E0 S0.
  change (numbersOf (initialResults numbers)) with (@nil Item) in Ln.
  change (handled (initialResults numbers)) with 0%nat in Lh.
  change (success (initialResults numbers)) with true in Lsu.
  cbn [app] in Ln. cbn [Nat.add] in Lh.
  destruct step as [r|r|e r]; cbn [carried] in *.
  - (* the loop ran to its end *)
    destruct Lcur as [-> Hidx].
    pose proof (finishBatch_spec env groupId message r m1) as Hfin.
    destruct (finishBatch env groupId message r m1) as [step2 m2].
    cbn [fst snd] in Hfin. destruct Hfin as (-> & Fa & Fw & Fs & Ff).
    unfold finallyBlock. run. intros [= <- <-]. exists r. split; [reflexivity|].
    assert (Htake : take (length numbers - start) (drop start numbers)
                    = drop start numbers)
      by (apply take_ge; rewrite length_drop; lia).
    assert (Hdone : numbers <> [] -> batchDone (stats m1) = true).
    { intros Hne. unfold batchDone. rewrite Lb.
      destruct numbers as [|x xs]; [congruence|]. cbn [length].
      apply andb_true_iff. split; [reflexivity|]. apply Z.leb_le.
      destruct (drop start (x :: xs)) eqn:Hrest.
      - rewrite (Lno eq_refl).
        assert (length (drop start (x :: xs)) = 0%nat) by (rewrite Hrest; reflexivity).
        rewrite length_drop in H. cbn [length] in H.
        rewrite I0. lia.
      - specialize (Hidx ltac:(discriminate)). cbn [length] in *. lia. }
    split.
    + rewrite stats_writeFiles. reflexivity.
    + exists (length numbers - start)%nat. rewrite Ln, Lh. repeat split. lia.
    + exists l. rewrite attemptsOf_writeFiles. cbn [events]. rewrite Fa, La.
      split; [reflexivity|]. rewrite Htake in Ls. exact Ls.
    + exists ws. split; [|exact Hws].
      rewrite writesOf_writeFiles_nil.
      * cbn [events]. rewrite Fw, Lw. reflexivity.
      * cbn [stats]. rewrite Fs.
        destruct numbers as [|x xs].
        -- destruct (batchDone (stats m1)); [reflexivity | exact Lb].
        -- rewrite Hdone by discriminate. reflexivity.
    + rewrite stats_writeFiles. cbn [stats]. rewrite Fs.
      destruct (batchDone (stats m1)); [right; reflexivity | left; exact Lg].
    + intros _. split; [rewrite Ln, Htake; reflexivity|].
      intros Hne. specialize (Hdone Hne).
      rewrite stats_writeFiles. cbn [stats]. rewrite Fs, Hdone.
      repeat split.
      rewrite batchesFile_writeFiles. cbn. rewrite Ff, Hdone. reflexivity.
    + intros Hfalse. congruence.
  - (* the function returned from inside the loop *)
    destruct Lcur as [Hidx Hpos].
    unfold finallyBlock. run. intros [= <- <-]. exists r. split; [reflexivity|].
    assert (Hrest : drop start numbers <> [])
      by (intros Heq; apply (f_equal length) in Heq; rewrite length_drop in Heq;
          cbn in Heq; lia).
    assert (Hne : numbers <> [])
      by (intros ->; apply Hrest; apply drop_nil).
    split.
    + rewrite stats_writeFiles. reflexivity.
    + exists n. repeat split; assumption.
    + exists l. rewrite attemptsOf_writeFiles. cbn [events]. split; [exact La|].
      etransitivity; [exact Ls | apply sublist_take].
    + exists (ws ++ [BatchFile.mk numbers (currentBatchIndex (stats m1))
                       (lastGroupId (stats m))])%list.
      split.
      * rewrite writesOf_writeFiles_cons by (cbn; congruence).
        cbn [events stats]. rewrite Lw, <- app_assoc. unfold batchRecord. cbn.
        rewrite Lb, Lg. reflexivity.
      * apply Forall_app. split; [exact Hws|]. constructor; [|constructor].
        unfold writtenInBatch. cbn. repeat split; lia.
    + left. rewrite stats_writeFiles. exact Lg.
    + intros Htrue. congruence.
    + intros _. rewrite stats_writeFiles, batchesFile_writeFiles. run.
      rewrite Lb, Lg.
      repeat split; try assumption; try lia.
      destruct numbers; [congruence | reflexivity].
  - (* an exception left the loop *)
    destruct Lcur as [Hidx Hpos].
    unfold finallyBlock. run. intros [= <- <-]. eexists. split; [reflexivity|].
    assert (Hne : numbers <> [])
      by (intros ->; cbn in Hpos; lia).
    split; cbn [success numbersOf handled paused details added failed skipped].
    + rewrite stats_writeFiles. reflexivity.
    + exists n. repeat split; assumption.
    + exists l. rewrite attemptsOf_writeFiles. cbn [events]. split; [exact La|].
      etransitivity; [exact Ls | apply sublist_take].
    + exists (ws ++ [BatchFile.mk numbers (currentBatchIndex (stats m1))
                       (lastGroupId (stats m))])%list.
      split.
      * rewrite writesOf_writeFiles_cons by (cbn; congruence).
        cbn [events stats]. rewrite Lw, <- app_assoc. unfold batchRecord. cbn.
        rewrite Lb, Lg. reflexivity.
      * apply Forall_app. split; [exact Hws|]. constructor; [|constructor].
        unfold writtenInBatch. cbn. repeat split; lia.
    + left. rewrite stats_writeFiles. exact Lg.
    + intros Htrue. discriminate.
    + intros _. rewrite stats_writeFiles, batchesFile_writeFiles. run.
      rewrite Lb, Lg.
      repeat split; try assumption; try lia.
      destruct numbers; [congruence | reflexivity].
Qed.

(** ** The submission as a whole *)

Section Submission.

Variable env : Oracle.

Lemma stays_admission : stays quiet (admission env).
Proof. unfold admission. walk. Qed.

Lemma stays_verifyGroup (groupId : string) : stays quiet (verifyGroup env groupId).
Proof. unfold verifyGroup. walk. Qed.

Lemma admission_refusal : returns refusal (admission env).
Proof. unfold admission. returns_walk; apply returns_ret; exact I. Qed.

Lemma verifyGroup_refusal (groupId : string) :
  returns refusal (verifyGroup env groupId).
Proof. unfold verifyGroup. returns_walk; apply returns_ret; exact I. Qed.

(** A submission is either refused, after a quiet stretch, or handed to
    [processBatch], after a quiet stretch. *)
Lemma addMembersToGroup_cases (groupId : string) (numbers : list Item)
    (message : string) (m : Machine) :
  (exists (text : string) (m1 : Machine),
     addMembersToGroup env groupId numbers message m = (Rejected text, m1) /\
     quiet m m1) \/
  (exists m1 : Machine,
     quiet m m1 /\
     addMembersToGroup env groupId numbers message m =
       processBatch env groupId numbers message m1).
Proof.
  unfold addMembersToGroup, bind.
  pose proof (stays_admission m) as Hq1.
  pose proof (admission_refusal m) as Hr1.
  destruct (admission env m) as [refused m1]. cbn [fst snd] in *.
  destruct refused as [[text|r]|]; [|contradiction|].
  { left. exists text, m1. split; [reflexivity | exact Hq1]. }
  pose proof (stays_verifyGroup groupId m1) as Hq2.
  pose proof (verifyGroup_refusal groupId m1) as Hr2.
  destruct (verifyGroup env groupId m1) as [invalid m2]. cbn [fst snd] in *.
  assert (Hq : quiet m m2) by (etransitivity; eassumption).
  destruct invalid as [[text|r]|]; [|contradiction|].
  - left. exists text, m2. split; [reflexivity | exact Hq].
  - right. exists m2. split; [exact Hq | reflexivity].
Qed.

End Submission.







Lemma startIndex_quiet (groupId : string) (m m1 : Machine) :
  quiet m m1 -> startIndex groupId (stats m1) = startIndex groupId (stats m).
Proof.
  intros [Hb Hi Hg _ _ _ _]. unfold startIndex. rewrite Hb, Hi, Hg. reflexivity.
Qed.

(** C3.  A stored batch [items] with cursor [cursor], [0 < cursor <
    length items], stored for the group [groupId], is resubmitted for that
    group.  If the submission is admitted, the details of the results are
    those of the first [n] items from the cursor on, in order, [n] being
    the number of items counted, and the items handed to
    [saveContactThenAdd] form a subsequence of the items from the cursor
    on: no item before the cursor has a detail or an attempt.  If the loop
    runs to its end ([success] is still true), the details are exactly
    those of [items] from the cursor on, the batch file is gone, and the
    batch, the cursor and the group in memory are cleared. *)
Theorem resume_from_cursor (env : Oracle) (groupId : string) (items : list Item)
    (cursor : nat) (message : string) (m : Machine) (r : Results) :
  currentBatch (stats m) = items ->
  currentBatchIndex (stats m) = cursor ->
  lastGroupId (stats m) = Some groupId ->
  (0 < cursor < length items)%nat ->
  fst (addMembersToGroup env groupId items message m) = Report r ->
  let m' := snd (addMembersToGroup env groupId items message m) in
  (exists n : nat,
     numbersOf r = take n (drop cursor items) /\ handled r = n /\
     (n <= length items - cursor)%nat) /\
  (exists l : list Item,
     attemptsOf (events m') = (attemptsOf (events m) ++ l)%list /\
     sublist l (drop cursor items)) /\
  (success r = true ->
   numbersOf r = drop cursor items /\
   handled r = (length items - cursor)%nat /\
   batchesFile (files m') = None /\
   currentBatch (stats m') = [] /\
   currentBatchIndex (stats m') = 0%nat /\
   lastGroupId (stats m') = None).
Proof.
  intros Hbatch Hcursor Hgroup Hrange Hreply. cbv zeta.
  destruct (addMembersToGroup_cases env groupId items message m)
    as [(text & m1 & Hrun & _)|(m1 & Hq & Hrun)].
  { rewrite Hrun in Hreply. discriminate. }
  rewrite Hrun in *.
  destruct (processBatch_batchRun env groupId items message m1) as (r' & Hr' & Hran).
  rewrite Hreply in Hr'. injection Hr' as <-.
  assert (Hstart : startIndex groupId (stats m1) = cursor).
  { rewrite (startIndex_quiet _ _ _ Hq). unfold startIndex.
    rewrite Hbatch, Hgroup, Hcursor.
    rewrite bool_decide_eq_true_2 by reflexivity.
    destruct items; [cbn in Hrange; lia | reflexivity]. }
  rewrite Hstart in Hran.
  destruct Hran as [_ Hnum (l & Hatt & Hsub) _ _ Hcomplete _].
  split; [exact Hnum|]. split.
  - exists l. rewrite Hatt, (quiet_attempts _ _ Hq). split; [reflexivity | exact Hsub].
  - intros Hsuccess.
    destruct (Hcomplete Hsuccess) as (Hall & Hclean).
    destruct Hclean as (H1 & H2 & H3 & H4).
    { intros ->. cbn in Hrange. lia. }
    destruct Hnum as (n & Hn & Hh & Hle).
    repeat split; try assumption.
    rewrite Hh. apply (f_equal length) in Hall, Hn.
    rewrite Hall in Hn. rewrite length_take, length_drop in Hn. lia.
Qed.

(** The interrupted batch of four, resumed in the calm world: the
    third and the fourth item are processed, and the batch file is
    deleted. *)
Lemma resume_from_cursor_witness :
  numbersOf (reported (fst (addMembersToGroup calmWorld exampleGroup fourItems ""
                              interruptedMachine))) = [carol; dave] /\
  batchesFile (files (snd (addMembersToGroup calmWorld exampleGroup fourItems ""
                             interruptedMachine))) = None.
Proof.
  destruct (resume_from_cursor calmWorld exampleGroup fourItems 2 ""
              interruptedMachine
              (reported (fst (addMembersToGroup calmWorld exampleGroup fourItems ""
                                interruptedMachine)))
              eq_refl eq_refl eq_refl)
    as (_ & _ & Hcomplete).
  - cbn. lia.
  - vm_compute. reflexivity.
  - destruct Hcomplete as (H1 & _ & H2 & _).
    + vm_compute. reflexivity.
    + split; [exact H1 | exact H2].
Defined.

(** C5.  [processBatch] is the part of [addMembersToGroup] entered once
    a submission is admitted; it raises [isAddingMembers] first.  However
    the [try] block ends (the loop ran to its end, the function returned
    from inside the loop, or an exception left the block), the call
    reports a results object and [isAddingMembers] is false afterwards; an
    exception is reported as the results so far with [success] false.  So
    every submission that reports results leaves the flag false. *)
Theorem isAddingMembers_released (env : Oracle) (groupId : string)
    (numbers : list Item) (message : string) (m : Machine) :
  let started := startBatch groupId numbers m in
  let tried := tryBlock env groupId numbers message (fst started) (snd started) in
  let run := processBatch env groupId numbers message m in
  isAddingMembers (stats (snd started)) = true /\
  fst run = catchUnexpected (fst tried) /\
  isAddingMembers (stats (snd run)) = false /\
  (exists r : Results, fst run = Report r) /\
  (forall (e : JsError) (r : Results),
     fst tried = Throw e r ->
     exists r' : Results,
       fst run = Report r' /\ success r' = false /\
       details r' = details r /\ added r' = added r /\
       failed r' = failed r /\ skipped r' = skipped r) /\
  (forall r : Results,
     fst (addMembersToGroup env groupId numbers message m) = Report r ->
     isAddingMembers
       (stats (snd (addMembersToGroup env groupId numbers message m))) = false).
Proof.
  cbv zeta.
  assert (Hrun : forall m0,
            fst (processBatch env groupId numbers message m0) =
              catchUnexpected
                (fst (tryBlock env groupId numbers message
                        (fst (startBatch groupId numbers m0))
                        (snd (startBatch groupId numbers m0)))) /\
            isAddingMembers
              (stats (snd (processBatch env groupId numbers message m0))) = false).
  { intros m0. unfold processBatch, bind.
    destruct (startBatch groupId numbers m0) as [results m1]. cbn [fst snd].
    destruct (tryBlock env groupId numbers message results m1) as [step m2].
    unfold finallyBlock. run. rewrite stats_writeFiles. split; reflexivity. }
  destruct (Hrun m) as [Hreply Hflag].
  split; [|split; [exact Hreply|split; [exact Hflag|split; [|split]]]].
  - destruct (startBatch_spec groupId numbers m) as (s0 & Heq & _).
    unfold startBatch. run.
    destruct ((0 <? length (currentBatch (stats m)))%nat &&
              bool_decide (lastGroupId (stats m) = Some groupId)); reflexivity.
  - rewrite Hreply.
    destruct (fst (tryBlock env groupId numbers message
                     (fst (startBatch groupId numbers m))
                     (snd (startBatch groupId numbers m)))); eexists; reflexivity.
  - intros e r Hthrow. rewrite Hreply, Hthrow.
    eexists. split; [reflexivity|]. repeat split.
  - intros r Hreport.
    destruct (addMembersToGroup_cases env groupId numbers message m)
      as [(text & m1 & Hcase & _)|(m1 & _ & Hcase)].
    + rewrite Hcase in Hreport. discriminate.
    + rewrite Hcase. apply Hrun.
Qed.

(** A batch whose only element is a JSON number: [validatePhoneNumber]
    throws, inside [saveContactThenAdd] and again in the handler of the
    failure; the submission is admitted, reports, and the flag is false. *)
Lemma isAddingMembers_released_witness :
  isAddingMembers
    (stats (snd (addMembersToGroup calmWorld exampleGroup [numberItem] ""
                   (machineOf defaultStats)))) = false.
Proof.
  apply (isAddingMembers_released calmWorld exampleGroup [numberItem] ""
           (machineOf defaultStats))
    with (r := reported (fst (addMembersToGroup calmWorld exampleGroup [numberItem] ""
                                (machineOf defaultStats)))).
  vm_compute. reflexivity.
Defined.

(** C10.  [addMembersToGroup] never stores the submitted group in
    [lastGroupId]: after a submission the field has the value it had or is
    [null], and every batch record written during the submission carries
    the value the field had before.  A submission for a group other than
    the stored one starts at index 0 ([startBatch] sets the cursor to 0 and
    leaves [lastGroupId] alone), so its details are those of the first
    items of [numbers].  The field takes a value from elsewhere only when
    [loadBatchData] copies it from a batch file. *)
Theorem lastGroupId_only_cleared (env : Oracle) (groupId : string)
    (numbers : list Item) (message : string) (m : Machine) :
  let run := addMembersToGroup env groupId numbers message m in
  (lastGroupId (stats (snd run)) = lastGroupId (stats m) \/
   lastGroupId (stats (snd run)) = None) /\
  (exists ws : list BatchFile.t,
     writesOf (events (snd run)) = (writesOf (events m) ++ ws)%list /\
     Forall (fun b => BatchFile.lastGroupId b = lastGroupId (stats m)) ws) /\
  (lastGroupId (stats m) <> Some groupId ->
   currentBatchIndex (stats (snd (startBatch groupId numbers m))) = 0%nat /\
   lastGroupId (stats (snd (startBatch groupId numbers m))) = lastGroupId (stats m) /\
   forall r : Results, fst run = Report r ->
     exists n : nat, numbersOf r = take n numbers) /\
  (lastGroupId (stats (snd (loadBatchData m))) = lastGroupId (stats m) \/
   exists b : BatchFile.t,
     batchesFile (files m) = Some b /\
     lastGroupId (stats (snd (loadBatchData m))) = BatchFile.lastGroupId b).
Proof.
  cbv zeta.
  assert (Hfresh : forall m0, lastGroupId (stats m0) <> Some groupId ->
                   startIndex groupId (stats m0) = 0%nat).
  { intros m0 Hne. unfold startIndex.
    rewrite bool_decide_eq_false_2 by exact Hne.
    rewrite andb_false_r. reflexivity. }
  split; [|split; [|split]].
  - destruct (addMembersToGroup_cases env groupId numbers message m)
      as [(text & m1 & -> & Hq)|(m1 & Hq & ->)].
    + left. apply (quiet_group _ _ Hq).
    + destruct (processBatch_batchRun env groupId numbers message m1)
        as (r & _ & Hran).
      destruct (run_group _ _ _ _ _ Hran) as [H|H]; [left|right; exact H].
      rewrite H. apply (quiet_group _ _ Hq).
  - destruct (addMembersToGroup_cases env groupId numbers message m)
      as [(text & m1 & -> & Hq)|(m1 & Hq & ->)].
    + destruct (quiet_writes _ _ Hq) as [k Hw].
      eexists. split; [exact Hw|]. apply Forall_replicate. reflexivity.
    + destruct (processBatch_batchRun env groupId numbers message m1)
        as (r & _ & Hran).
      destruct (run_writes _ _ _ _ _ Hran) as (ws & Hw & Hws).
      destruct (quiet_writes _ _ Hq) as [k Hk].
      eexists. split.
      * rewrite Hw, Hk, <- app_assoc. reflexivity.
      * apply Forall_app. split; [apply Forall_replicate; reflexivity|].
        eapply Forall_impl; [exact Hws|]. intros b (_ & Hg & _).
        rewrite Hg. apply (quiet_group _ _ Hq).
  - intros Hne.
    destruct (startBatch_spec groupId numbers m) as (s0 & -> & _ & Hi & Hg).
    cbn [snd stats set_stats]. rewrite Hi, Hg, (Hfresh m Hne).
    split; [reflexivity|]. split; [reflexivity|].
    intros r Hreport.
    destruct (addMembersToGroup_cases env groupId numbers message m)
      as [(text & m1 & Hcase & Hq)|(m1 & Hq & Hcase)].
    + rewrite Hcase in Hreport. discriminate.
    + rewrite Hcase in Hreport.
      destruct (processBatch_batchRun env groupId numbers message m1)
        as (r' & Hr' & Hran).
      rewrite Hreport in Hr'. injection Hr' as <-.
      destruct (run_numbers _ _ _ _ _ Hran) as (n & Hn & _ & _).
      rewrite (startIndex_quiet _ _ _ Hq), (Hfresh m Hne), drop_0 in Hn.
      exists n. exact Hn.
  - unfold loadBatchData.
    destruct (batchesFile (files m)) as [b|]; [|left; reflexivity].
    destruct (BatchFile.currentBatch b); [left; reflexivity|].
    right. exists b. split; reflexivity.
Qed.

(** A fresh submission of [alice] and [bob] for [exampleGroup], paused
    for ban risk: the group is not stored, and the batch record on disk
    carries [null]. *)
Lemma lastGroupId_only_cleared_witness :
  currentBatchIndex (stats (snd (startBatch exampleGroup [alice; bob]
                                   (machineOf twoFailures)))) = 0%nat /\
  lastGroupId (stats (snd (startBatch exampleGroup [alice; bob]
                             (machineOf twoFailures)))) = None /\
  forall r : Results,
    fst (addMembersToGroup banWorld exampleGroup [alice; bob] ""
           (machineOf twoFailures)) = Report r ->
    exists n : nat, numbersOf r = take n [alice; bob].
Proof.
  apply (lastGroupId_only_cleared banWorld exampleGroup [alice; bob] ""
           (machineOf twoFailures)).
  discriminate.
Defined.

(** ** The two formats of a group identifier *)


Lemma both_formats_are_group_ids :
  isGroupId exampleGroup = true /\ isGroupId exampleLegacyGroup = true /\
  matchesNewerGroupId exampleGroup = true /\
  matchesTraditionalGroupId exampleLegacyGroup = true.
Proof. repeat split. Qed.



(** ** Additions and quotas *)

Lemma incrementAt_lookup (h h' : nat) (counts : list Z) (c : Z) :
  incrementAt h counts !! h' = Some c ->
  (exists c0, counts !! h' = Some c0 /\ (c = c0 \/ c = c0 + 1)).
Proof.
  unfold incrementAt. destruct (counts !! h) as [c0|] eqn:Hh.
  - destruct (decide (h' = h)) as [->|Hne].
    + rewrite list_lookup_insert_eq by (eapply lookup_lt_Some; eassumption).
      intros [= <-]. exists c0. split; [exact Hh | right; reflexivity].
    + rewrite list_lookup_insert_ne by congruence. intros H.
      exists c. split; [exact H | left; reflexivity].
  - intros H. exists c. split; [exact H | left; reflexivity].
Qed.

#[global] Instance sameStats_preorder : PreOrder sameStats.
Proof.
  split.
  - intros m. reflexivity.
  - intros m1 m2 m3 H1 H2. unfold sameStats in *. congruence.
Qed.

Lemma stays_sameSession_sameStats {A : Type} (c : M A) :
  stays sameSession c -> stays sameStats c.
Proof. intros H m. apply (sameSession_stats _ _ (H m)). Qed.

Lemma stays_saveSessionStats_sameStats : stays sameStats saveSessionStats.
Proof. intros m. apply stats_writeFiles. Qed.

#[global] Hint Resolve stays_saveSessionStats_sameStats : stays.

(** Walks a computation that leaves the session object alone. *)
Ltac walk_stats :=
  repeat first
    [ solve [ eauto 3 with stays ]
    | apply stays_sameSession_sameStats; solve [ eauto 3 with stays ]
    | apply stays_ret
    | apply stays_when
    | apply stays_bind; [ | intros ? ]
    | match goal with
      | |- stays _ (if ?c then _ else _) => destruct c
      | |- stays _ (match ?x with _ => _ end) => destruct x
      end ].

Section Triples.

Lemma hoare_ret {A : Type} (P : Machine -> Prop) (Q : A -> Machine -> Prop) (a : A) :
  (forall m, P m -> Q a m) -> hoare P (ret a) Q.
Proof. intros H m Hm. apply H, Hm. Qed.

Lemma hoare_bind {A B : Type} (P : Machine -> Prop) (Q : A -> Machine -> Prop)
    (R : B -> Machine -> Prop) (c : M A) (k : A -> M B) :
  hoare P c Q -> (forall a : A, hoare (Q a) (k a) R) -> hoare P (bind c k) R.
Proof.
  intros Hc Hk m Hm. unfold bind. specialize (Hc m Hm).
  destruct (c m) as [a m1]. apply Hk. exact Hc.
Qed.

Lemma hoare_pre {A : Type} (P P' : Machine -> Prop) (Q : A -> Machine -> Prop)
    (c : M A) :
  (forall m, P m -> P' m) -> hoare P' c Q -> hoare P c Q.
Proof. intros Himp H m Hm. apply H, Himp, Hm. Qed.

Lemma hoare_post {A : Type} (P : Machine -> Prop) (Q Q' : A -> Machine -> Prop)
    (c : M A) :
  (forall a m, Q a m -> Q' a m) -> hoare P c Q -> hoare P c Q'.
Proof. intros Himp H m Hm. apply Himp, H, Hm. Qed.

(** A computation that leaves the session object alone keeps every
    property of it. *)
Lemma hoare_sameStats {A : Type} (S : SessionStats -> Prop) (c : M A) :
  stays sameStats c -> hoare (onStats S) c (fun _ => onStats S).
Proof. intros H m Hm. unfold onStats. rewrite (H m). exact Hm. Qed.

Lemma hoare_getSessionStats (S : SessionStats -> Prop) :
  hoare (onStats S) getSessionStats (fun s m => S s /\ onStats S m).
Proof. intros m Hm. split; exact Hm. Qed.

Lemma hoare_assign (S S' : SessionStats -> Prop) (f : SessionStats -> SessionStats) :
  (forall s, S s -> S' (f s)) -> hoare (onStats S) (assign f) (fun _ => onStats S').
Proof. intros H m Hm. apply H, Hm. Qed.

(** A fact that does not depend on the machine can be used at once. *)
Lemma hoare_fact {A : Type} (F : Prop) (P : Machine -> Prop)
    (Q : A -> Machine -> Prop) (c : M A) :
  (F -> hoare P c Q) -> hoare (fun m => F /\ P m) c Q.
Proof. intros H m [HF Hm]. apply H; assumption. Qed.

End Triples.

Lemma headroom_set_currentBatchIndex (k i : nat) (s : SessionStats) :
  headroom k s -> headroom k (set_currentBatchIndex i s).
Proof. intros [H1 H2 H3 H4]. split; assumption. Qed.

Lemma headroom_after_addition (k h : nat) (s : SessionStats) :
  headroom (S k) s ->
  headroom k
    (set_consecutiveFailures 0
       (set_hourlyAdditionCounts (incrementAt h (hourlyAdditionCounts s))
          (set_addedToday (addedToday s + 1) s))).
Proof.
  intros [H1 H2 H3 H4]. split; cbn; try assumption.
  - lia.
  - intros h' c Hc. destruct (incrementAt_lookup _ _ _ _ Hc) as (c0 & Hc0 & Hcase).
    specialize (H2 h' c0 Hc0). lia.
Qed.

Section Quota.

Variable env : Oracle.
Variable groupId : string.
Variable numbers : list Item.

(** What [recordAddition] does to the session object: one more added
    today, one more in the hour read by [updateHourlyCount], no
    failure in a row. *)
Lemma recordAddition_stats (i : nat) (number : Item) (results : Results)
    (m : Machine) :
  stats (snd (recordAddition env numbers i number results m)) =
    set_consecutiveFailures 0
      (set_hourlyAdditionCounts
         (incrementAt (Z.to_nat (getHours (clock env (clockReads m))))
            (hourlyAdditionCounts (stats m)))
         (set_addedToday (addedToday (stats m) + 1) (stats m))).
Proof.
  unfold recordAddition, updateHourlyCount. run. autorewrite with machine. run.
  destruct (Z.of_nat i <? Z.of_nat (length numbers) - 1); run.
  - match goal with
    | |- context [getSmartDelay env ?x] =>
        pose proof (stays_getSmartDelay env x) as Hd;
        destruct (getSmartDelay env x) as [delay m2]
    end.
    run. run_in Hd. rewrite (sameSession_stats _ _ Hd). run.
    autorewrite with machine. reflexivity.
  - autorewrite with machine. reflexivity.
Qed.

Lemma hoare_recordAddition (k i : nat) (number : Item) (results : Results) :
  hoare (onStats (headroom (S k)))
    (recordAddition env numbers i number results)
    (fun r m =>
       r = pushDetail number "added" "Successfully saved contact and added to group"
             (incrAdded results) /\
       onStats (fun s => headroom k s /\ consecutiveFailures s = 0) m).
Proof.
  intros m Hm. split; [apply recordAddition_returns|].
  unfold onStats. rewrite recordAddition_stats.
  split; [apply headroom_after_addition; exact Hm | reflexivity].
Qed.

Lemma hoare_checkHourlyLimit (k : nat) :
  hoare (onStats (headroom (S k))) (checkHourlyLimit env)
    (fun hourly m => hourly = false /\ onStats (headroom (S k)) m).
Proof.
  intros m Hm. unfold checkHourlyLimit. run. split; [|exact Hm].
  destruct (hourlyAdditionCounts (stats m) !! _) as [c|] eqn:Hc; [|reflexivity].
  apply Z.leb_gt. pose proof (headroom_hourly _ _ Hm _ _ Hc). lia.
Qed.

Lemma hoare_saveContactThenAdd (S : SessionStats -> Prop) (number : Item) :
  (forall mx, exists b, fst (saveContactThenAdd env number groupId mx) = Returned b) ->
  hoare (onStats S) (saveContactThenAdd env number groupId)
    (fun outcome m => (exists b, outcome = Returned b) /\ onStats S m).
Proof.
  intros Hok m Hm. split; [apply Hok|].
  unfold onStats. rewrite (proj1 (saveContactThenAdd_stats env groupId number m)).
  exact Hm.
Qed.

Lemma hoare_checkCircuitBreaker (k : nat) :
  hoare (onStats (fun s => headroom k s /\ consecutiveFailures s = 0))
    (checkCircuitBreaker env)
    (fun tripped m => tripped = false /\ onStats (headroom k) m).
Proof.
  intros m [Hm Hcf].
  destruct (checkCircuitBreaker_armed env m (headroom_armed _ _ Hm))
    as (Hiff & _ & Hsame).
  pose proof (headroom_threshold _ _ Hm) as Hpos.
  destruct (fst (checkCircuitBreaker env m)) eqn:Hb.
  - exfalso. assert (failureThreshold (stats m) <= consecutiveFailures (stats m))
      by (apply Hiff; reflexivity). lia.
  - split; [reflexivity|]. rewrite (Hsame eq_refl). exact Hm.
Qed.

(** A pass of the loop with room left: the item is added. *)
Lemma iteration_added (k i : nat) (number : Item) (results : Results) :
  (forall mx, exists b, fst (saveContactThenAdd env number groupId mx) = Returned b) ->
  hoare (onStats (headroom (S k)))
    (iteration env groupId numbers i number results)
    (fun step m =>
       (exists r' : Results,
          step = Next r' /\ tally [addedDetail number] 1 0 results r') /\
       onStats (headroom k) m).
Proof.
  intros Hok. unfold iteration.
  eapply hoare_bind;
    [apply hoare_assign; intros s Hs; apply headroom_set_currentBatchIndex, Hs|].
  intros ?. cbv beta.
  eapply hoare_bind; [apply hoare_sameStats; walk_stats|]. intros ?. cbv beta.
  eapply hoare_bind; [apply hoare_getSessionStats|]. intros s1. cbv beta zeta.
  apply hoare_fact. intros _.
  eapply hoare_bind; [apply hoare_sameStats; walk_stats|]. intros t. cbv beta.
  eapply hoare_bind; [apply hoare_sameStats; walk_stats|].
  intros ?. cbv beta.
  eapply hoare_bind; [apply hoare_getSessionStats|]. intros s2. cbv beta.
  apply hoare_fact. intros Hs2.
  replace (dailyLimit s2 <=? addedToday s2) with false
    by (symmetry; apply Z.leb_gt; pose proof (headroom_daily _ _ Hs2); lia).
  eapply hoare_bind; [apply hoare_checkHourlyLimit|]. intros hourly. cbv beta.
  apply hoare_fact. intros ->.
  eapply hoare_bind; [apply hoare_saveContactThenAdd, Hok|].
  intros outcome. cbv beta. apply hoare_fact. intros [b ->].
  match goal with
  | |- context [recordAddition env numbers i number ?r] => set (results1 := r)
  end.
  eapply hoare_bind with
    (Q := fun step m =>
            step = Next (pushDetail number "added"
                           "Successfully saved contact and added to group"
                           (incrAdded results1)) /\
            onStats (fun s => headroom k s /\ consecutiveFailures s = 0) m).
  { eapply hoare_bind; [apply hoare_recordAddition|].
    intros r. cbv beta. apply hoare_fact. intros ->.
    apply hoare_ret. intros m Hm. exact (conj eq_refl Hm). }
  intros step. cbv beta. apply hoare_fact. intros ->.
  eapply hoare_bind; [apply hoare_checkCircuitBreaker|].
  intros tripped. cbv beta. apply hoare_fact. intros ->.
  apply hoare_ret. intros m Hm. split; [|exact Hm].
  eexists. split; [reflexivity|].
  subst results1. split; cbn; try reflexivity; lia.
Qed.

(** A pass of the loop once the daily limit is reached: the item is
    skipped, and the loop goes on. *)
Lemma iteration_skipped (i : nat) (number : Item) (results : Results) :
  hoare (onStats (headroom 0))
    (iteration env groupId numbers i number results)
    (fun step m =>
       (exists r' : Results,
          step = Next r' /\ tally [skippedDetail number] 0 1 results r') /\
       onStats (headroom 0) m).
Proof.
  unfold iteration.
  eapply hoare_bind;
    [apply hoare_assign; intros s Hs; apply headroom_set_currentBatchIndex, Hs|].
  intros ?. cbv beta.
  eapply hoare_bind; [apply hoare_sameStats; walk_stats|]. intros ?. cbv beta.
  eapply hoare_bind; [apply hoare_getSessionStats|]. intros s1. cbv beta zeta.
  apply hoare_fact. intros _.
  eapply hoare_bind; [apply hoare_sameStats; walk_stats|]. intros t. cbv beta.
  eapply hoare_bind; [apply hoare_sameStats; walk_stats|].
  intros ?. cbv beta.
  eapply hoare_bind; [apply hoare_getSessionStats|]. intros s2. cbv beta.
  apply hoare_fact. intros Hs2.
  replace (dailyLimit s2 <=? addedToday s2) with true
    by (symmetry; apply Z.leb_le; pose proof (headroom_daily _ _ Hs2); lia).
  apply hoare_ret. intros m Hm. split; [|exact Hm].
  eexists. split; [reflexivity|].
  split; cbn; try reflexivity; lia.
Qed.

Lemma tally_refl (r : Results) : tally [] 0 0 r r.
Proof. split; rewrite ?app_nil_r; try reflexivity; lia. Qed.

Lemma tally_trans (ds1 ds2 : list Detail.t) (a1 a2 k1 k2 : nat)
    (r1 r2 r3 : Results) :
  tally ds1 a1 k1 r1 r2 -> tally ds2 a2 k2 r2 r3 ->
  tally (ds1 ++ ds2) (a1 + a2) (k1 + k2) r1 r3.
Proof.
  intros [D1 A1 K1 F1 S1 M1] [D2 A2 K2 F2 S2 M2].
  split; try congruence.
  - rewrite D2, D1, <- app_assoc. reflexivity.
  - lia.
  - lia.
Qed.

(** The loop under a daily limit: the first [k] items are added, the
    others are skipped, and the loop runs to its end. *)
Lemma forLoop_quota (rest : list Item) :
  forall (k i : nat) (results : Results),
    (forall number mx, In number rest ->
       exists b, fst (saveContactThenAdd env number groupId mx) = Returned b) ->
    hoare (onStats (headroom k))
      (forLoop env groupId numbers i rest results)
      (fun step m =>
         (exists r' : Results,
            step = Next r' /\
            tally (addedThenSkipped k rest) (min k (length rest))
              (length rest - k) results r') /\
         onStats (headroom (k - length rest)) m).
Proof.
  induction rest as [|number rest IH]; intros k i results Hok.
  - cbn [forLoop]. apply hoare_ret. intros m Hm. split.
    + exists results. split; [reflexivity|].
      unfold addedThenSkipped. rewrite take_nil, drop_nil. cbn.
      rewrite Nat.min_0_r. apply tally_refl.
    + cbn. rewrite Nat.sub_0_r. exact Hm.
  - cbn [forLoop]. destruct k as [|k].
    + eapply hoare_bind; [apply iteration_skipped|].
      intros step. cbv beta. apply hoare_fact. intros (r1 & -> & T1).
      eapply hoare_post; [|apply (IH 0%nat); intros; apply Hok; right; assumption].
      intros step m [(r2 & -> & T2) Hm]. split; [|exact Hm].
      exists r2. split; [reflexivity|].
      pose proof (tally_trans _ _ _ _ _ _ _ _ _ T1 T2) as T.
      unfold addedThenSkipped in T |- *.
      rewrite take_0, drop_0, Nat.sub_0_r in T. exact T.
    + eapply hoare_bind; [apply iteration_added; intros; apply Hok; left; reflexivity|].
      intros step. cbv beta. apply hoare_fact. intros (r1 & -> & T1).
      eapply hoare_post; [|apply (IH k); intros; apply Hok; right; assumption].
      intros step m [(r2 & -> & T2) Hm]. split; [|exact Hm].
      exists r2. split; [reflexivity|].
      pose proof (tally_trans _ _ _ _ _ _ _ _ _ T1 T2) as T.
      unfold addedThenSkipped in T |- *. cbn in T |- *. exact T.
Qed.

End Quota.

(** ** The daily limit in the middle of a batch *)

Section DailyLimit.

Variable env : Oracle.

(** A check of the breaker that answers [false] leaves it armed. *)
Lemma checkCircuitBreaker_false_armed (m : Machine) :
  fst (checkCircuitBreaker env m) = false ->
  circuitBreakerTripped (stats (snd (checkCircuitBreaker env m))) = false.
Proof.
  intros Hfalse. destruct (circuitBreakerTripped (stats m)) eqn:Htripped.
  - destruct (checkCircuitBreaker_tripped env m Htripped) as (_ & Hreset & _).
    apply Hreset, Hfalse.
  - destruct (checkCircuitBreaker_armed env m Htripped) as (_ & _ & Hsame).
    rewrite (Hsame Hfalse). exact Htripped.
Qed.

(** An admitted submission finds the breaker armed. *)
Lemma admission_armed (m : Machine) :
  fst (admission env m) = None ->
  circuitBreakerTripped (stats (snd (admission env m))) = false.
Proof.
  unfold admission. run.
  destruct (isAddingMembers (stats m)); [discriminate|]. run.
  destruct (negb _); run;
    match goal with
    | |- context [checkCircuitBreaker env ?mm] =>
        pose proof (checkCircuitBreaker_false_armed mm) as Harmed;
        destruct (checkCircuitBreaker env mm) as [[|] m2]
    end; run; try discriminate;
    unfold checkHourlyLimit; run;
    repeat match goal with
           | |- context [if ?b then _ else _] => destruct b
           | |- context [match ?o with Some _ => _ | None => _ end] => destruct o
           end; run; try discriminate; intros _; apply Harmed; reflexivity.
Qed.

(** The verification of the group changes at most the count of
    failures in a row. *)
Lemma verifyGroup_stats (groupId : string) (m : Machine) :
  let s' := stats (snd (verifyGroup env groupId m)) in
  s' = stats m \/
  s' = set_consecutiveFailures (consecutiveFailures (stats m) + 1) (stats m).
Proof.
  unfold verifyGroup. destruct (matchesNewerGroupId groupId); run;
    destruct (client env _ _) as [[|]|e]; run; auto.
Qed.

Lemma headroom_set_consecutiveFailures (k : nat) (n : Z) (s : SessionStats) :
  headroom k s -> headroom k (set_consecutiveFailures n s).
Proof. intros [H1 H2 H3 H4]. split; assumption. Qed.

Lemma hoare_startBatch (k : nat) (groupId : string) (numbers : list Item) :
  hoare (onStats (fun s => headroom k s /\ startIndex groupId s = 0%nat))
    (startBatch groupId numbers)
    (fun results m =>
       results = initialResults numbers /\
       onStats (fun s => headroom k s /\ currentBatchIndex s = 0%nat) m).
Proof.
  intros m [[H1 H2 H3 H4] Hstart]. unfold startBatch, onStats, startIndex in *.
  run.
  destruct ((0 <? length (currentBatch (stats m)))%nat &&
            bool_decide (lastGroupId (stats m) = Some groupId));
    run; (split; [reflexivity|]); (split; [split; assumption|]);
    [exact Hstart | reflexivity].
Qed.

Lemma hoare_finishBatch (P : Machine -> Prop) (groupId message : string)
    (results : Results) :
  hoare P (finishBatch env groupId message results)
    (fun step _ => step = Return results).
Proof. intros m _. apply finishBatch_spec. Qed.

(** A batch taken from its first item with [k] additions left today:
    the first [k] items are added, the others are skipped, and the loop
    runs to its end. *)
Lemma processBatch_quota (k : nat) (groupId : string) (numbers : list Item)
    (message : string) :
  allAddsSucceed env groupId numbers ->
  hoare (onStats (fun s => headroom k s /\ startIndex groupId s = 0%nat))
    (processBatch env groupId numbers message)
    (fun reply _ =>
       exists r : Results,
         reply = Report r /\
         tally (addedThenSkipped k numbers) (min k (length numbers))
           (length numbers - k) (initialResults numbers) r).
Proof.
  intros Hok. unfold processBatch.
  eapply hoare_bind; [apply hoare_startBatch|].
  intros results. cbv beta. apply hoare_fact. intros ->.
  eapply hoare_bind with
    (Q := fun step _ =>
            exists r : Results,
              step = Return r /\
              tally (addedThenSkipped k numbers) (min k (length numbers))
                (length numbers - k) (initialResults numbers) r).
  - unfold tryBlock.
    eapply hoare_bind; [apply hoare_getSessionStats|].
    intros s. cbv beta zeta. apply hoare_fact. intros [_ ->].
    rewrite drop_0.
    eapply hoare_bind.
    { eapply hoare_pre;
        [|apply (forLoop_quota env groupId numbers numbers k 0
                   (initialResults numbers))].
      - intros m Hm. exact (proj1 Hm).
      - intros number mx Hin. apply Hok, Hin. }
    intros step. cbv beta. apply hoare_fact. intros (r & -> & T).
    eapply hoare_post; [|apply hoare_finishBatch].
    cbv beta. intros step m ->. exists r. split; [reflexivity | exact T].
  - intros step. cbv beta.
    eapply hoare_bind with (Q := fun _ _ => exists r : Results,
              step = Return r /\
              tally (addedThenSkipped k numbers) (min k (length numbers))
                (length numbers - k) (initialResults numbers) r).
    + intros m Hm. exact Hm.
    + intros ?. cbv beta. apply hoare_ret.
      intros m (r & -> & T). exists r. split; [reflexivity | exact T].
Qed.

End DailyLimit.

(** C9.  A submission is admitted ([admission] answers with no refusal,
    leaving the machine [admitted]) and its group passes the verification.
    At admission five additions are left today
    ([dailyLimit - addedToday = 5]), every hour has room for five more
    additions, so that the hourly limit does not come into play, the
    threshold of the breaker is above 0, and the batch is taken from its
    first item (no batch of this group is stored with a cursor past 0).  The
    batch has seven items and every call of [saveContactThenAdd] on one of
    them returns.  Then the submission reports, with [success] still true,
    [added = 5], [failed = 0] and [skipped = 2]; the details are, in the
    order of the list, the first five items as added and then the sixth and
    the seventh as skipped for the daily limit: the loop went on to its end
    past the exhausted limit. *)
Theorem daily_limit_skips (env : Oracle) (groupId : string)
    (numbers : list Item) (message : string) (m : Machine) :
  let admitted := snd (admission env m) in
  fst (admission env m) = None ->
  fst (verifyGroup env groupId admitted) = None ->
  dailyLimit (stats admitted) - addedToday (stats admitted) = 5 ->
  (forall (h : nat) (c : Z),
     hourlyAdditionCounts (stats admitted) !! h = Some c ->
     c + 5 <= hourlyLimit (stats admitted)) ->
  0 < failureThreshold (stats admitted) ->
  startIndex groupId (stats admitted) = 0%nat ->
  length numbers = 7%nat ->
  allAddsSucceed env groupId numbers ->
  exists r : Results,
    fst (addMembersToGroup env groupId numbers message m) = Report r /\
    success r = true /\
    added r = 5%nat /\ failed r = 0%nat /\ skipped r = 2%nat /\
    details r =
      (map addedDetail (take 5 numbers) ++ map skippedDetail (drop 5 numbers))%list.
Proof.
  cbv zeta. intros Hadmitted Hverified Hdaily Hhourly Hthreshold Hstart Hlen Hok.
  pose proof (admission_armed env m Hadmitted) as Harmed.
  assert (Hroom : headroom 5 (stats (snd (admission env m))))
    by (split; assumption).
  unfold addMembersToGroup, bind.
  destruct (admission env m) as [refused m1]. cbn [fst snd] in *. subst refused.
  pose proof (verifyGroup_stats env groupId m1) as Hstats. cbv zeta in Hstats.
  destruct (verifyGroup env groupId m1) as [invalid m2]. cbn [fst snd] in *.
  subst invalid.
  destruct (processBatch_quota env 5 groupId numbers message Hok m2)
    as (r & Hr & [D A K F S _]).
  { unfold onStats. destruct Hstats as [-> | ->]; [split; assumption|].
    split; [apply headroom_set_consecutiveFailures, Hroom | exact Hstart]. }
  exists r. split; [exact Hr|].
  rewrite Hlen in A, K. cbn in A, K.
  repeat split; assumption.
Qed.

(** Seven numbers submitted in the calm world with five additions left
    today: five are added, and the last two, in the order of the list,
    are skipped. *)
Lemma daily_limit_skips_witness :
  exists r : Results,
    fst (addMembersToGroup calmWorld exampleGroup sevenItems "" (machineOf fiveLeft))
      = Report r /\
    added r = 5%nat /\ failed r = 0%nat /\ skipped r = 2%nat /\
    details r =
      [addedDetail alice; addedDetail bob; addedDetail carol; addedDetail dave;
       addedDetail erin; skippedDetail frank; skippedDetail grace].
Proof.
  destruct (daily_limit_skips calmWorld exampleGroup sevenItems ""
              (machineOf fiveLeft))
    as (r & Hr & _ & A & F & K & D).
  - vm_compute. reflexivity.
  - vm_compute. reflexivity.
  - vm_compute. reflexivity.
  - replace (stats (snd (admission calmWorld (machineOf fiveLeft))))
      with fiveLeft by (vm_compute; reflexivity).
    change (hourlyAdditionCounts fiveLeft) with (replicate 24 0).
    change (hourlyLimit fiveLeft) with 1000.
    intros h c Hc.
    apply list_elem_of_lookup_2 in Hc. apply elem_of_replicate in Hc.
    destruct Hc as [-> _]. lia.
  - vm_compute. reflexivity.
  - vm_compute. reflexivity.
  - reflexivity.
  - intros number mx Hin.
    repeat (destruct Hin as [<-|Hin]; [eexists; vm_compute; reflexivity|]).
    destruct Hin.
  - exists r. repeat split; assumption.
Defined.

(** ** The quotas across one pass of the loop *)

Lemma incrementAt_lookup_cases (h h' : nat) (counts : list Z) (c : Z) :
  incrementAt h counts !! h' = Some c ->
  counts !! h' = Some c \/
  (h' = h /\ exists c0 : Z, counts !! h = Some c0 /\ c = c0 + 1).
Proof.
  unfold incrementAt. destruct (counts !! h) as [c0|] eqn:Hh; [|auto].
  destruct (decide (h' = h)) as [->|Hne].
  - rewrite list_lookup_insert_eq by (eapply lookup_lt_Some; eassumption).
    intros [= <-]. right. split; [reflexivity|]. exists c0. auto.
  - rewrite list_lookup_insert_ne by congruence. auto.
Qed.

#[global] Instance sameQuota_preorder : PreOrder sameQuota.
Proof.
  split.
  - intros m. split; reflexivity.
  - intros m1 m2 m3 [] []. split; congruence.
Qed.

#[global] Instance sameClock_preorder : PreOrder sameClock.
Proof.
  split.
  - intros m. split; reflexivity.
  - intros m1 m2 m3 [] []. split; congruence.
Qed.

Lemma stays_sameStats_sameQuota {A : Type} (c : M A) :
  stays sameStats c -> stays sameQuota c.
Proof. intros H m. specialize (H m). unfold sameStats in H. split; congruence. Qed.

(** An assignment that does not touch the counters or the limits. *)
Lemma stays_assign_sameQuota (f : SessionStats -> SessionStats) :
  (forall s, addedToday (f s) = addedToday s) ->
  (forall s, dailyLimit (f s) = dailyLimit s) ->
  (forall s, hourlyAdditionCounts (f s) = hourlyAdditionCounts s) ->
  (forall s, hourlyLimit (f s) = hourlyLimit s) ->
  stays sameQuota (assign f).
Proof. intros H1 H2 H3 H4 m. split; cbn; auto. Qed.

(** Walks a computation that leaves the quotas alone. *)
Ltac walk_quota :=
  repeat first
    [ apply stays_sameStats_sameQuota; solve [ walk_stats ]
    | apply stays_ret
    | apply stays_when
    | apply stays_bind; [ | intros ? ]
    | apply stays_assign_sameQuota; intros ?;
      repeat (match goal with
              | |- context [match ?x with _ => _ end] => destruct x
              end);
      reflexivity
    | match goal with
      | |- stays _ (if ?c then _ else _) => destruct c
      | |- stays _ (match ?x with _ => _ end) => destruct x
      end ].

Section QuotaFrames.

Variable env : Oracle.

Lemma stays_checkCircuitBreaker_sameQuota : stays sameQuota (checkCircuitBreaker env).
Proof. unfold checkCircuitBreaker, resetCircuitBreaker. walk_quota. Qed.

Lemma stays_handleAddFailure_sameQuota (number : Item) (err : JsError)
    (results : Results) :
  stays sameQuota (handleAddFailure env number err results).
Proof. unfold handleAddFailure, updateFailedNumber. walk_quota. Qed.

End QuotaFrames.

(** What does not read the clock. *)

Lemma sameClock_getSessionStats : stays sameClock getSessionStats.
Proof. intros m. reflexivity. Qed.

Lemma sameClock_mathRandom (env : Oracle) : stays sameClock (mathRandom env).
Proof. intros m. split; reflexivity. Qed.

Lemma sameClock_call (env : Oracle) (c : ClientCall) : stays sameClock (call env c).
Proof. intros m. split; reflexivity. Qed.

Lemma sameClock_sleep (ms : Q) : stays sameClock (sleep ms).
Proof. intros m. split; reflexivity. Qed.

Lemma sameClock_saveSessionStats : stays sameClock saveSessionStats.
Proof.
  intros m. split; [apply stats_writeFiles | apply clockReads_writeFiles].
Qed.

Create HintDb clock.
#[global] Hint Resolve sameClock_getSessionStats sameClock_mathRandom
  sameClock_call sameClock_sleep sameClock_saveSessionStats : clock.

Ltac walk_clock :=
  repeat first
    [ solve [ eauto 3 with clock ]
    | apply stays_ret
    | apply stays_when
    | apply stays_bind; [ | intros ? ]
    | match goal with
      | |- stays _ (if ?c then _ else _) => destruct c
      | |- stays _ (match ?x with _ => _ end) => destruct x
      end ].

Section Clock.

Variable env : Oracle.

Lemma sameClock_checkRegistered (left : nat) (formattedNumber : string) :
  stays sameClock (checkRegistered env left formattedNumber).
Proof. induction left as [|left IH]; cbn [checkRegistered]; walk_clock. Qed.

Lemma sameClock_fetchContact (left : nat) (formattedNumber : string) :
  stays sameClock (fetchContact env left formattedNumber).
Proof. induction left as [|left IH]; cbn [fetchContact]; walk_clock. Qed.

Lemma sameClock_addWithRetry (left : nat) (groupId formattedNumber : string) :
  stays sameClock (addWithRetry env left groupId formattedNumber).
Proof. induction left as [|left IH]; cbn [addWithRetry]; walk_clock. Qed.

(** [saveContactThenAdd] leaves the session object alone and does not
    read the clock. *)
Lemma sameClock_saveContactThenAdd (number : Item) (groupId : string) :
  stays sameClock (saveContactThenAdd env number groupId).
Proof.
  pose proof sameClock_checkRegistered. pose proof sameClock_fetchContact.
  pose proof sameClock_addWithRetry.
  unfold saveContactThenAdd. apply stays_bind.
  - intros m. split; reflexivity.
  - intros ?. walk_clock.
Qed.

End Clock.

Section ClockedTriples.

Variable env : Oracle.

Lemma hoare_getSessionStats_eq (P : Machine -> Prop) :
  hoare P getSessionStats (fun s m => stats m = s /\ P m).
Proof. intros m Hm. split; [reflexivity | exact Hm]. Qed.

Lemma hoare_sameClock {A : Type} (k : nat) (S : SessionStats -> Prop) (c : M A) :
  stays sameClock c -> hoare (clocked k S) c (fun _ => clocked k S).
Proof.
  intros H m [Hs Hk]. destruct (H m) as [Es Ek]. unfold clocked.
  rewrite Es, Ek. split; assumption.
Qed.

Lemma hoare_clocked_assign (k : nat) (S S' : SessionStats -> Prop)
    (f : SessionStats -> SessionStats) :
  (forall s, S s -> S' (f s)) ->
  hoare (clocked k S) (assign f) (fun _ => clocked k S').
Proof. intros H m [Hs Hk]. split; [apply H, Hs | exact Hk]. Qed.

Lemma hoare_clocked_newDate (k : nat) (S : SessionStats -> Prop) :
  hoare (clocked k S) (newDate env)
    (fun d m => d = clock env k /\ clocked (Datatypes.S k) S m).
Proof.
  intros m [Hs Hk]. cbn. rewrite Hk. split; [reflexivity|].
  split; [exact Hs | reflexivity].
Qed.

(** The check of the hourly limit reads the clock once; when it answers
    [false], the counter of the hour it read is below the limit. *)
Lemma hoare_clocked_checkHourlyLimit (k : nat) (S : SessionStats -> Prop) :
  hoare (clocked k S) (checkHourlyLimit env)
    (fun hourly =>
       clocked (Datatypes.S k)
         (fun s =>
            S s /\
            (hourly = false ->
             forall c : Z,
               hourlyAdditionCounts s !! Z.to_nat (getHours (clock env k)) = Some c ->
               c < hourlyLimit s))).
Proof.
  intros m [Hs Hk]. unfold checkHourlyLimit. run. rewrite Hk.
  split; [|reflexivity]. split; [exact Hs|].
  intros Hfalse c Hc. run. run_in Hc. rewrite Hc in Hfalse.
  apply Z.leb_gt in Hfalse. exact Hfalse.
Qed.

Lemma hoare_forget_clock {A : Type} (k : nat) (S : SessionStats -> Prop)
    (c : M A) (Q : A -> Machine -> Prop) :
  hoare (onStats S) c Q -> hoare (clocked k S) c Q.
Proof. intros H m [Hs _]. apply H, Hs. Qed.

Lemma hoare_sameQuota {A : Type} (G : Prop) (c : M A) :
  stays sameQuota c -> hoare (onStats (inQuota G)) c (fun _ => onStats (inQuota G)).
Proof.
  intros H m (Hd & H0 & Hh). destruct (H m) as [E1 E2 E3 E4].
  unfold onStats, inQuota. rewrite E1, E2, E3, E4.
  repeat split; assumption.
Qed.

End ClockedTriples.

Lemma inQuota_set_currentBatchIndex (G : Prop) (i : nat) (s : SessionStats) :
  inQuota G s -> inQuota G (set_currentBatchIndex i s).
Proof. intros H. exact H. Qed.

(** The counter of an hour set back to 0, as after the wait for the
    next hour. *)
Lemma inQuota_reset_hour (G : Prop) (h : nat) (s : SessionStats) :
  inQuota G s ->
  inQuota G (set_hourlyAdditionCounts (<[h := 0]> (hourlyAdditionCounts s)) s).
Proof.
  intros (Hd & H0 & Hh). split; [|split]; cbn; try assumption.
  intros HG h' c Hc. apply list_lookup_insert_Some in Hc.
  destruct Hc as [(_ & <- & _)|(_ & Hc)]; [exact H0 | eapply Hh; eassumption].
Qed.

(** One addition recorded in the hour [h'], with additions left today
    and the counter of the hour [h] below the limit: the hourly bounds are
    kept when [h'] is [h]. *)
Lemma inQuota_after_addition (G : Prop) (h h' : nat) (s : SessionStats) :
  inQuota G s ->
  addedToday s < dailyLimit s ->
  (forall c : Z, hourlyAdditionCounts s !! h = Some c -> c < hourlyLimit s) ->
  (G -> h' = h) ->
  inQuota G
    (set_consecutiveFailures 0
       (set_hourlyAdditionCounts (incrementAt h' (hourlyAdditionCounts s))
          (set_addedToday (addedToday s + 1) s))).
Proof.
  intros (Hd & H0 & Hh) Hleft Hroom Hsame.
  split; [|split]; cbn; try assumption; [lia|].
  intros HG h'' c Hc. rewrite (Hsame HG) in Hc.
  destruct (incrementAt_lookup_cases _ _ _ _ Hc) as [Hc0|(-> & c0 & Hc0 & ->)].
  - eapply Hh; eassumption.
  - specialize (Hroom c0 Hc0). lia.
Qed.

Section KeepsQuota.

Variable env : Oracle.
Variable groupId : string.
Variable numbers : list Item.

(** One pass of the loop, from a machine whose clock was read [k]
    times: the daily bound is kept, and so are the hourly bounds when the
    hour read by [updateHourlyCount] is the hour read by
    [checkHourlyLimit]. *)
Lemma iteration_quota (k i : nat) (number : Item) (results : Results) :
  let G := getHours (clock env (S (S k))) = getHours (clock env (S k)) in
  hoare (clocked k (inQuota G)) (iteration env groupId numbers i number results)
    (fun _ => onStats (inQuota G)).
Proof.
  intros G. unfold iteration.
  eapply hoare_bind;
    [apply hoare_clocked_assign; intros s Hs;
     apply inQuota_set_currentBatchIndex, Hs|].
  intros ?. cbv beta.
  eapply hoare_bind; [apply hoare_sameClock; walk_clock|]. intros ?. cbv beta.
  eapply hoare_bind; [apply hoare_getSessionStats_eq|]. intros s1. cbv beta zeta.
  eapply hoare_pre; [intros m Hm; exact (proj2 Hm)|].
  eapply hoare_bind; [apply hoare_clocked_newDate|]. intros t. cbv beta.
  apply hoare_fact. intros _.
  eapply hoare_bind; [apply hoare_sameClock; walk_clock|]. intros ?. cbv beta.
  eapply hoare_bind; [apply hoare_getSessionStats_eq|]. intros s2. cbv beta.
  destruct (dailyLimit s2 <=? addedToday s2) eqn:Hdaily.
  { apply hoare_ret. intros m [_ [Hm _]]. exact Hm. }
  apply Z.leb_gt in Hdaily.
  eapply hoare_pre with
    (P' := clocked (S k) (fun s => inQuota G s /\ addedToday s < dailyLimit s)).
  { intros m [<- [Hm Hk]]. split; [split; assumption | exact Hk]. }
  eapply hoare_bind; [apply hoare_clocked_checkHourlyLimit|].
  intros hourly. cbv beta. destruct hourly.
  { apply hoare_forget_clock.
    eapply hoare_pre with (P' := onStats (inQuota G));
      [intros m Hm; apply Hm|].
    eapply hoare_bind; [apply hoare_sameStats; walk_stats|]. intros now. cbv beta zeta.
    eapply hoare_bind with (Q := fun _ => onStats (inQuota G));
      [|intros ?; apply hoare_ret; intros m Hm; exact Hm].
    destruct (0 <? nextHourOf now - now); unfold when;
      [|apply hoare_ret; intros m Hm; exact Hm].
    eapply hoare_bind; [apply hoare_sameStats; walk_stats|]. intros ?. cbv beta.
    eapply hoare_bind; [apply hoare_sameStats; walk_stats|]. intros d. cbv beta zeta.
    apply hoare_assign. intros s Hs. apply inQuota_reset_hour, Hs. }
  eapply hoare_bind; [apply hoare_sameClock, sameClock_saveContactThenAdd|].
  intros outcome. cbv beta.
  eapply hoare_bind with (Q := fun _ => onStats (inQuota G)).
  - destruct outcome as [added|err].
    + eapply hoare_bind with (Q := fun _ => onStats (inQuota G));
        [|intros ?; apply hoare_ret; intros m Hm; exact Hm].
      intros m [[[Hq Hleft] Hroom] Hreads]. unfold onStats.
      rewrite recordAddition_stats, Hreads.
      apply inQuota_after_addition with
        (h := Z.to_nat (getHours (clock env (S k))));
        [exact Hq | exact Hleft | apply Hroom; reflexivity|].
      intros HG. unfold G in HG. rewrite HG. reflexivity.
    + apply hoare_forget_clock.
      eapply hoare_pre with (P' := onStats (inQuota G));
        [intros m Hm; apply Hm|].
      apply hoare_sameQuota, stays_handleAddFailure_sameQuota.
  - intros step. cbv beta.
    assert (Hkeep : forall r, hoare (onStats (inQuota G)) (ret (A := Step) r)
                                (fun _ => onStats (inQuota G)))
      by (intros r; apply hoare_ret; intros m Hm; exact Hm).
    destruct step as [r|r|e r]; try apply Hkeep.
    eapply hoare_bind;
      [apply hoare_sameQuota, stays_checkCircuitBreaker_sameQuota|].
    intros tripped. cbv beta. destruct tripped; [|apply Hkeep].
    eapply hoare_bind; [apply hoare_sameStats; walk_stats|]. intros ?. apply Hkeep.
Qed.

End KeepsQuota.

(** X1.  What one pass of the loop keeps of the quota bounds.  From a
    machine whose session object is within the bounds
    ([addedToday <= dailyLimit], every hourly counter at most
    [hourlyLimit]), with an hourly limit that is not negative, the pass
    reads the clock for the estimate of completion, then in
    [checkHourlyLimit], then, after the awaited addition, in
    [updateHourlyCount].  Whichever way the pass ends, [addedToday] is at
    most [dailyLimit] after it; and if the second and the third reading of
    the clock fall in the same hour, every hourly counter is at most
    [hourlyLimit] after it. *)
Theorem quota_kept_within_an_hour (env : Oracle) (groupId : string)
    (numbers : list Item) (i : nat) (number : Item) (results : Results)
    (m : Machine) :
  withinQuota (stats m) ->
  0 <= hourlyLimit (stats m) ->
  let m' := snd (iteration env groupId numbers i number results m) in
  addedToday (stats m') <= dailyLimit (stats m') /\
  (getHours (clock env (S (S (clockReads m)))) =
     getHours (clock env (S (clockReads m))) ->
   withinQuota (stats m')).
Proof.
  intros [Hd Hh] H0. cbv zeta.
  destruct (iteration_quota env groupId numbers (clockReads m) i number results m)
    as (Hd' & _ & Hh').
  { split; [|reflexivity]. split; [exact Hd|]. split; [exact H0|].
    intros _. exact Hh. }
  split; [exact Hd'|]. intros Hhour. split; [exact Hd' | exact (Hh' Hhour)].
Qed.

(** A pass on one number in the calm world, from the defaults. *)
Lemma quota_kept_within_an_hour_witness :
  withinQuota
    (stats (snd (iteration calmWorld exampleGroup [alice] 0 alice
                   (initialResults [alice]) (machineOf defaultStats)))).
Proof.
  apply (quota_kept_within_an_hour calmWorld exampleGroup [alice] 0 alice
           (initialResults [alice]) (machineOf defaultStats)).
  - split; [vm_compute; discriminate|].
    intros h c Hc. change (hourlyAdditionCounts (stats (machineOf defaultStats)))
      with (replicate 24 0) in Hc.
    apply list_elem_of_lookup_2 in Hc. apply elem_of_replicate in Hc.
    destruct Hc as [-> _]. vm_compute. discriminate.
  - vm_compute. discriminate.
  - vm_compute. reflexivity.
Defined.

(** C1.  The bounds do not hold after every recorded addition: the
    counter incremented is the one of the hour read by [updateHourlyCount],
    after the awaited addition, and not the one [checkHourlyLimit] compared
    with the limit.  The session object [fullFirstHour] is within the bounds,
    with the counter of hour 0 at the hourly limit of 1000.  In
    [midnightWorld] a submission of one number is admitted at 23:59:56, its
    pass of the loop finds the counter of hour 23 below the limit at 23:59:59,
    the number is added, and the increment falls at 00:00:00: the submission
    reports one addition and leaves the counter of hour 0 at 1001, above the
    hourly limit, which is still 1000. *)
Theorem hourly_count_passes_limit_at_midnight :
  withinQuota fullFirstHour /\
  (exists r : Results,
     fst (addMembersToGroup midnightWorld exampleGroup [alice] ""
            (machineOf fullFirstHour)) = Report r /\
     added r = 1%nat) /\
  hourlyAdditionCounts
    (stats (snd (addMembersToGroup midnightWorld exampleGroup [alice] ""
                   (machineOf fullFirstHour)))) !! 0%nat = Some 1001 /\
  hourlyLimit
    (stats (snd (addMembersToGroup midnightWorld exampleGroup [alice] ""
                   (machineOf fullFirstHour)))) = 1000.
Proof.
  split; [|split; [|split]].
  - split; [vm_compute; discriminate|].
    intros h c Hc. change (hourlyLimit fullFirstHour) with 1000.
    change (hourlyAdditionCounts fullFirstHour) with (1000 :: replicate 23 0) in Hc.
    destruct h as [|h]; [injection Hc as <-; lia|].
    cbn [lookup list_lookup] in Hc.
    apply list_elem_of_lookup_2 in Hc. apply elem_of_replicate in Hc.
    destruct Hc as [-> _]. lia.
  - eexists. split; [vm_compute; reflexivity | reflexivity].
  - vm_compute. reflexivity.
  - vm_compute. reflexivity.
Qed.

(** ** Saving a contact, then adding it: the protocol *)

Lemma talked_refl (c : ClientCall) (m : Machine) : talked c 0 m m.
Proof.
  split; try reflexivity.
  - rewrite Nat.add_0_r. reflexivity.
  - cbn. rewrite app_nil_r. reflexivity.
  - exists []. rewrite app_nil_r. repeat split; [cbn; lia | constructor].
Qed.

Lemma talked_trans (c : ClientCall) (n1 n2 : nat) (m1 m2 m3 : Machine) :
  talked c n1 m1 m2 -> talked c n2 m2 m3 -> talked c (n1 + n2) m1 m3.
Proof.
  intros [S1 F1 C1 D1 N1 L1 A1 (ws1 & W1 & B1 & R1)]
         [S2 F2 C2 D2 N2 L2 A2 (ws2 & W2 & B2 & R2)].
  split; try congruence.
  - lia.
  - rewrite L2, L1, <- app_assoc, replicate_add. reflexivity.
  - exists (ws1 ++ ws2)%list. rewrite W2, W1, <- app_assoc, length_app.
    repeat split; [lia | apply Forall_app; split; assumption].
Qed.

Lemma isRetryWait_retryWait (err : JsError) : isRetryWait (retryWait err).
Proof.
  unfold isRetryWait, retryWait. destruct (errMessage err) as [msg|]; [|auto].
  destruct (negb (msg =? "")%string && includes msg "Execution context was destroyed");
    auto.
Qed.

Section Protocol.

Variable env : Oracle.

(** One call, answered. *)
Lemma talked_call (c : ClientCall) (m : Machine) :
  talked c 1 m (snd (call env c m)).
Proof.
  split; try reflexivity.
  - cbn. lia.
  - exists []. rewrite app_nil_r. repeat split; [cbn; lia | constructor].
Qed.

(** One call, rejected, and the wait that follows it. *)
Lemma talked_call_sleep (c : ClientCall) (err : JsError) (m : Machine) :
  talked c 1 m (snd (sleep (retryWait err) (snd (call env c m)))).
Proof.
  split; try reflexivity.
  - cbn. lia.
  - exists [retryWait err]. split; [reflexivity|]. split; [cbn; lia|].
    constructor; [apply isRetryWait_retryWait | constructor].
Qed.

(** The registration check: at most [left] calls, the last of them the
    one that decides. *)
Lemma checkRegistered_spec (formattedNumber : string) (left : nat) :
  forall (m m' : Machine) (out : Completion bool),
    (0 < left)%nat ->
    checkRegistered env left formattedNumber m = (out, m') ->
    let c := isRegisteredUser formattedNumber in
    exists n : nat,
      (1 <= n <= left)%nat /\ talked c n m m' /\
      match out with
      | Returned b => client env (clientCalls m + n - 1) c = Resolve b
      | Thrown e =>
          n = left /\
          exists err : JsError,
            client env (clientCalls m + n - 1) c = Reject err /\
            e = newError
                  ("Failed to check if number is registered after 3 attempts: "
                   ++ messageText err)
      end.
Proof.
  induction left as [|left IH]; intros m m' out Hpos Hrun; [lia|]. cbv zeta.
  cbn [checkRegistered] in Hrun. unfold bind in Hrun.
  pose proof (talked_call (isRegisteredUser formattedNumber) m) as Hcall.
  destruct (call env (isRegisteredUser formattedNumber) m) as [r m1] eqn:Ecall.
  assert (Er : client env (clientCalls m) (isRegisteredUser formattedNumber) = r)
    by (injection Ecall as <- _; reflexivity).
  cbn [snd] in Hcall. destruct r as [b|err].
  - injection Hrun as <- <-. exists 1%nat. split; [lia|]. split; [exact Hcall|].
    rewrite <- Er. f_equal. lia.
  - pose proof (talked_call_sleep (isRegisteredUser formattedNumber) err m) as Hwait.
    rewrite Ecall in Hwait. cbn [snd] in Hwait.
    destruct (sleep (retryWait err) m1) as [[] m2].
    cbn [snd] in Hwait. destruct left as [|left].
    + injection Hrun as <- <-. exists 1%nat.
      split; [lia|]. split; [exact Hwait|]. split; [reflexivity|].
      exists err. split; [|reflexivity]. rewrite <- Er. f_equal. lia.
    + destruct (IH m2 m' out ltac:(lia) Hrun) as (n & Hn & Htalk & Hout).
      exists (1 + n)%nat. split; [lia|].
      split; [eapply talked_trans; eassumption|].
      rewrite (talked_count _ _ _ _ Hwait) in Hout.
      replace (clientCalls m + (1 + n) - 1)%nat with (clientCalls m + 1 + n - 1)%nat
        by lia.
      destruct out as [b|e]; [exact Hout|].
      destruct Hout as [-> Hout]. split; [reflexivity | exact Hout].
Qed.

(** The fetch of the contact: at most [left] calls, and no error. *)
Lemma fetchContact_spec (formattedNumber : string) (left : nat) :
  forall m : Machine,
    exists n : nat,
      (n <= left)%nat /\
      talked (getContactById formattedNumber) n m
        (snd (fetchContact env left formattedNumber m)).
Proof.
  induction left as [|left IH]; intros m.
  - exists 0%nat. split; [lia | apply talked_refl].
  - cbn [fetchContact]. unfold bind.
    pose proof (talked_call (getContactById formattedNumber) m) as Hcall.
    destruct (call env (getContactById formattedNumber) m) as [r m1] eqn:Ecall.
    cbn [snd] in Hcall. destruct r as [b|err].
    + exists 1%nat. split; [lia | exact Hcall].
    + pose proof (talked_call_sleep (getContactById formattedNumber) err m) as Hwait.
      rewrite Ecall in Hwait. cbn [snd] in Hwait.
      destruct (sleep (retryWait err) m1) as [[] m2]. cbn [snd] in Hwait.
      destruct (IH m2) as (n & Hn & Htalk).
      exists (1 + n)%nat. split; [lia | eapply talked_trans; eassumption].
Qed.

(** The addition: at most [left] calls; it returns [true] after a call
    that resolved, and throws the error of the last call otherwise. *)
Lemma addWithRetry_spec (groupId formattedNumber : string) (left : nat) :
  forall (m m' : Machine) (out : Completion bool),
    (0 < left)%nat ->
    addWithRetry env left groupId formattedNumber m = (out, m') ->
    let c := addParticipants groupId formattedNumber in
    exists n : nat,
      (1 <= n <= left)%nat /\ talked c n m m' /\
      match out with
      | Returned b =>
          b = true /\ exists v, client env (clientCalls m + n - 1) c = Resolve v
      | Thrown e =>
          n = left /\ client env (clientCalls m + n - 1) c = Reject e
      end.
Proof.
  induction left as [|left IH]; intros m m' out Hpos Hrun; [lia|]. cbv zeta.
  cbn [addWithRetry] in Hrun. unfold bind in Hrun.
  pose proof (talked_call (addParticipants groupId formattedNumber) m) as Hcall.
  destruct (call env (addParticipants groupId formattedNumber) m) as [r m1] eqn:Ecall.
  assert (Er : client env (clientCalls m) (addParticipants groupId formattedNumber) = r)
    by (injection Ecall as <- _; reflexivity).
  cbn [snd] in Hcall. destruct r as [b|err].
  - injection Hrun as <- <-. exists 1%nat. split; [lia|]. split; [exact Hcall|].
    split; [reflexivity|]. exists b. rewrite <- Er. f_equal. lia.
  - pose proof (talked_call_sleep (addParticipants groupId formattedNumber) err m)
      as Hwait.
    rewrite Ecall in Hwait. cbn [snd] in Hwait.
    destruct (sleep (retryWait err) m1) as [[] m2].
    cbn [snd] in Hwait. destruct left as [|left].
    + injection Hrun as <- <-. exists 1%nat.
      split; [lia|]. split; [exact Hwait|]. split; [reflexivity|].
      rewrite <- Er. f_equal. lia.
    + destruct (IH m2 m' out ltac:(lia) Hrun) as (n & Hn & Htalk & Hout).
      exists (1 + n)%nat. split; [lia|].
      split; [eapply talked_trans; eassumption|].
      rewrite (talked_count _ _ _ _ Hwait) in Hout.
      replace (clientCalls m + (1 + n) - 1)%nat with (clientCalls m + 1 + n - 1)%nat
        by lia.
      destruct out as [b|e]; [exact Hout|].
      destruct Hout as [-> Hout]. split; [reflexivity | exact Hout].
Qed.

(** The anatomy of [saveContactThenAdd] on a number that validates: the
    registration check, then, when the number is registered, the fetch of
    the contact, the human pause and the addition. *)
Lemma saveContactThenAdd_anatomy (number : Item) (groupId : string)
    (v : Validation) (m m' : Machine) (out : Completion bool) :
  validatePhoneNumber number = Returned v ->
  isValid v = true ->
  saveContactThenAdd env number groupId m = (out, m') ->
  let f := formattedOr v "null" in
  exists (a : nat) (m1 : Machine),
    (1 <= a <= 3)%nat /\
    talked (isRegisteredUser f) a (emit (Attempt number groupId) m) m1 /\
    ((a = 3%nat /\ m' = m1 /\
      exists err : JsError,
        client env (clientCalls m + a - 1) (isRegisteredUser f) = Reject err /\
        out = Thrown (newError
                ("Failed to check if number is registered after 3 attempts: "
                 ++ messageText err))) \/
     (client env (clientCalls m + a - 1) (isRegisteredUser f) = Resolve false /\
      m' = m1 /\ out = Thrown (newError "Number not registered on WhatsApp")) \/
     (client env (clientCalls m + a - 1) (isRegisteredUser f) = Resolve true /\
      exists (b c : nat) (m2 : Machine),
        (b <= 3)%nat /\ talked (getContactById f) b m1 m2 /\
        (1 <= c <= 3)%nat /\
        talked (addParticipants groupId f) c (snd (humanPause env m2)) m' /\
        match out with
        | Returned r =>
            r = true /\
            exists w, client env (clientCalls m2 + c - 1)
                        (addParticipants groupId f) = Resolve w
        | Thrown e =>
            c = 3%nat /\
            client env (clientCalls m2 + c - 1) (addParticipants groupId f) = Reject e
        end)).
Proof.
  intros Hv Hvalid Hrun. cbv zeta.
  unfold saveContactThenAdd in Hrun. rewrite Hv, Hvalid in Hrun.
  cbn [negb] in Hrun. unfold bind at 1 in Hrun. cbv beta iota in Hrun.
  unfold bind at 1 in Hrun.
  destruct (checkRegistered env maxRetries (formattedOr v "null")
              (emit (Attempt number groupId) m)) as [registered m1] eqn:Ereg.
  destruct (checkRegistered_spec _ _ _ _ _ (Nat.lt_0_succ 2) Ereg)
    as (a & Ha & Htalk & Hreg).
  change (clientCalls (emit (Attempt number groupId) m)) with (clientCalls m) in Hreg.
  unfold maxRetries in Ha.
  exists a, m1. split; [exact Ha|]. split; [exact Htalk|].
  destruct registered as [[|]|e].
  - right. right. split; [exact Hreg|]. cbn [negb] in Hrun.
    unfold bind at 1 in Hrun.
    destruct (fetchContact_spec (formattedOr v "null") maxRetries m1)
      as (b & Hb & Hfetch).
    destruct (fetchContact env maxRetries (formattedOr v "null") m1) as [[] m2].
    cbn [snd] in Hfetch.
    change (addWithRetry env maxRetries groupId (formattedOr v "null")
              (snd (humanPause env m2)) = (out, m')) in Hrun.
    destruct (addWithRetry_spec _ _ _ _ _ _ (Nat.lt_0_succ 2) Hrun)
      as (c & Hc & Hadd & Hout).
    change (clientCalls (snd (humanPause env m2))) with (clientCalls m2) in Hout.
    exists b, c, m2. unfold maxRetries in Hb, Hc, Hout.
    split; [exact Hb|]. split; [exact Hfetch|]. split; [exact Hc|].
    split; [exact Hadd | exact Hout].
  - right. left. cbn [negb] in Hrun. injection Hrun as <- <-.
    repeat split; assumption.
  - left. injection Hrun as <- <-. destruct Hreg as (-> & err & Herr & ->).
    split; [reflexivity|]. split; [reflexivity|]. exists err. split; [exact Herr | reflexivity].
Qed.

End Protocol.

Lemma callsOf_emit_Attempt (number : Item) (groupId : string) (m : Machine) :
  callsOf (events (emit (Attempt number groupId) m)) = callsOf (events m).
Proof. reflexivity. Qed.

(** X2.  The calls [saveContactThenAdd] makes on the client.  For a
    number that validates, with [f] its formatted form: between one and
    three calls of [isRegisteredUser f], then at most three of
    [getContactById f], then at most three of [addParticipants groupId f],
    in that order and nothing else, so at most nine calls; the contact is
    fetched or added only when the last registration check resolved with
    [true].  For a number that does not validate (or is not a string),
    nothing happens but the throw: no call, no wait, no draw. *)
Theorem saveContactThenAdd_call_order (env : Oracle) (number : Item)
    (groupId : string) (m : Machine) :
  let out := fst (saveContactThenAdd env number groupId m) in
  let m' := snd (saveContactThenAdd env number groupId m) in
  match validatePhoneNumber number with
  | Returned v =>
      if isValid v then
        let f := formattedOr v "null" in
        exists a b c : nat,
          (1 <= a <= 3)%nat /\ (b <= 3)%nat /\ (c <= 3)%nat /\
          callsOf (events m') =
            (callsOf (events m) ++
             replicate a (isRegisteredUser f) ++
             replicate b (getContactById f) ++
             replicate c (addParticipants groupId f))%list /\
          clientCalls m' = (clientCalls m + (a + b + c))%nat /\
          ((0 < b + c)%nat ->
           client env (clientCalls m + a - 1) (isRegisteredUser f) = Resolve true)
      else
        out = Thrown (newError (validationReason v)) /\
        m' = emit (Attempt number groupId) m
  | Thrown e => out = Thrown e /\ m' = emit (Attempt number groupId) m
  end.
Proof.
  cbv zeta.
  destruct (validatePhoneNumber number) as [v|e] eqn:Hv.
  2: { unfold saveContactThenAdd. rewrite Hv. split; reflexivity. }
  destruct (isValid v) eqn:Hvalid.
  2: { unfold saveContactThenAdd. rewrite Hv, Hvalid. split; reflexivity. }
  destruct (saveContactThenAdd env number groupId m) as [out m'] eqn:Hrun.
  cbn [fst snd].
  destruct (saveContactThenAdd_anatomy env number groupId v m m' out Hv Hvalid Hrun)
    as (a & m1 & Ha & Hreg & Hcases).
  pose proof (talked_calls _ _ _ _ Hreg) as Lreg.
  pose proof (talked_count _ _ _ _ Hreg) as Nreg.
  rewrite callsOf_emit_Attempt in Lreg.
  change (clientCalls (emit (Attempt number groupId) m)) with (clientCalls m) in Nreg.
  destruct Hcases as [(_ & -> & _)|[(_ & -> & _)|(Hyes & b & c & m2 & Hb & Hget & Hc & Hadd & _)]].
  - exists a, 0%nat, 0%nat. cbn [replicate]. rewrite !app_nil_r.
    repeat split; try lia; try assumption.
  - exists a, 0%nat, 0%nat. cbn [replicate]. rewrite !app_nil_r.
    repeat split; try lia; try assumption.
  - exists a, b, c.
    pose proof (talked_calls _ _ _ _ Hget) as Lget.
    pose proof (talked_count _ _ _ _ Hget) as Nget.
    pose proof (talked_calls _ _ _ _ Hadd) as Ladd.
    pose proof (talked_count _ _ _ _ Hadd) as Nadd.
    change (callsOf (events (snd (humanPause env m2)))) with (callsOf (events m2)) in Ladd.
    change (clientCalls (snd (humanPause env m2))) with (clientCalls m2) in Nadd.
    split; [exact Ha|]. split; [exact Hb|]. split; [lia|].
    split; [|split; [lia | intros _; exact Hyes]].
    rewrite Ladd, Lget, Lreg, <- !app_assoc. reflexivity.
Qed.


Lemma totalSleep_app (ws1 ws2 : list Q) :
  (totalSleep (ws1 ++ ws2) == totalSleep ws1 + totalSleep ws2)%Q.
Proof.
  unfold totalSleep. induction ws1 as [|w ws1 IH]; cbn [app fold_right].
  - symmetry. apply Qplus_0_l.
  - rewrite IH. apply Qplus_assoc.
Qed.

Lemma totalSleep_retries (ws : list Q) (n : nat) :
  Forall isRetryWait ws -> (length ws <= n)%nat ->
  (totalSleep ws <= inject_Z (5000 * Z.of_nat n))%Q.
Proof.
  intros Hws. revert n. induction Hws as [|w ws Hw _ IH]; intros n Hn.
  - cbn. change 0%Q with (inject_Z 0). rewrite <- Zle_Qle. lia.
  - destruct n as [|n]; [cbn in Hn; lia|]. cbn in Hn.
    specialize (IH n ltac:(lia)). cbn [totalSleep fold_right].
    unfold totalSleep in IH.
    replace (5000 * Z.of_nat (S n)) with (5000 + 5000 * Z.of_nat n) by lia.
    rewrite inject_Z_plus.
    apply Qplus_le_compat; [|exact IH].
    destruct Hw as [-> | ->]; apply Qle_bool_iff; reflexivity.
Qed.

Lemma humanPause_bound (r : Q) :
  (0 <= r)%Q -> (r < 1)%Q ->
  (inject_Z (500 + Qfloor (r * 1500)) < 2000)%Q.
Proof.
  intros H0 H1. change 2000%Q with (inject_Z 2000). rewrite <- Zlt_Qlt.
  assert (0 <= Qfloor (r * 1500) < 1500); [|lia].
  apply Qfloor_between;
    [change (inject_Z 0) with 0%Q | change (inject_Z 1500) with 1500%Q]; nra.
Qed.

(** X4.  The waits of [saveContactThenAdd]: at most ten of them (one
    after each rejected call, and the human pause), and, the draw being in
    [0, 1), less than 47 seconds in all. *)
Theorem saveContactThenAdd_waits (env : Oracle) (number : Item)
    (groupId : string) (m : Machine) :
  let m' := snd (saveContactThenAdd env number groupId m) in
  let r := random env (randomDraws m) in
  exists ws : list Q,
    sleepsOf (events m') = (sleepsOf (events m) ++ ws)%list /\
    (length ws <= 10)%nat /\
    (randomDraws m' <= randomDraws m + 1)%nat /\
    ((0 <= r)%Q -> (r < 1)%Q -> (totalSleep ws < 47000)%Q).
Proof.
  cbv zeta.
  assert (Hnone : forall out,
            saveContactThenAdd env number groupId m =
              (out, emit (Attempt number groupId) m) ->
            exists ws : list Q,
              sleepsOf (events (snd (saveContactThenAdd env number groupId m))) =
                (sleepsOf (events m) ++ ws)%list /\
              (length ws <= 10)%nat /\
              (randomDraws (snd (saveContactThenAdd env number groupId m))
                 <= randomDraws m + 1)%nat /\
              ((0 <= random env (randomDraws m))%Q ->
               (random env (randomDraws m) < 1)%Q -> (totalSleep ws < 47000)%Q)).
  { intros out ->. exists []. cbn. rewrite app_nil_r.
    repeat split; try lia. }
  destruct (validatePhoneNumber number) as [v|e0] eqn:Hv.
  2: { eapply Hnone. unfold saveContactThenAdd. rewrite Hv. reflexivity. }
  destruct (isValid v) eqn:Hvalid.
  2: { eapply Hnone. unfold saveContactThenAdd. rewrite Hv, Hvalid. reflexivity. }
  clear Hnone.
  destruct (saveContactThenAdd env number groupId m) as [out m'] eqn:Hrun.
  cbn [fst snd].
  destruct (saveContactThenAdd_anatomy env number groupId v m m' out Hv Hvalid Hrun)
    as (a & m1 & Ha & Hreg & Hcases).
  destruct (talked_sleeps _ _ _ _ Hreg) as (ws1 & W1 & B1 & R1).
  pose proof (talked_draws _ _ _ _ Hreg) as D1.
  change (sleepsOf (events (emit (Attempt number groupId) m)))
    with (sleepsOf (events m)) in W1.
  change (randomDraws (emit (Attempt number groupId) m)) with (randomDraws m) in D1.
  assert (Hshort : m' = m1 ->
            exists ws : list Q,
              sleepsOf (events m') = (sleepsOf (events m) ++ ws)%list /\
              (length ws <= 10)%nat /\
              (randomDraws m' <= randomDraws m + 1)%nat /\
              ((0 <= random env (randomDraws m))%Q ->
               (random env (randomDraws m) < 1)%Q -> (totalSleep ws < 47000)%Q)).
  { intros ->. exists ws1. split; [exact W1|]. split; [lia|]. split; [lia|].
    intros _ _. eapply Qle_lt_trans; [apply (totalSleep_retries ws1 3 R1); lia|].
    reflexivity. }
  destruct Hcases as [(_ & E & _)|[(_ & E & _)|(_ & b & c & m2 & Hb & Hget & Hc & Hadd & _)]];
    [exact (Hshort E) | exact (Hshort E) | clear Hshort].
  destruct (talked_sleeps _ _ _ _ Hget) as (ws2 & W2 & B2 & R2).
  destruct (talked_sleeps _ _ _ _ Hadd) as (ws3 & W3 & B3 & R3).
  pose proof (talked_draws _ _ _ _ Hget) as D2.
  pose proof (talked_draws _ _ _ _ Hadd) as D3.
  change (sleepsOf (events (snd (humanPause env m2))))
    with (sleepsOf (events m2) ++
          [inject_Z (500 + Qfloor (random env (randomDraws m2) * 1500))])%list in W3.
  change (randomDraws (snd (humanPause env m2))) with (S (randomDraws m2)) in D3.
  rewrite D2, D1 in W3.
  exists (ws1 ++ ws2 ++
          [inject_Z (500 + Qfloor (random env (randomDraws m) * 1500))] ++ ws3)%list.
  split; [rewrite W3, W2, W1, <- !app_assoc; reflexivity|].
  split; [rewrite !length_app; cbn [length]; lia|].
  split; [lia|].
  intros H0 H1. rewrite !totalSleep_app.
  pose proof (totalSleep_retries ws1 3 R1 ltac:(lia)) as T1.
  pose proof (totalSleep_retries ws2 3 R2 ltac:(lia)) as T2.
  pose proof (totalSleep_retries ws3 3 R3 ltac:(lia)) as T3.
  pose proof (humanPause_bound _ H0 H1) as T4.
  change (inject_Z (5000 * Z.of_nat 3)) with 15000%Q in T1, T2, T3.
  cbn [totalSleep fold_right].
  generalize dependent (inject_Z (500 + Qfloor (random env (randomDraws m) * 1500))).
  intros h _ T4. unfold totalSleep in *. lra.
Qed.

(** ** Phone numbers *)

Lemma stripNonDigits_digits (s : string) :
  Forall (fun c => isDigit c = true) (list_ascii_of_string (stripNonDigits s)).
Proof.
  induction s as [|c s IH]; cbn.
  - constructor.
  - destruct (isDigit c) eqn:Hc; [|exact IH]. cbn. constructor; assumption.
Qed.

Lemma stripNonDigits_fixpoint (s : string) :
  Forall (fun c => isDigit c = true) (list_ascii_of_string s) ->
  stripNonDigits s = s.
Proof.
  induction s as [|c s IH]; cbn; intros H; [reflexivity|].
  inversion H as [|? ? Hc Hs]; subst. rewrite Hc, (IH Hs). reflexivity.
Qed.

Lemma stripNonDigits_idempotent (s : string) :
  stripNonDigits (stripNonDigits s) = stripNonDigits s.
Proof. apply stripNonDigits_fixpoint, stripNonDigits_digits. Qed.

(** X5.  [validatePhoneNumber] on a string looks at its digits only.
    With [d] the digits of the string, in order: the number is valid exactly
    when [d] has 10 to 15 digits and is not made of zeros only; a valid
    number is formatted as [d] followed by [@c.us], so the formatted number
    has no character but digits before the suffix, and an invalid one has no
    formatted form; and the string [d] itself validates to the same result,
    so spaces, signs and punctuation in the input make no difference. *)
Theorem validatePhoneNumber_digits (s : string) :
  let d := stripNonDigits s in
  exists v : Validation,
    validatePhoneNumber (ItemString s) = Returned v /\
    (isValid v = true <->
     (10 <= String.length d <= 15)%nat /\ allZeros d = false) /\
    formatted v = (if isValid v then Some (d ++ "@c.us") else None) /\
    Forall (fun c => isDigit c = true) (list_ascii_of_string d) /\
    validatePhoneNumber (ItemString d) = Returned v.
Proof.
  cbv zeta. unfold validatePhoneNumber. rewrite stripNonDigits_idempotent.
  pose proof (stripNonDigits_digits s) as Hd.
  destruct ((String.length (stripNonDigits s) <? 10)%nat ||
            (15 <? String.length (stripNonDigits s))%nat) eqn:Hlen.
  - eexists. split; [reflexivity|]. cbn. split; [|auto].
    split; [discriminate|]. intros [Hrange _]. exfalso.
    apply orb_true_iff in Hlen. destruct Hlen as [H|H]; apply Nat.ltb_lt in H; lia.
  - apply orb_false_iff in Hlen. destruct Hlen as [H1 H2].
    apply Nat.ltb_ge in H1, H2. unfold onlyZeros.
    assert (Hten : (10 <=? String.length (stripNonDigits s))%nat = true)
      by (apply Nat.leb_le; exact H1).
    rewrite Hten. cbn [andb].
    destruct (allZeros (stripNonDigits s)) eqn:Hz.
    + eexists. split; [reflexivity|]. cbn. split; [|auto].
      split; [discriminate | intros [_ H]; discriminate].
    + eexists. split; [reflexivity|]. cbn. split; [|auto].
      split; [intros _; split; [lia | reflexivity] | reflexivity].
Qed.

(** ** A restart: what the files bring back *)

Lemma statsFile_writeFiles (m : Machine) :
  statsFile (files (writeFiles m)) =
    Some (StatsFile.mk (addedToday (stats m)) (lastDateReset (stats m))
            (hourlyAdditionCounts (stats m)) (circuitBreakerTripped (stats m))
            (circuitBreakerResetTime (stats m))).
Proof. unfold writeFiles. destruct (currentBatch (stats m)); reflexivity. Qed.

Lemma failedNumbersFile_writeFiles (m : Machine) :
  failedNumbersFile (files (writeFiles m)) = Some (failedNumbers (stats m)).
Proof. unfold writeFiles. destruct (currentBatch (stats m)); reflexivity. Qed.

Section Restart.

Variable env : Oracle.

(** The process that saved ended in the machine [saved]; the new
    process starts in the machine [fresh], with the files of [saved] and a
    session object of its own. *)
Variable saved fresh : Machine.
Hypothesis same_files : files fresh = files (writeFiles saved).

Let k : nat := clockReads fresh.

(** The calendar day changed since the save. *)
Let newDay : bool :=
  negb (lastDateReset (stats saved) =? toDateString (clock env k)).

(** The reading of the clock that is compared with the reset time. *)
Let checkedAt : Z := clock env (if newDay then S (S k) else S k).

(** The saved breaker was tripped and its reset time has passed. *)
Let expired : bool :=
  circuitBreakerTripped (stats saved) &&
  match circuitBreakerResetTime (stats saved) with
  | Some resetTime => resetTime <? checkedAt
  | None => false
  end.

Let loaded : SessionStats := fst (initializeDataStorage env fresh).

Ltac load_step :=
  first
    [ progress run
    | rewrite same_files
    | rewrite statsFile_writeFiles
    | rewrite failedNumbersFile_writeFiles
    | rewrite batchesFile_writeFiles
    | progress cbn [StatsFile.addedToday StatsFile.lastDateReset
                    StatsFile.hourlyAdditionCounts StatsFile.circuitBreakerTripped
                    StatsFile.circuitBreakerResetTime BatchFile.currentBatch
                    BatchFile.currentBatchIndex BatchFile.lastGroupId
                    statsFile failedNumbersFile batchesFile] ].

(** The session object after [initializeDataStorage], field by field. *)
Lemma initializeDataStorage_loaded :
  (addedToday loaded = if newDay then 0 else addedToday (stats saved)) /\
  (hourlyAdditionCounts loaded =
     if newDay then replicate 24 0 else hourlyAdditionCounts (stats saved)) /\
  (lastDateReset loaded =
     if newDay then toDateString (clock env (S k)) else lastDateReset (stats saved)) /\
  (circuitBreakerTripped loaded =
     circuitBreakerTripped (stats saved) && negb expired) /\
  (circuitBreakerResetTime loaded =
     if expired then None else circuitBreakerResetTime (stats saved)) /\
  (consecutiveFailures loaded =
     if expired then 0 else consecutiveFailures (stats fresh)) /\
  failedNumbers loaded = failedNumbers (stats saved) /\
  (currentBatch (stats saved) <> [] ->
   currentBatch loaded = currentBatch (stats saved) /\
   currentBatchIndex loaded = currentBatchIndex (stats saved) /\
   lastGroupId loaded = lastGroupId (stats saved)) /\
  minDelay loaded = minDelay (stats fresh) /\
  maxDelay loaded = maxDelay (stats fresh) /\
  dailyLimit loaded = dailyLimit (stats fresh) /\
  hourlyLimit loaded = hourlyLimit (stats fresh) /\
  maxBatchSize loaded = maxBatchSize (stats fresh) /\
  patternVariation loaded = patternVariation (stats fresh) /\
  isAddingMembers loaded = isAddingMembers (stats fresh).
Proof.
  unfold loaded, expired, checkedAt, newDay, k.
  unfold initializeDataStorage, loadSessionStats, loadFailedNumbers, loadBatchData.
  unfold bind at 1 2 3. rewrite same_files, statsFile_writeFiles. repeat load_step.
  destruct (negb (lastDateReset (stats saved) =? toDateString (clock env (clockReads fresh))));
    repeat load_step;
    destruct (circuitBreakerTripped (stats saved)); repeat load_step;
    destruct (circuitBreakerResetTime (stats saved)) as [resetTime|];
    repeat load_step;
    try (match goal with
         | |- context [?t <? clock env ?n] => destruct (t <? clock env n)
         end; repeat load_step);
    destruct (currentBatch (stats saved)) as [|number numbers] eqn:Hbatch;
    repeat load_step;
    try (destruct (batchesFile (files saved)) as [[[|? ?] ? ?]|]; repeat load_step);
    repeat split; try reflexivity; try congruence.
Qed.

End Restart.

(** X6.  A restart on the same day.  A process saves its session
    ([saveSessionStats]) and a new process starts with the files it left
    and runs [initializeDataStorage] on the calendar day of the saved
    [lastDateReset], with the saved breaker either armed or not yet due for
    its reset.  The new session object then has the saved [addedToday],
    [lastDateReset], [hourlyAdditionCounts], breaker flag, breaker reset time
    and failed numbers, and, when a batch was in memory at the save, the
    saved batch, cursor and group. *)
Theorem restart_round_trip (env : Oracle) (saved fresh : Machine) :
  files fresh = files (writeFiles saved) ->
  lastDateReset (stats saved) = toDateString (clock env (clockReads fresh)) ->
  (forall t : Z,
     circuitBreakerTripped (stats saved) = true ->
     circuitBreakerResetTime (stats saved) = Some t ->
     clock env (S (clockReads fresh)) <= t) ->
  let loaded := fst (initializeDataStorage env fresh) in
  addedToday loaded = addedToday (stats saved) /\
  lastDateReset loaded = lastDateReset (stats saved) /\
  hourlyAdditionCounts loaded = hourlyAdditionCounts (stats saved) /\
  circuitBreakerTripped loaded = circuitBreakerTripped (stats saved) /\
  circuitBreakerResetTime loaded = circuitBreakerResetTime (stats saved) /\
  failedNumbers loaded = failedNumbers (stats saved) /\
  (currentBatch (stats saved) <> [] ->
   currentBatch loaded = currentBatch (stats saved) /\
   currentBatchIndex loaded = currentBatchIndex (stats saved) /\
   lastGroupId loaded = lastGroupId (stats saved)).
Proof.
  intros Hfiles Hday Hearly. cbv zeta.
  pose proof (initializeDataStorage_loaded env saved fresh Hfiles) as H.
  cbv zeta in H. apply Z.eqb_eq in Hday. rewrite Hday in H. cbn [negb] in H.
  assert (Hnot : circuitBreakerTripped (stats saved) &&
                 match circuitBreakerResetTime (stats saved) with
                 | Some resetTime => resetTime <? clock env (S (clockReads fresh))
                 | None => false
                 end = false).
  { destruct (circuitBreakerTripped (stats saved)) eqn:Ht; [|reflexivity].
    destruct (circuitBreakerResetTime (stats saved)) as [t|] eqn:Hr; [|reflexivity].
    cbn [andb]. apply Z.ltb_ge. apply (Hearly t); reflexivity. }
  rewrite Hnot in H. cbn [negb] in H. rewrite andb_true_r in H.
  destruct H as (H1 & H2 & H3 & H4 & H5 & _ & H7 & H8 & _).
  repeat split; try assumption; intros; apply H8; assumption.
Qed.

(** X7.  What a restart resets and what it does not bring back.  After
    [initializeDataStorage] on the files a process saved: on another
    calendar day than the saved [lastDateReset], [addedToday] is 0, the
    hourly counts are 24 zeros and [lastDateReset] is the day read; a saved
    breaker whose reset time is before the reading of the clock that checks
    it comes back armed, with no reset time and no failure in a row; and the
    delays, the limits, the batch size and the pattern flag are those of the
    new session object, whatever they were at the save: they are not in the
    files. *)
Theorem restart_resets (env : Oracle) (saved fresh : Machine) :
  files fresh = files (writeFiles saved) ->
  let k := clockReads fresh in
  let sameDay := lastDateReset (stats saved) =? toDateString (clock env k) in
  let loaded := fst (initializeDataStorage env fresh) in
  (sameDay = false ->
   addedToday loaded = 0 /\
   hourlyAdditionCounts loaded = replicate 24 0 /\
   lastDateReset loaded = toDateString (clock env (S k))) /\
  (forall t : Z,
     circuitBreakerTripped (stats saved) = true ->
     circuitBreakerResetTime (stats saved) = Some t ->
     t < clock env (if sameDay then S k else S (S k)) ->
     circuitBreakerTripped loaded = false /\
     circuitBreakerResetTime loaded = None /\
     consecutiveFailures loaded = 0) /\
  minDelay loaded = minDelay (stats fresh) /\
  maxDelay loaded = maxDelay (stats fresh) /\
  dailyLimit loaded = dailyLimit (stats fresh) /\
  hourlyLimit loaded = hourlyLimit (stats fresh) /\
  maxBatchSize loaded = maxBatchSize (stats fresh) /\
  patternVariation loaded = patternVariation (stats fresh).
Proof.
  intros Hfiles. cbv zeta.
  pose proof (initializeDataStorage_loaded env saved fresh Hfiles) as H.
  cbv zeta in H.
  destruct H as (H1 & H2 & H3 & H4 & H5 & H6 & _ & _ & C1 & C2 & C3 & C4 & C5 & C6 & _).
  split; [|split; [|repeat split; assumption]].
  - intros Hday. rewrite Hday in H1, H2, H3. cbn [negb] in *.
    repeat split; assumption.
  - intros t Ht Hr Hlate. rewrite Ht, Hr in H4, H5, H6.
    assert (Hexp : (t <? clock env
                           (if negb (lastDateReset (stats saved) =?
                                     toDateString (clock env (clockReads fresh)))
                            then S (S (clockReads fresh)) else S (clockReads fresh)))
                   = true).
    { apply Z.ltb_lt.
      destruct (lastDateReset (stats saved) =?
                toDateString (clock env (clockReads fresh))); exact Hlate. }
    rewrite Hexp in H4, H5, H6. cbn in H4, H5, H6. repeat split; assumption.
Qed.

(** A session with a tripped breaker and a batch stopped at index 2 is
    saved, and a new process starts on its files within the same day and
    before the reset time. *)
Lemma restart_round_trip_witness :
  let loaded :=
    fst (initializeDataStorage calmWorld (restartOf (machineOf stoppedStats))) in
  addedToday loaded = 120 /\
  circuitBreakerTripped loaded = true /\
  circuitBreakerResetTime loaded = Some 1001800000 /\
  currentBatch loaded = fourItems /\
  currentBatchIndex loaded = 2%nat.
Proof.
  pose proof (restart_round_trip calmWorld (machineOf stoppedStats)
                (restartOf (machineOf stoppedStats))) as H.
  cbv zeta in H.
  destruct H as (H1 & _ & _ & H4 & H5 & _ & H7).
  - reflexivity.
  - reflexivity.
  - intros t _ [= <-]. vm_compute. discriminate.
  - destruct H7 as (H7 & H8 & _); [discriminate|].
    cbv zeta. repeat split; assumption.
Defined.

(** A session of the day before with a breaker due for its reset is
    saved, and a new process starts on its files. *)
Lemma restart_resets_witness :
  let loaded :=
    fst (initializeDataStorage calmWorld (restartOf (machineOf yesterdayStats))) in
  addedToday loaded = 0 /\
  hourlyAdditionCounts loaded = replicate 24 0 /\
  circuitBreakerTripped loaded = false /\
  minDelay loaded = 30.
Proof.
  pose proof (restart_resets calmWorld (machineOf yesterdayStats)
                (restartOf (machineOf yesterdayStats)) eq_refl) as H.
  cbv zeta in H.
  destruct H as (Hday & Hbreaker & Hmin & _).
  destruct (Hday eq_refl) as (H1 & H2 & _).
  destruct (Hbreaker 999000000 eq_refl eq_refl) as (H3 & _);
    [vm_compute; reflexivity|].
  cbv zeta. repeat split; assumption.
Defined.

(** ** Group identifiers and invitation links *)













Lemma allCode_takeCode (s : string) : allCode (takeCode s) = true.
Proof.
  induction s as [|c s IH]; cbn; [reflexivity|].
  destruct (isCodeChar c) eqn:Hc; cbn; [rewrite Hc; exact IH | reflexivity].
Qed.

Lemma takeCode_allCode (s : string) : allCode s = true -> takeCode s = s.
Proof.
  induction s as [|c s IH]; cbn; [reflexivity|].
  intros H. apply andb_true_iff in H. destruct H as [Hc Hs].
  rewrite Hc, (IH Hs). reflexivity.
Qed.

Lemma matchInviteCode_code (s code : string) :
  matchInviteCode s = Some code -> code <> EmptyString /\ allCode code = true.
Proof.
  induction s as [|x s IH]; cbn [matchInviteCode]; unfold matchInviteCodeHere.
  - cbn. discriminate.
  - destruct (dropPrefixNoCase "chat.whatsapp.com/" (String x s)) as [rest|];
      [|exact IH].
    destruct rest as [|c rest]; cbn [startsWithCode]; [exact IH|].
    destruct (isCodeChar c) eqn:Hc; [|exact IH].
    intros [= <-]. cbn [takeCode]. rewrite Hc. split; [discriminate|].
    cbn. rewrite Hc. apply allCode_takeCode.
Qed.

Lemma extractInviteCode_match (s : string) :
  extractInviteCode s =
    match s with
    | EmptyString => None
    | _ => matchInviteCode (trim s)
    end.
Proof.
  unfold extractInviteCode. destruct s; [reflexivity|]. cbv zeta.
  destruct (String.prefix "http" _); [|reflexivity].
  destruct (matchInviteCode _); reflexivity.
Qed.

Lemma isCodeChar_not_space (c : ascii) : isCodeChar c = true -> isWhiteSpace c = false.
Proof.
  destruct c as [[] [] [] [] [] [] [] []]; vm_compute; intros H;
    first [reflexivity | discriminate H].
Qed.

Lemma trimEnd_code (code : string) :
  allCode code = true -> trimEnd code = code.
Proof.
  induction code as [|c code IH]; [reflexivity|]. cbn.
  intros H. apply andb_true_iff in H. destruct H as [Hc Hs].
  rewrite (IH Hs). destruct code; [|reflexivity].
  rewrite (isCodeChar_not_space _ Hc). reflexivity.
Qed.

Lemma trimEnd_before_code (p code : string) :
  code <> EmptyString -> allCode code = true ->
  trimEnd (p ++ code) = (p ++ code)%string.
Proof.
  intros Hne Hall. induction p as [|c p IH]; cbn [String.append].
  - apply trimEnd_code, Hall.
  - change (String c p ++ code)%string with (String c (p ++ code)).
    change (trimEnd (String c (p ++ code)))
      with (match trimEnd (p ++ code) with
            | EmptyString =>
                if isWhiteSpace c then EmptyString else String c EmptyString
            | String _ _ as t => String c t
            end).
    rewrite IH.
    destruct (p ++ code)%string eqn:E; [|reflexivity].
    exfalso. destruct p; [cbn in E; contradiction | discriminate].
Qed.

(** X9.  The invitation code.  [extractInviteCode] answers with
    nothing but a code that is not empty and made of letters, digits,
    underscores and hyphens.  The link built from such a code, with the
    scheme or without it, in lower or in upper case, is an invitation link
    for [isInvitationLink], and [extractInviteCode] gives the code back as
    it was written. *)
Theorem invite_code_round_trip :
  (forall s code : string,
     extractInviteCode s = Some code ->
     code <> EmptyString /\ allCode code = true) /\
  (forall code : string,
     code <> EmptyString -> allCode code = true ->
     Forall (fun link =>
               isInvitationLink link = true /\ extractInviteCode link = Some code)
       [ "https://chat.whatsapp.com/" ++ code;
         "http://chat.whatsapp.com/" ++ code;
         "chat.whatsapp.com/" ++ code;
         "HTTPS://CHAT.WHATSAPP.COM/" ++ code ]%string).
Proof.
  split.
  - intros s code. rewrite extractInviteCode_match.
    destruct s; [discriminate | apply matchInviteCode_code].
  - intros code Hne Hall.
    assert (Hstart : startsWithCode code = true).
    { destruct code as [|c code]; [contradiction|]. cbn in *.
      apply andb_true_iff in Hall. apply Hall. }
    assert (Hlink : forall p : string,
              trimStart (p ++ code) = (p ++ code)%string ->
              matchInviteCode (p ++ code) =
                (if startsWithCode code then Some (takeCode code) else None) ->
              includes (p ++ code) "chat.whatsapp.com/" = true \/
              matchesInviteUrl (p ++ code) = startsWithCode code && allCode code ->
              p <> EmptyString ->
              isInvitationLink (p ++ code) = true /\
              extractInviteCode (p ++ code) = Some code).
    { intros p Hts Hm Hi Hp.
      rewrite Hstart, (takeCode_allCode _ Hall) in Hm. rewrite Hstart, Hall in Hi.
      assert (Htrim : trim (p ++ code) = (p ++ code)%string)
        by (unfold trim; rewrite Hts; apply trimEnd_before_code; assumption).
      rewrite extractInviteCode_match. unfold isInvitationLink.
      destruct (p ++ code)%string eqn:E.
      { destruct p; [contradiction | discriminate]. }
      rewrite <- E in *. cbv zeta. rewrite Htrim. split; [|exact Hm].
      apply orb_true_iff. exact Hi. }
    destruct code as [|c code']; [contradiction|].
    constructor; [|constructor; [|constructor; [|constructor; [|constructor]]]].
    + apply Hlink; [reflexivity | | left; vm_compute; reflexivity | discriminate].
      change (matchInviteCode ("https://chat.whatsapp.com/" ++ String c code'))
        with (match (if startsWithCode (String c code')
                     then Some (takeCode (String c code')) else None) with
              | Some found => Some found
              | None => matchInviteCode ("hat.whatsapp.com/" ++ String c code')
              end).
      rewrite Hstart. reflexivity.
    + apply Hlink; [reflexivity | | left; vm_compute; reflexivity | discriminate].
      change (matchInviteCode ("http://chat.whatsapp.com/" ++ String c code'))
        with (match (if startsWithCode (String c code')
                     then Some (takeCode (String c code')) else None) with
              | Some found => Some found
              | None => matchInviteCode ("hat.whatsapp.com/" ++ String c code')
              end).
      rewrite Hstart. reflexivity.
    + apply Hlink; [reflexivity | | left; vm_compute; reflexivity | discriminate].
      change (matchInviteCode ("chat.whatsapp.com/" ++ String c code'))
        with (match (if startsWithCode (String c code')
                     then Some (takeCode (String c code')) else None) with
              | Some found => Some found
              | None => matchInviteCode ("hat.whatsapp.com/" ++ String c code')
              end).
      rewrite Hstart. reflexivity.
    + apply Hlink; [reflexivity | | right; reflexivity | discriminate].
      change (matchInviteCode ("HTTPS://CHAT.WHATSAPP.COM/" ++ String c code'))
        with (match (if startsWithCode (String c code')
                     then Some (takeCode (String c code')) else None) with
              | Some found => Some found
              | None => matchInviteCode ("HAT.WHATSAPP.COM/" ++ String c code')
              end).
      rewrite Hstart. reflexivity.
Qed.

(** ** The group that was joined *)

Lemma insertByRecent_In (c x : Chat.t) (l : list Chat.t) :
  In x (insertByRecent c l) <-> x = c \/ In x l.
Proof.
  induction l as [|d l IH]; cbn.
  - intuition.
  - destruct (Chat.timestamp d <? Chat.timestamp c); cbn; [intuition|].
    rewrite IH. intuition.
Qed.

Lemma sortByRecent_snoc (l : list Chat.t) (c : Chat.t) :
  sortByRecent (l ++ [c]) = insertByRecent c (sortByRecent l).
Proof. unfold sortByRecent. rewrite fold_left_app. reflexivity. Qed.

Lemma sortByRecent_In (x : Chat.t) (l : list Chat.t) :
  In x (sortByRecent l) <-> In x l.
Proof.
  induction l as [|c l IH] using rev_ind; [reflexivity|].
  rewrite sortByRecent_snoc, insertByRecent_In, IH, in_app_iff. cbn. intuition.
Qed.

Lemma head_insertByRecent (c : Chat.t) (l : list Chat.t) :
  head (insertByRecent c l) =
    match head l with
    | Some d => if Chat.timestamp d <? Chat.timestamp c then Some c else Some d
    | None => Some c
    end.
Proof.
  destruct l as [|d l]; cbn; [reflexivity|].
  destruct (Chat.timestamp d <? Chat.timestamp c); reflexivity.
Qed.

(** The head of the sorted list is the first of the most recent chats
    of the list. *)
Lemma head_sortByRecent (l : list Chat.t) :
  match head (sortByRecent l) with
  | Some g =>
      exists l1 l2 : list Chat.t,
        l = (l1 ++ g :: l2)%list /\
        (forall c, In c l1 -> Chat.timestamp c < Chat.timestamp g) /\
        (forall c, In c l2 -> Chat.timestamp c <= Chat.timestamp g)
  | None => l = []
  end.
Proof.
  induction l as [|c l IH] using rev_ind; [reflexivity|].
  rewrite sortByRecent_snoc, head_insertByRecent.
  destruct (head (sortByRecent l)) as [d|].
  - destruct IH as (l1 & l2 & -> & Hbefore & Hafter).
    destruct (Chat.timestamp d <? Chat.timestamp c) eqn:Hlt.
    + apply Z.ltb_lt in Hlt. exists (l1 ++ d :: l2)%list, [].
      split; [reflexivity|]. split; [|intros ? []].
      intros x Hx. apply in_app_iff in Hx. destruct Hx as [Hx|[<-|Hx]].
      * specialize (Hbefore x Hx). lia.
      * exact Hlt.
      * specialize (Hafter x Hx). lia.
    + apply Z.ltb_ge in Hlt. exists l1, (l2 ++ [c])%list.
      split; [rewrite <- app_assoc; reflexivity|]. split; [exact Hbefore|].
      intros x Hx. apply in_app_iff in Hx. destruct Hx as [Hx|[<-|[]]].
      * apply Hafter, Hx.
      * exact Hlt.
  - subst l. exists [], []. split; [reflexivity|]. split; intros ? [].
Qed.

Section Joined.

Variable env : Oracle.

(** The recent groups are groups of the chats, in the order of the
    chats, each of them less than two minutes old at a reading of the clock;
    the session object and the disk are left alone. *)
Lemma recentGroupsOf_spec (chats : list Chat.t) :
  forall m : Machine,
    let recent := fst (recentGroupsOf env chats m) in
    let m' := snd (recentGroupsOf env chats m) in
    sublist recent (List.filter Chat.isGroup chats) /\
    (forall g, In g recent ->
       exists n : nat, (clockReads m <= n < clockReads m')%nat /\
                       clock env n - 120000 < Chat.timestamp g * 1000) /\
    (clockReads m <= clockReads m')%nat /\
    stats m' = stats m /\ files m' = files m /\ events m' = events m /\
    clientCalls m' = clientCalls m /\ randomDraws m' = randomDraws m.
Proof.
  induction chats as [|chat chats IH]; intros m; cbv zeta.
  - cbn. split; [constructor|]. split; [intros ? []|]. repeat split; lia.
  - cbn [recentGroupsOf List.filter].
    destruct (Chat.isGroup chat); [|apply IH].
    run.
    match goal with
    | |- context [recentGroupsOf env chats ?x] =>
        specialize (IH x); destruct (recentGroupsOf env chats x) as [others m2]
    end.
    cbv zeta in IH. cbn [fst snd] in IH |- *. run_in IH.
    destruct IH as (Hsub & Hrecent & Hreads & Hs & Hf & He & Hc & Hd).
    destruct (clock env (clockReads m) - 120000 <? Chat.timestamp chat * 1000)
      eqn:Hnew; cbn [fst snd].
    + apply Z.ltb_lt in Hnew.
      split; [apply sublist_skip, Hsub|].
      split; [|repeat split; try assumption; lia].
      intros g [<-|Hg].
      * exists (clockReads m). split; [lia | exact Hnew].
      * destruct (Hrecent g Hg) as (n & Hn & Hlt). exists n. split; [lia | exact Hlt].
    + split; [apply sublist_cons, Hsub|].
      split; [|repeat split; try assumption; lia].
      intros g Hg. destruct (Hrecent g Hg) as (n & Hn & Hlt).
      exists n. split; [lia | exact Hlt].
Qed.

End Joined.

Lemma head_Some_In {A : Type} (l : list A) (x : A) : head l = Some x -> In x l.
Proof. destruct l; cbn; [discriminate|]. intros [= ->]. left. reflexivity. Qed.

Lemma filter_isGroup_In (chats : list Chat.t) (c : Chat.t) :
  In c (filter (fun chat => Chat.isGroup chat = true) chats) <->
  In c chats /\ Chat.isGroup c = true.
Proof. rewrite <- !list_elem_of_In, list_elem_of_filter. tauto. Qed.

(** The choice is a group of the chats. *)
Lemma chosen_group_in_chats (env : Oracle) (groupInfo : option InviteInfo.t)
    (chats : list Chat.t) (m : Machine) (g : Chat.t) :
  chooseJoinedGroup groupInfo chats (fst (recentGroupsOf env chats m)) = Some g ->
  In g chats /\ Chat.isGroup g = true.
Proof.
  destruct (recentGroupsOf_spec env chats m) as (Hsub & _).
  set (recent := fst (recentGroupsOf env chats m)) in *.
  assert (Hrecent : forall x, In x recent -> In x chats /\ Chat.isGroup x = true).
  { intros x Hx. apply List.filter_In. apply list_elem_of_In.
    eapply elem_of_sublist; [apply list_elem_of_In, Hx | exact Hsub]. }
  unfold chooseJoinedGroup. destruct recent as [|r recent'].
  - destruct groupInfo as [info|].
    + destruct (truthy (inviteName info)).
      * destruct (filter _ chats) as [|group l] eqn:E.
        -- intros Hg. apply filter_isGroup_In, sortByRecent_In, head_Some_In, Hg.
        -- intros [= <-].
           assert (Hin : group ∈ filter (fun chat => Chat.isGroup chat = true /\
                                           Some (Chat.name chat) = inviteName info) chats)
             by (rewrite E; left).
           apply list_elem_of_filter in Hin. destruct Hin as [[Hgroup _] Hin].
           apply list_elem_of_In in Hin. split; assumption.
      * intros Hg. apply filter_isGroup_In, sortByRecent_In, head_Some_In, Hg.
    + intros Hg. apply filter_isGroup_In, sortByRecent_In, head_Some_In, Hg.
  - intros Hg. apply Hrecent, sortByRecent_In, head_Some_In, Hg.
Qed.

(** No choice is made only when the chats hold no group. *)
Lemma no_choice_without_group (groupInfo : option InviteInfo.t)
    (chats recent : list Chat.t) (c : Chat.t) :
  chooseJoinedGroup groupInfo chats recent = None ->
  In c chats -> Chat.isGroup c = false.
Proof.
  intros Hnone Hc. destruct (Chat.isGroup c) eqn:Hgroup; [|reflexivity].
  exfalso.
  pose proof (head_sortByRecent recent) as Hhr.
  pose proof (head_sortByRecent (filter (fun chat => Chat.isGroup chat = true) chats))
    as Hha.
  assert (Hin : In c (filter (fun chat => Chat.isGroup chat = true) chats))
    by (apply filter_isGroup_In; split; assumption).
  unfold chooseJoinedGroup in Hnone. destruct recent as [|r recent'].
  - destruct groupInfo as [info|].
    + destruct (truthy (inviteName info)).
      * destruct (filter (fun chat => _ /\ _) chats) as [|group l]; [|discriminate].
        rewrite Hnone in Hha. rewrite Hha in Hin. destruct Hin.
      * rewrite Hnone in Hha. rewrite Hha in Hin. destruct Hin.
    + rewrite Hnone in Hha. rewrite Hha in Hin. destruct Hin.
  - rewrite Hnone in Hhr. discriminate.
Qed.


Section InvitationCases.

Variable env : Oracle.
Variable inv : InviteOracle.

(** Before it hands over to [addMembersToGroup], [processGroupInvitation]
    only talks to the client, sleeps and reads the clock. *)
Lemma processGroupInvitation_cases (inviteLink : string) (numbers : list Item)
    (message : string) (m m' : Machine) (reply : Reply) :
  processGroupInvitation env inv inviteLink numbers message m = (reply, m') ->
  (exists text : string,
     reply = Rejected text /\
     stats m' = stats m /\ files m' = files m /\
     attemptsOf (events m') = attemptsOf (events m) /\
     callsOf (events m') = callsOf (events m) /\
     (extractInviteCode inviteLink = None -> m' = m)) \/
  (exists (code : string) (chats : list Chat.t) (g : Chat.t) (m1 : Machine),
     extractInviteCode inviteLink = Some code /\
     acceptInvite inv (S (clientCalls m)) code = Returned true /\
     getChats inv (S (S (clientCalls m))) = Returned chats /\
     In g chats /\ Chat.isGroup g = true /\
     stats m1 = stats m /\ files m1 = files m /\
     events m1 = Sleep 10000 :: events m /\
     addMembersToGroup env (Chat.serializedId g) numbers message m1 = (reply, m')).
Proof.
  unfold processGroupInvitation.
  destruct (extractInviteCode inviteLink) as [code|] eqn:Hcode.
  2: { intros [= <- <-]. left. eexists. split; [reflexivity|]. repeat split. }
  unfold bind at 1 2. unfold ask at 1 2. cbn [fst snd clientCalls].
  destruct (acceptInvite inv (S (clientCalls m)) code) as [[|]|err] eqn:Hjoin;
    cbn [negb].
  - unfold bind at 1 2. unfold sleep at 1. unfold ask at 1.
    cbn [fst snd clientCalls emit stats files clockReads randomDraws events].
    destruct (getChats inv (S (S (clientCalls m)))) as [chats|err] eqn:Hchats.
    + unfold bind at 1.
      match goal with
      | |- context [recentGroupsOf env chats ?x] =>
          set (m0 := x);
          pose proof (recentGroupsOf_spec env chats m0) as Hrecent;
          pose proof (chosen_group_in_chats env
                        (match getInviteInfo inv (clientCalls m) code with
                         | Returned inviteInfo => Some inviteInfo
                         | Thrown _ => None
                         end) chats m0) as Hsound;
          destruct (recentGroupsOf env chats m0) as [recent m1]
      end.
      cbv zeta in Hrecent. cbn [fst snd] in Hrecent, Hsound.
      destruct Hrecent as (_ & _ & _ & Hs & Hf & He & _).
      destruct (chooseJoinedGroup _ chats recent) as [g|].
      * intros Hrun. right. exists code, chats, g, m1.
        destruct (Hsound g eq_refl) as [Hin Hgroup].
        repeat split; try assumption; reflexivity.
      * intros [= <- <-]. left. eexists. split; [reflexivity|].
        rewrite Hs, Hf, He. repeat split. discriminate.
    + intros [= <- <-]. left. eexists. split; [reflexivity|]. repeat split. discriminate.
  - intros [= <- <-]. left. eexists. split; [reflexivity|]. repeat split. discriminate.
  - intros [= <- <-]. left. eexists. split; [reflexivity|]. repeat split. discriminate.
Qed.

End InvitationCases.

Lemma addMembersToGroup_busy (env : Oracle) (groupId : string)
    (numbers : list Item) (message : string) (m : Machine) :
  isAddingMembers (stats m) = true ->
  addMembersToGroup env groupId numbers message m =
    (Rejected "Already adding members to a group", m).
Proof.
  intros Hbusy. unfold addMembersToGroup, admission. run. rewrite Hbusy. reflexivity.
Qed.


Lemma invitationError_not_busy (err : JsError) :
  invitationError err <> Rejected "Already adding members to a group".
Proof.
  unfold invitationError. intros [= H].
Qed.

(** X12.  The invitation is accepted before any check of the
    submission.  While members are being added ([isAddingMembers] is true),
    a submission by invitation link is told so exactly when a code could be
    extracted from the link, [acceptInvite] resolved with a truthy result
    and the chats read afterwards hold a group: the account has joined the
    group by the time the submission is refused, and the session object is
    as it was. *)
Theorem invitation_accepted_before_checks (env : Oracle) (inv : InviteOracle)
    (inviteLink : string) (numbers : list Item) (message : string) (m : Machine) :
  isAddingMembers (stats m) = true ->
  let run := processGroupInvitation env inv inviteLink numbers message m in
  stats (snd run) = stats m /\
  (fst run = Rejected "Already adding members to a group" <->
   exists (code : string) (chats : list Chat.t) (g : Chat.t),
     extractInviteCode inviteLink = Some code /\
     acceptInvite inv (S (clientCalls m)) code = Returned true /\
     getChats inv (S (S (clientCalls m))) = Returned chats /\
     In g chats /\ Chat.isGroup g = true).
Proof.
  intros Hbusy. cbv zeta.
  destruct (processGroupInvitation env inv inviteLink numbers message m)
    as [reply m'] eqn:Hrun. cbn [fst snd].
  revert Hrun. unfold processGroupInvitation.
  destruct (extractInviteCode inviteLink) as [code|] eqn:Hcode.
  2:{ intros [= <- <-]. split; [reflexivity|]. split; [discriminate|].
      intros (? & ? & ? & [=] & _). }
  unfold bind at 1 2. unfold ask at 1 2. cbn [fst snd clientCalls].
  destruct (acceptInvite inv (S (clientCalls m)) code) as [[|]|err] eqn:Hjoin;
    cbn [negb].
  - unfold bind at 1 2. unfold sleep at 1. unfold ask at 1.
    cbn [fst snd clientCalls emit stats files clockReads randomDraws events].
    destruct (getChats inv (S (S (clientCalls m)))) as [chats|err] eqn:Hchats.
    + unfold bind at 1.
      match goal with
      | |- context [recentGroupsOf env chats ?x] =>
          pose proof (chosen_group_in_chats env
                        (match getInviteInfo inv (clientCalls m) code with
                         | Returned inviteInfo => Some inviteInfo
                         | Thrown _ => None
                         end) chats x) as Hsome;
          pose proof (recentGroupsOf_spec env chats x) as Hrecent;
          destruct (recentGroupsOf env chats x) as [recent m1]
      end.
      cbv zeta in Hrecent. cbn [fst snd] in Hrecent, Hsome.
      destruct Hrecent as (_ & _ & _ & Hs1 & _).
      cbn [stats] in Hs1.
      destruct (chooseJoinedGroup _ chats recent) as [g|] eqn:Hchoice.
      * rewrite addMembersToGroup_busy by (rewrite Hs1; exact Hbusy).
        intros [= <- <-]. split; [exact Hs1|]. split; [|reflexivity].
        intros _. destruct (Hsome g eq_refl) as (Hin & Hgroup).
        exists code, chats, g. repeat split; assumption.
      * intros [= <- <-]. split; [exact Hs1|]. split; [discriminate|].
        intros (? & chats' & g & _ & _ & [= <-] & Hin & Hgroup).
        rewrite (no_choice_without_group _ _ _ g Hchoice Hin) in Hgroup.
        discriminate.
    + intros [= <- <-]. split; [reflexivity|]. split.
      * intros H. exfalso. exact (invitationError_not_busy err H).
      * intros (? & ? & ? & _ & _ & [=] & _).
  - intros [= <- <-]. split; [reflexivity|]. split; [discriminate|].
    intros (? & ? & ? & [= <-] & Hj & _). rewrite Hjoin in Hj. discriminate.
  - intros [= <- <-]. split; [reflexivity|]. split.
    + intros H. exfalso. exact (invitationError_not_busy err H).
    + intros (? & ? & ? & [= <-] & Hj & _). rewrite Hjoin in Hj. discriminate.
Qed.

(** A busy session is sent a link that the client accepts, the account
    being in one group. *)
Lemma invitation_accepted_before_checks_witness :
  let run := processGroupInvitation calmWorld openDoor exampleLink [alice] ""
               (machineOf busyStats) in
  stats (snd run) = busyStats /\
  (fst run = Rejected "Already adding members to a group" <->
   exists (code : string) (chats : list Chat.t) (g : Chat.t),
     extractInviteCode exampleLink = Some code /\
     acceptInvite openDoor 1 code = Returned true /\
     getChats openDoor 2 = Returned chats /\
     In g chats /\ Chat.isGroup g = true).
Proof.
  apply (invitation_accepted_before_checks calmWorld openDoor exampleLink
           [alice] "" (machineOf busyStats)).
  reflexivity.
Defined.

(** ** The routes *)

Lemma noStoredGroup_quiet (m m' : Machine) :
  noStoredGroup m -> quiet m m' -> noStoredGroup m'.
Proof.
  intros [Hg Hf] Hq. split.
  - rewrite (quiet_group _ _ Hq). exact Hg.
  - intros b Hb. destruct (quiet_file _ _ Hq) as [H|H]; rewrite H in Hb.
    + apply Hf, Hb.
    + injection Hb as <-. exact Hg.
Qed.

Lemma noStoredGroup_same (m m' : Machine) :
  stats m' = stats m -> files m' = files m -> noStoredGroup m -> noStoredGroup m'.
Proof. intros Hs Hf [Hg Hb]. split; [rewrite Hs | rewrite Hf]; assumption. Qed.

Lemma stays_updateSessionStats (updates : SessionStats -> SessionStats) :
  (forall s, currentBatch (updates s) = currentBatch s) ->
  (forall s, currentBatchIndex (updates s) = currentBatchIndex s) ->
  (forall s, lastGroupId (updates s) = lastGroupId s) ->
  stays quiet (updateSessionStats updates).
Proof.
  intros Hb Hi Hg. unfold updateSessionStats.
  apply stays_bind; [apply stays_assign; assumption | intros _].
  apply stays_saveSessionStats.
Qed.

Lemma stays_clearFailedNumbers : stays quiet clearFailedNumbers.
Proof.
  intros m. unfold clearFailedNumbers. run. split; cbn; auto.
  exists 0%nat. cbn. rewrite app_nil_r. reflexivity.
Qed.

Lemma stays_postConfig (env : Oracle) (body : ConfigBody) :
  stays quiet (postConfig env body).
Proof.
  unfold postConfig, broadcastStats.
  pose proof (stays_updateSessionStats (applyConfig body)
                (fun _ => eq_refl) (fun _ => eq_refl) (fun _ => eq_refl)).
  walk.
Qed.

Section RouteFrames.

Variable env : Oracle.
Variable inv : InviteOracle.

Lemma stays_getStatus (clientReady : bool) : stays quiet (getStatus env clientReady).
Proof.
  unfold getStatus.
  pose proof (stays_updateSessionStats protectionOff
                (fun _ => eq_refl) (fun _ => eq_refl) (fun _ => eq_refl)).
  walk.
Qed.

Lemma stays_postResetProtection : stays quiet postResetProtection.
Proof. unfold postResetProtection. pose proof stays_resetCircuitBreaker. walk. Qed.

Lemma stays_postClearFailedNumbers : stays quiet postClearFailedNumbers.
Proof. unfold postClearFailedNumbers. pose proof stays_clearFailedNumbers. walk. Qed.

Lemma addMembersToGroup_noStoredGroup (groupId : string) (numbers : list Item)
    (message : string) (m : Machine) :
  numbers <> [] -> noStoredGroup m ->
  noStoredGroup (snd (addMembersToGroup env groupId numbers message m)).
Proof.
  intros Hne Hm.
  destruct (addMembersToGroup_cases env groupId numbers message m)
    as [(text & m1 & -> & Hq)|(m1 & Hq & ->)].
  - apply (noStoredGroup_quiet _ _ Hm Hq).
  - pose proof (noStoredGroup_quiet _ _ Hm Hq) as [Hg1 Hf1].
    destruct (processBatch_batchRun env groupId numbers message m1)
      as (r & _ & Hran).
    destruct (success r) eqn:Hsuccess.
    + destruct (run_complete _ _ _ _ _ Hran Hsuccess) as (_ & Hdone).
      destruct (Hdone Hne) as (_ & _ & Hg & Hf).
      split; [exact Hg|]. intros b Hb. rewrite Hf in Hb. discriminate.
    + destruct (run_paused _ _ _ _ _ Hran Hsuccess) as (_ & Hg & _ & Hf).
      split; [rewrite Hg; exact Hg1|].
      intros b Hb. rewrite Hf in Hb. injection Hb as <-. exact Hg1.
Qed.

Lemma processGroupInvitation_noStoredGroup (inviteLink : string)
    (numbers : list Item) (message : string) (m : Machine) :
  numbers <> [] -> noStoredGroup m ->
  noStoredGroup (snd (processGroupInvitation env inv inviteLink numbers message m)).
Proof.
  intros Hne Hm.
  destruct (processGroupInvitation env inv inviteLink numbers message m)
    as [reply m'] eqn:Hrun.
  destruct (processGroupInvitation_cases env inv _ _ _ _ _ _ Hrun)
    as [(text & _ & Hs & Hf & _)|(code & chats & g & m1 & H)].
  - apply (noStoredGroup_same m); assumption.
  - destruct H as (_ & _ & _ & _ & _ & Hs & Hf & _ & Hadd).
    cbn [snd].
    replace m' with (snd (addMembersToGroup env (Chat.serializedId g) numbers
                            message m1)) by (rewrite Hadd; reflexivity).
    apply addMembersToGroup_noStoredGroup; [exact Hne|].
    apply (noStoredGroup_same m); assumption.
Qed.

Lemma processGroupAddition_noStoredGroup (groupIdOrLink : string)
    (numbers : list Item) (message : string) (m : Machine) :
  numbers <> [] -> noStoredGroup m ->
  noStoredGroup (snd (processGroupAddition env inv groupIdOrLink numbers message m)).
Proof.
  intros Hne Hm. unfold processGroupAddition.
  repeat match goal with
         | |- context [if ?c then _ else _] => destruct c
         end;
    first [ apply processGroupInvitation_noStoredGroup; assumption
          | apply addMembersToGroup_noStoredGroup; assumption ].
Qed.

Lemma postAddMembers_noStoredGroup (connected : bool) (groupId : string)
    (numbers : list Item) (message : string) (m : Machine) :
  noStoredGroup m ->
  noStoredGroup (snd (postAddMembers env inv connected groupId numbers message m)).
Proof.
  intros Hm. unfold postAddMembers.
  destruct (negb connected); [exact Hm|].
  destruct (negb (isGroupId groupId) && negb (isInvitationLink groupId));
    [exact Hm|].
  destruct numbers as [|number numbers']; [exact Hm|].
  cbn [length Nat.eqb]. unfold bind.
  pose proof (processGroupAddition_noStoredGroup groupId (number :: numbers')
                message m ltac:(discriminate) Hm) as H.
  destruct (processGroupAddition env inv groupId (number :: numbers') message m).
  exact H.
Qed.

(** With no group stored, [POST /api/resume-batch] resumes nothing and
    changes nothing. *)
Lemma postResumeBatch_noStoredGroup (m : Machine) :
  noStoredGroup m ->
  snd (postResumeBatch env inv m) = m /\
  notResumed (BatchAnswer (fst (postResumeBatch env inv m))).
Proof.
  intros [Hg _]. unfold postResumeBatch, notResumed. run. rewrite Hg.
  destruct (isAddingMembers (stats m)); [split; [reflexivity | left; reflexivity]|].
  destruct (currentBatch (stats m)); split; try reflexivity; right; reflexivity.
Qed.

Lemma handle_noStoredGroup (request : Request) (m : Machine) :
  noStoredGroup m ->
  noStoredGroup (snd (handle env inv request m)) /\
  (request = PostResumeBatch -> notResumed (fst (handle env inv request m))).
Proof.
  intros Hm.
  destruct request as [clientReady| |connected groupId numbers text| | |body];
    cbn [handle]; unfold bind.
  - pose proof (stays_getStatus clientReady m) as Hq.
    destruct (getStatus env clientReady m). split; [|discriminate].
    apply (noStoredGroup_quiet _ _ Hm Hq).
  - pose proof (stays_postResetProtection m) as Hq.
    destruct (postResetProtection m). split; [|discriminate].
    apply (noStoredGroup_quiet _ _ Hm Hq).
  - pose proof (postAddMembers_noStoredGroup connected groupId numbers text m Hm)
      as H.
    destruct (postAddMembers env inv connected groupId numbers text m).
    split; [exact H | discriminate].
  - destruct (postResumeBatch_noStoredGroup m Hm) as [Hsame Hnot].
    destruct (postResumeBatch env inv m) as [reply m']. cbn [fst snd ret] in *.
    subst m'. split; [exact Hm | intros _; exact Hnot].
  - pose proof (stays_postClearFailedNumbers m) as Hq.
    destruct (postClearFailedNumbers m). split; [|discriminate].
    apply (noStoredGroup_quiet _ _ Hm Hq).
  - pose proof (stays_postConfig env body m) as Hq.
    destruct (postConfig env body m). split; [|discriminate].
    apply (noStoredGroup_quiet _ _ Hm Hq).
Qed.

Lemma serve_noStoredGroup (requests : list Request) :
  forall m : Machine,
    noStoredGroup m ->
    noStoredGroup (snd (serve env inv requests m)) /\
    Forall2 (fun request answer => request = PostResumeBatch -> notResumed answer)
      requests (fst (serve env inv requests m)).
Proof.
  induction requests as [|request requests IH]; intros m Hm.
  - split; [exact Hm | constructor].
  - cbn [serve]. unfold bind.
    destruct (handle_noStoredGroup request m Hm) as [Hm1 Hanswer].
    destruct (handle env inv request m) as [answer m1]. cbn [fst snd] in *.
    destruct (IH m1 Hm1) as [Hm2 Hanswers].
    destruct (serve env inv requests m1) as [answers m2]. cbn [fst snd ret] in *.
    split; [exact Hm2 | constructor; assumption].
Qed.

Lemma initializeDataStorage_noStoredGroup (m : Machine) :
  noStoredGroup m -> noStoredGroup (snd (initializeDataStorage env m)).
Proof.
  intros Hm. unfold initializeDataStorage.
  assert (H1 : stays quiet (loadSessionStats env)).
  { intros m0. unfold loadSessionStats.
    destruct (statsFile (files m0)); [|reflexivity].
    revert m0. change (stays quiet ?c) with (stays quiet c). walk. }
  assert (H2 : stays quiet loadFailedNumbers).
  { intros m0. unfold loadFailedNumbers.
    destruct (failedNumbersFile (files m0)); [|reflexivity].
    apply stays_assign; reflexivity. }
  unfold bind.
  specialize (H1 m). destruct (loadSessionStats env m) as [[] m1].
  specialize (H2 m1). destruct (loadFailedNumbers m1) as [[] m2].
  cbn [fst snd] in *.
  assert (Hm2 : noStoredGroup m2).
  { apply (noStoredGroup_quiet m); [exact Hm | etransitivity; eassumption]. }
  unfold loadBatchData.
  destruct (batchesFile (files m2)) as [b|] eqn:Hb; [|exact Hm2].
  destruct (BatchFile.currentBatch b); [exact Hm2|].
  destruct Hm2 as [Hg Hf]. split.
  - apply Hf. exact Hb.
  - exact Hf.
Qed.

End RouteFrames.

(** X13.  [POST /api/resume-batch] never resumes a batch.  A process
    starts with no group stored in its session object, on files whose batch
    record, if there is one, names no group; it runs [initializeDataStorage]
    and then serves any requests, one after the other.  Then every answer to
    [POST /api/resume-batch] is the 409 of a submission in progress or the
    404 of no interrupted batch, and at the end still no group is stored, in
    the session object or in the batch file: a new process on these files is
    in the same situation. *)
Theorem resume_batch_never_resumes (env : Oracle) (inv : InviteOracle)
    (requests : list Request) (m : Machine) :
  noStoredGroup m ->
  let started := snd (initializeDataStorage env m) in
  let run := serve env inv requests started in
  Forall2 (fun request answer => request = PostResumeBatch -> notResumed answer)
    requests (fst run) /\
  noStoredGroup (snd run).
Proof.
  intros Hm. cbv zeta.
  destruct (serve_noStoredGroup env inv requests
              (snd (initializeDataStorage env m))
              (initializeDataStorage_noStoredGroup env m Hm)) as [H1 H2].
  split; assumption.
Qed.

(** A new process finds the batch file of a batch stopped at index 2:
    the batch is loaded, and neither a resume at once nor one after a
    submission that pauses resumes anything. *)
Lemma resume_batch_never_resumes_witness :
  let started := snd (initializeDataStorage banWorld stoppedBatchMachine) in
  let requests :=
    [PostResumeBatch; PostAddMembers true exampleGroup [alice; bob] "";
     PostResumeBatch] in
  let run := serve banWorld closedDoor requests started in
  currentBatch (stats started) = fourItems /\
  Forall2 (fun request answer => request = PostResumeBatch -> notResumed answer)
    requests (fst run) /\
  noStoredGroup (snd run).
Proof.
  cbv zeta. split; [reflexivity|].
  apply (resume_batch_never_resumes banWorld closedDoor
           [PostResumeBatch; PostAddMembers true exampleGroup [alice; bob] "";
            PostResumeBatch] stoppedBatchMachine).
  split; [reflexivity|]. intros b [= <-]. reflexivity.
Defined.

(** ** The settings *)

#[global] Instance sameSettings_preorder : PreOrder sameSettings.
Proof.
  split.
  - intros m. reflexivity.
  - intros m1 m2 m3 H1 H2. unfold sameSettings in *. congruence.
Qed.

Lemma stays_sameStats_sameSettings {A : Type} (c : M A) :
  stays sameStats c -> stays sameSettings c.
Proof.
  intros H m. specialize (H m). unfold sameStats in H. unfold sameSettings.
  rewrite H. reflexivity.
Qed.

(** An assignment that does not touch the settings. *)
Lemma stays_assign_sameSettings (f : SessionStats -> SessionStats) :
  (forall s, settingsOf (f s) = settingsOf s) -> stays sameSettings (assign f).
Proof. intros H m. apply H. Qed.

(** Walks a computation that leaves the settings alone. *)
Ltac walk_settings :=
  repeat first
    [ apply stays_sameStats_sameSettings; solve [ walk_stats ]
    | match goal with
      | H : _ |- stays sameSettings _ => apply H
      end
    | apply stays_ret
    | apply stays_when
    | apply stays_bind; [ | intros ? ]
    | apply stays_assign_sameSettings; intros ?;
      repeat (match goal with
              | |- context [match ?x with _ => _ end] => destruct x
              end);
      reflexivity
    | match goal with
      | |- stays _ (if ?c then _ else _) => destruct c
      | |- stays _ (match ?x with _ => _ end) => destruct x
      end ].

Section SettingsFrames.

Variable env : Oracle.

Lemma stays_saveContactThenAdd_sameStats (number : Item) (groupId : string) :
  stays sameStats (saveContactThenAdd env number groupId).
Proof. intros m. apply saveContactThenAdd_stats. Qed.

Lemma stays_iteration_sameSettings (groupId : string) (numbers : list Item)
    (i : nat) (number : Item) (results : Results) :
  stays sameSettings (iteration env groupId numbers i number results).
Proof.
  pose proof (stays_saveContactThenAdd_sameStats number groupId).
  pose proof (stays_checkHourlyLimit env).
  pose proof (stays_getSmartDelay env).
  unfold iteration, recordAddition, handleAddFailure, updateFailedNumber,
    updateHourlyCount, checkCircuitBreaker, resetCircuitBreaker.
  walk_settings.
Qed.

Lemma stays_forLoop_sameSettings (groupId : string) (numbers : list Item)
    (rest : list Item) :
  forall (i : nat) (results : Results),
    stays sameSettings (forLoop env groupId numbers i rest results).
Proof.
  induction rest as [|number rest IH]; intros i results; cbn [forLoop].
  - apply stays_ret.
  - apply stays_bind; [apply stays_iteration_sameSettings|].
    intros [r|r|e r]; [apply IH | apply stays_ret | apply stays_ret].
Qed.

Lemma stays_tryBlock_sameSettings (groupId : string) (numbers : list Item)
    (message : string) (results : Results) :
  stays sameSettings (tryBlock env groupId numbers message results).
Proof.
  unfold tryBlock. apply stays_bind; [walk_settings|]. intros safetyConfig.
  apply stays_bind; [apply stays_forLoop_sameSettings|]. intros step.
  assert (Hclear : stays sameStats clearBatchData)
    by (intros m; apply stats_unlinkBatchFile).
  unfold finishBatch. walk_settings.
Qed.

Lemma stays_addMembersToGroup_sameSettings (groupId : string)
    (numbers : list Item) (message : string) :
  stays sameSettings (addMembersToGroup env groupId numbers message).
Proof.
  pose proof (stays_checkHourlyLimit env).
  unfold addMembersToGroup. apply stays_bind.
  { unfold admission, checkCircuitBreaker, resetCircuitBreaker. walk_settings. }
  intros [reply|]; [apply stays_ret|]. apply stays_bind.
  { unfold verifyGroup. walk_settings. }
  intros [reply|]; [apply stays_ret|].
  unfold processBatch. apply stays_bind.
  { unfold startBatch. walk_settings. }
  intros results. apply stays_bind; [apply stays_tryBlock_sameSettings|].
  intros step. unfold finallyBlock. walk_settings.
Qed.

End SettingsFrames.

Lemma validSettings_same (s s' : SessionStats) :
  settingsOf s' = settingsOf s -> validSettings s -> validSettings s'.
Proof.
  unfold settingsOf, validSettings. intros [= E1 E2 E3 E4 _ _ _ _ E9 _].
  rewrite E1, E2, E3, E4, E9. exact (fun H => H).
Qed.

Ltac bounds :=
  repeat match goal with
         | H : _ && _ = true |- _ => apply andb_prop in H; destruct H
         | H : (_ <=? _) = true |- _ => apply Z.leb_le in H
         | H : (_ <=? _) = false |- _ => apply Z.leb_gt in H
         end.

(** An accepted update leaves the settings in the ranges of the
    validators, with the delays in order. *)
Lemma applyConfig_valid (body : ConfigBody) (s : SessionStats) :
  configAccepted body = true -> delaysRefused body s = false ->
  validSettings s -> validSettings (applyConfig body s).
Proof.
  destruct body as [d h b mn mx p].
  unfold configAccepted, delaysRefused, validSettings, applyConfig, optionalIntIn.
  cbn [bodyDailyLimit bodyHourlyLimit bodyMaxBatchSize bodyMinDelay bodyMaxDelay
       bodyPatternVariation dailyLimit hourlyLimit maxBatchSize minDelay maxDelay].
  intros Hok Hdelays Hs.
  destruct d as [[|d|d]|], h as [[|h|h]|], b as [[|b|b]|], mn as [[|mn|mn]|],
    mx as [[|mx|mx]|];
    cbn [provided orElse] in *; bounds; try discriminate; lia.
Qed.

Lemma postConfig_cases (env : Oracle) (body : ConfigBody) (m m' : Machine)
    (reply : Http ConfigReply) :
  postConfig env body m = (reply, m') ->
  (httpStatus reply = 400%nat /\ m' = m) \/
  (httpStatus reply = 200%nat /\
   configAccepted body = true /\ delaysRefused body (stats m) = false /\
   stats m' = applyConfig body (stats m)).
Proof.
  unfold postConfig, updateSessionStats, broadcastStats.
  destruct (configAccepted body) eqn:Hok; cbn [negb];
    [|intros [= <- <-]; left; split; reflexivity].
  run. destruct (delaysRefused body (stats m)) eqn:Hdelays;
    [intros [= <- <-]; left; split; reflexivity|].
  run. intros [= <- <-]. right. rewrite stats_writeFiles.
  repeat split; reflexivity.
Qed.

Section RouteSettings.

Variable env : Oracle.
Variable inv : InviteOracle.

Lemma stays_processGroupInvitation_sameSettings (inviteLink : string)
    (numbers : list Item) (message : string) :
  stays sameSettings (processGroupInvitation env inv inviteLink numbers message).
Proof.
  intros m.
  destruct (processGroupInvitation env inv inviteLink numbers message m)
    as [reply m'] eqn:Hrun.
  destruct (processGroupInvitation_cases env inv _ _ _ _ _ _ Hrun)
    as [(text & _ & Hs & _)|(code & chats & g & m1 & H)]; cbn [snd].
  - unfold sameSettings. rewrite Hs. reflexivity.
  - destruct H as (_ & _ & _ & _ & _ & Hs & _ & _ & Hadd).
    pose proof (stays_addMembersToGroup_sameSettings env (Chat.serializedId g)
                  numbers message m1) as Hsame.
    rewrite Hadd in Hsame. unfold sameSettings in *. cbn [snd] in Hsame.
    rewrite Hsame, Hs. reflexivity.
Qed.

Lemma stays_processGroupAddition_sameSettings (groupIdOrLink : string)
    (numbers : list Item) (message : string) :
  stays sameSettings (processGroupAddition env inv groupIdOrLink numbers message).
Proof.
  unfold processGroupAddition.
  repeat match goal with
         | |- context [if ?c then _ else _] => destruct c
         end;
    first [ apply stays_processGroupInvitation_sameSettings
          | apply stays_addMembersToGroup_sameSettings ].
Qed.

(** Every request other than [POST /api/config] leaves the settings
    alone. *)
Lemma stays_handle_sameSettings (request : Request) :
  (forall body, request <> PostConfig body) ->
  stays sameSettings (handle env inv request).
Proof.
  intros Hother.
  pose proof stays_processGroupAddition_sameSettings.
  destruct request as [clientReady| |connected groupId numbers text| | |body];
    cbn [handle].
  - unfold getStatus, updateSessionStats, protectionOff. walk_settings.
  - unfold postResetProtection, resetCircuitBreaker. walk_settings.
  - unfold postAddMembers. walk_settings.
  - unfold postResumeBatch. walk_settings.
  - unfold postClearFailedNumbers, clearFailedNumbers.
    apply stays_bind; [|intros ?; apply stays_ret].
    apply stays_bind; [|intros ?; apply stays_ret].
    intros m. reflexivity.
  - destruct (Hother body eq_refl).
Qed.

Lemma handle_settings (request : Request) (m m' : Machine) (answer : Answer) :
  handle env inv request m = (answer, m') ->
  validSettings (stats m) ->
  validSettings (stats m') /\
  (configKept request answer -> settingsOf (stats m') = settingsOf (stats m)).
Proof.
  intros Hrun Hvalid.
  assert (Hother : (forall body, request <> PostConfig body) ->
                   settingsOf (stats m') = settingsOf (stats m)).
  { intros H. pose proof (stays_handle_sameSettings request H m) as Hsame.
    rewrite Hrun in Hsame. exact Hsame. }
  destruct request as [clientReady| |connected groupId numbers text| | |body];
    try (split; [apply (validSettings_same (stats m)); [|exact Hvalid]|intros _];
         apply Hother; discriminate).
  clear Hother. cbn [handle] in Hrun. unfold bind in Hrun.
  destruct (postConfig env body m) as [reply m1] eqn:Hconfig.
  cbn [ret] in Hrun. injection Hrun as <- <-.
  destruct (postConfig_cases _ _ _ _ _ Hconfig)
    as [[H400 ->]|(H200 & Hok & Hdelays & ->)].
  - split; [exact Hvalid | reflexivity].
  - split; [apply applyConfig_valid; assumption|].
    destruct reply as [code shown]. cbn in H200. subst code.
    intros [].
Qed.

Lemma serve_settings (requests : list Request) :
  forall (m m' : Machine) (answers : list Answer),
    serve env inv requests m = (answers, m') ->
    validSettings (stats m) ->
    validSettings (stats m') /\
    (Forall2 configKept requests answers ->
     settingsOf (stats m') = settingsOf (stats m)).
Proof.
  induction requests as [|request requests IH]; intros m m' answers Hrun Hvalid.
  - injection Hrun as <- <-. split; [exact Hvalid | reflexivity].
  - cbn [serve] in Hrun. unfold bind in Hrun.
    destruct (handle env inv request m) as [answer m1] eqn:Hhandle.
    destruct (serve env inv requests m1) as [answers1 m2] eqn:Hserve.
    cbn [ret] in Hrun. injection Hrun as <- <-.
    destruct (handle_settings _ _ _ _ Hhandle Hvalid) as [Hvalid1 Hkept1].
    destruct (IH _ _ _ Hserve Hvalid1) as [Hvalid2 Hkept2].
    split; [exact Hvalid2|].
    intros Hall. inversion Hall; subst.
    rewrite Hkept2, Hkept1 by assumption. reflexivity.
Qed.

End RouteSettings.

(** X14.  The settings under any sequence of requests.  From settings
    in the ranges of the validators of [POST /api/config] with [minDelay]
    below [maxDelay] (the defaults are), whatever requests are served one
    after the other, the settings stay in these ranges with [minDelay] below
    [maxDelay]; and they are changed by nothing but an accepted
    [POST /api/config]: when no such request was answered with 200, the
    delays, the limits, the batch size, the pauses, the threshold, the
    timeout and the pattern flag are what they were. *)
Theorem settings_stay_valid (env : Oracle) (inv : InviteOracle)
    (requests : list Request) (m : Machine) :
  validSettings (stats m) ->
  let run := serve env inv requests m in
  validSettings (stats (snd run)) /\
  (Forall2 configKept requests (fst run) ->
   settingsOf (stats (snd run)) = settingsOf (stats m)).
Proof.
  intros Hvalid. cbv zeta.
  destruct (serve env inv requests m) as [answers m'] eqn:Hrun.
  exact (serve_settings env inv requests m m' answers Hrun Hvalid).
Qed.

(** From the defaults: a minimum delay of 100 alone is refused, the two
    delays together are accepted, and the status is read. *)
Lemma settings_stay_valid_witness :
  let run := serve calmWorld closedDoor
               [PostConfig minDelayOnly; PostConfig bothDelays; GetStatus true]
               (machineOf defaultStats) in
  validSettings (stats (snd run)) /\
  (Forall2 configKept
     [PostConfig minDelayOnly; PostConfig bothDelays; GetStatus true] (fst run) ->
   settingsOf (stats (snd run)) = settingsOf defaultStats).
Proof.
  apply (settings_stay_valid calmWorld closedDoor
           [PostConfig minDelayOnly; PostConfig bothDelays; GetStatus true]
           (machineOf defaultStats)).
  unfold validSettings. cbn. lia.
Defined.

(** ** The delay between two additions, whatever the settings *)







(** ** The hourly limit inside the loop *)




(** ** The greeting *)

#[global] Instance sameGreetings_preorder : PreOrder sameGreetings.
Proof.
  split.
  - intros m. reflexivity.
  - intros m1 m2 m3 H1 H2. unfold sameGreetings in *. congruence.
Qed.

Lemma greet_getSessionStats : stays sameGreetings getSessionStats.
Proof. intros m. reflexivity. Qed.

Lemma greet_assign (f : SessionStats -> SessionStats) :
  stays sameGreetings (assign f).
Proof. intros m. reflexivity. Qed.

Lemma greet_newDate (env : Oracle) : stays sameGreetings (newDate env).
Proof. intros m. reflexivity. Qed.

Lemma greet_mathRandom (env : Oracle) : stays sameGreetings (mathRandom env).
Proof. intros m. reflexivity. Qed.

Lemma greet_sleep (ms : Q) : stays sameGreetings (sleep ms).
Proof. intros m. reflexivity. Qed.

Lemma greet_saveSessionStats : stays sameGreetings saveSessionStats.
Proof.
  intros m. unfold saveSessionStats, writeFiles, sameGreetings. cbn [snd].
  destruct (currentBatch (stats m)); reflexivity.
Qed.

Lemma greet_clearBatchData : stays sameGreetings clearBatchData.
Proof.
  intros m. unfold clearBatchData, unlinkBatchFile, sameGreetings. cbn [snd].
  destruct (batchesFile (files m)); reflexivity.
Qed.

Lemma greet_attempt (number : Item) (groupId : string) :
  stays sameGreetings (fun m => (tt, emit (Attempt number groupId) m)).
Proof. intros m. reflexivity. Qed.

Lemma greet_call (env : Oracle) (c : ClientCall) :
  isGreeting c = false -> stays sameGreetings (call env c).
Proof. intros Hc m. destruct c; try discriminate; reflexivity. Qed.

Create HintDb greet.
#[global] Hint Resolve greet_getSessionStats greet_assign greet_newDate
  greet_mathRandom greet_sleep greet_saveSessionStats greet_clearBatchData
  greet_attempt : greet.

(** Walks a computation that sends no greeting. *)
Ltac walk_greeting :=
  repeat first
    [ solve [ eauto 3 with greet ]
    | apply greet_call; reflexivity
    | apply stays_ret
    | apply stays_when
    | apply stays_bind; [ | intros ? ]
    | match goal with
      | |- stays _ (if ?c then _ else _) => destruct c
      | |- stays _ (match ?x with _ => _ end) => destruct x
      end ].

Section Greeting.

Variable env : Oracle.

Lemma greet_checkRegistered (left : nat) (formattedNumber : string) :
  stays sameGreetings (checkRegistered env left formattedNumber).
Proof. induction left as [|left IH]; cbn [checkRegistered]; walk_greeting. Qed.

Lemma greet_fetchContact (left : nat) (formattedNumber : string) :
  stays sameGreetings (fetchContact env left formattedNumber).
Proof. induction left as [|left IH]; cbn [fetchContact]; walk_greeting. Qed.

Lemma greet_addWithRetry (left : nat) (groupId formattedNumber : string) :
  stays sameGreetings (addWithRetry env left groupId formattedNumber).
Proof. induction left as [|left IH]; cbn [addWithRetry]; walk_greeting. Qed.

Lemma greet_saveContactThenAdd (number : Item) (groupId : string) :
  stays sameGreetings (saveContactThenAdd env number groupId).
Proof.
  pose proof greet_checkRegistered. pose proof greet_fetchContact.
  pose proof greet_addWithRetry.
  unfold saveContactThenAdd. walk_greeting.
Qed.

Lemma greet_iteration (groupId : string) (numbers : list Item) (i : nat)
    (number : Item) (results : Results) :
  stays sameGreetings (iteration env groupId numbers i number results).
Proof.
  pose proof greet_saveContactThenAdd.
  unfold iteration, recordAddition, handleAddFailure, updateFailedNumber,
    updateHourlyCount, checkHourlyLimit, getSmartDelay, checkCircuitBreaker,
    resetCircuitBreaker.
  walk_greeting.
Qed.

Lemma greet_forLoop (groupId : string) (numbers : list Item) (rest : list Item) :
  forall (i : nat) (results : Results),
    stays sameGreetings (forLoop env groupId numbers i rest results).
Proof.
  induction rest as [|number rest IH]; intros i results; cbn [forLoop].
  - apply stays_ret.
  - apply stays_bind; [apply greet_iteration|].
    intros [r|r|e r]; [apply IH | apply stays_ret | apply stays_ret].
Qed.

Lemma greet_admission : stays sameGreetings (admission env).
Proof.
  unfold admission, checkHourlyLimit, checkCircuitBreaker, resetCircuitBreaker.
  walk_greeting.
Qed.

Lemma greet_verifyGroup (groupId : string) :
  stays sameGreetings (verifyGroup env groupId).
Proof. unfold verifyGroup. walk_greeting. Qed.

(** The one place a greeting is sent from. *)
Lemma finishBatch_greeting (groupId text : string) (results : Results)
    (m : Machine) :
  greetingsOf (events (snd (finishBatch env groupId text results m))) =
    if negb (String.eqb text "") && (0 <? added results)%nat
    then (greetingsOf (events m) ++ [(groupId, text)])%list
    else greetingsOf (events m).
Proof.
  unfold finishBatch.
  destruct (negb (text =? "")%string && (0 <? added results)%nat); run;
    destruct ((0 <? length (currentBatch (stats m)))%nat &&
              (Z.of_nat (length (currentBatch (stats m))) - 1
                 <=? Z.of_nat (currentBatchIndex (stats m)))); run;
    unfold unlinkBatchFile; cbn [files set_stats];
    destruct (batchesFile (files m)); reflexivity.
Qed.

End Greeting.

Lemma greet_finallyBlock (m : Machine) :
  greetingsOf (events (snd (finallyBlock m))) = greetingsOf (events m).
Proof.
  assert (H : stays sameGreetings finallyBlock)
    by (unfold finallyBlock; walk_greeting).
  apply H.
Qed.

Section GreetingOnce.

Variable env : Oracle.

Lemma processBatch_greeting (groupId : string) (numbers : list Item)
    (text : string) (m : Machine) :
  let run := processBatch env groupId numbers text m in
  exists r : Results,
    fst run = Report r /\
    ((success r = true /\
      greetingsOf (events (snd run)) =
        if negb (String.eqb text "") && (0 <? added r)%nat
        then (greetingsOf (events m) ++ [(groupId, text)])%list
        else greetingsOf (events m)) \/
     (success r = false /\
      greetingsOf (events (snd run)) = greetingsOf (events m))).
Proof.
  cbv zeta.
  destruct (processBatch env groupId numbers text m) as [reply m'] eqn:Hrun.
  cbn [fst snd]. revert Hrun.
  unfold processBatch, tryBlock, bind.
  destruct (startBatch_spec groupId numbers m) as (s0 & -> & _).
  set (m0 := set_stats s0 m).
  assert (E0 : greetingsOf (events m0) = greetingsOf (events m)) by reflexivity.
  clearbody m0.
  unfold getSessionStats at 1. cbv beta iota.
  set (start := currentBatchIndex (stats m0)).
  destruct (forLoop_looped env groupId numbers (drop start numbers) start
              (initialResults numbers) m0) as [n Hl].
  pose proof (greet_forLoop env groupId numbers (drop start numbers) start
                (initialResults numbers) m0) as Hg.
  destruct (forLoop env groupId numbers start (drop start numbers)
              (initialResults numbers) m0) as [step m1].
  cbn [fst snd] in Hl, Hg. unfold sameGreetings in Hg.
  pose proof (looped_success _ _ _ _ _ _ _ Hl) as Hsuccess.
  change (success (initialResults numbers)) with true in Hsuccess.
  assert (Hfinally : forall m2 : Machine,
            greetingsOf (events (snd (finallyBlock m2))) = greetingsOf (events m2)).
  { intros m2. apply greet_finallyBlock. }
  destruct step as [r|r|e r].
  - pose proof (finishBatch_greeting env groupId text r m1) as Hsent.
    pose proof (finishBatch_spec env groupId text r m1) as Hfin.
    destruct (finishBatch env groupId text r m1) as [step2 m2].
    cbn [fst snd] in Hsent, Hfin. destruct Hfin as (-> & _).
    specialize (Hfinally m2). destruct (finallyBlock m2) as [[] m3].
    cbn [fst snd ret catchUnexpected] in *. intros [= <- <-].
    exists r. split; [reflexivity|]. left. split; [exact Hsuccess|].
    etransitivity; [exact Hfinally|]. rewrite Hsent, Hg, E0. reflexivity.
  - intros [= <- <-]. exists r. split; [reflexivity|]. right.
    split; [exact Hsuccess|].
    change (greetingsOf (events (snd (finallyBlock m1))) = greetingsOf (events m)).
    rewrite Hfinally, Hg, E0. reflexivity.
  - intros [= <- <-]. eexists. split; [reflexivity|]. right.
    split; [reflexivity|].
    change (greetingsOf (events (snd (finallyBlock m1))) = greetingsOf (events m)).
    rewrite Hfinally, Hg, E0. reflexivity.
Qed.

End GreetingOnce.

Lemma not_one_more {A : Type} (l : list A) (x : A) : (l ++ [x])%list <> l.
Proof.
  intros H. apply (f_equal length) in H. rewrite length_app in H. cbn in H. lia.
Qed.

(** X17.  The greeting.  A submission sends at most one greeting, to
    the group and with the text submitted, and it sends it exactly when the
    text is not empty and the submission reports a success with at least one
    number added in this run: a submission that is refused, paused or
    stopped by an error sends none, and neither does the loop. *)
Theorem greeting_only_after_success (env : Oracle) (groupId : string)
    (numbers : list Item) (text : string) (m : Machine) :
  let run := addMembersToGroup env groupId numbers text m in
  let before := greetingsOf (events m) in
  let after := greetingsOf (events (snd run)) in
  (after = before \/ after = (before ++ [(groupId, text)])%list) /\
  (after = (before ++ [(groupId, text)])%list <->
   text <> "" /\
   exists r : Results,
     fst run = Report r /\ success r = true /\ (0 < added r)%nat).
Proof.
  cbv zeta.
  assert (Hcases :
    (exists (refusal : string) (m1 : Machine),
       addMembersToGroup env groupId numbers text m = (Rejected refusal, m1) /\
       sameGreetings m m1) \/
    (exists m1 : Machine,
       sameGreetings m m1 /\
       addMembersToGroup env groupId numbers text m =
         processBatch env groupId numbers text m1)).
  { unfold addMembersToGroup, bind.
    pose proof (greet_admission env m) as Hq1.
    pose proof (admission_refusal env m) as Hr1.
    destruct (admission env m) as [refused m1]. cbn [fst snd] in *.
    destruct refused as [[refusal|r]|]; [|contradiction|].
    { left. exists refusal, m1. split; [reflexivity | exact Hq1]. }
    pose proof (greet_verifyGroup env groupId m1) as Hq2.
    pose proof (verifyGroup_refusal env groupId m1) as Hr2.
    destruct (verifyGroup env groupId m1) as [invalid m2]. cbn [fst snd] in *.
    assert (Hq : sameGreetings m m2) by (etransitivity; eassumption).
    destruct invalid as [[refusal|r]|]; [|contradiction|].
    - left. exists refusal, m2. split; [reflexivity | exact Hq].
    - right. exists m2. split; [exact Hq | reflexivity]. }
  destruct Hcases as [(refusal & m1 & -> & Hsame)|(m1 & Hsame & ->)];
    unfold sameGreetings in Hsame; cbn [fst snd].
  - rewrite Hsame. split; [left; reflexivity|]. split.
    + intros H. symmetry in H. destruct (not_one_more _ _ H).
    + intros (_ & r & [=] & _).
  - destruct (processBatch_greeting env groupId numbers text m1)
      as (r & Hreport & [[Hsuccess Hsent]|[Hsuccess Hsent]]);
      rewrite Hreport, Hsent, Hsame.
    + destruct (negb (text =? "")%string && (0 <? added r)%nat) eqn:Hcond.
      * apply andb_prop in Hcond. destruct Hcond as [Htext Hadded].
        split; [right; reflexivity|]. split; [|reflexivity].
        intros _. split.
        -- intros ->. discriminate.
        -- exists r. split; [reflexivity|]. split; [exact Hsuccess|].
           apply Nat.ltb_lt, Hadded.
      * split; [left; reflexivity|]. split.
        -- intros H. symmetry in H. destruct (not_one_more _ _ H).
        -- intros (Htext & r' & [= <-] & _ & Hadded). exfalso.
           apply Nat.ltb_lt in Hadded. rewrite Hadded, andb_true_r in Hcond.
           apply negb_false_iff, String.eqb_eq in Hcond. contradiction.
    + split; [left; reflexivity|]. split.
      * intros H. symmetry in H. destruct (not_one_more _ _ H).
      * intros (_ & r' & [= <-] & Htrue & _). congruence.
Qed.

(** ** What a report accounts for *)

(** X18.  The report of a submission.  With [start] the index the
    loop starts from (the stored cursor when a batch is stored for this very
    group, 0 otherwise): a submission that is refused attempts no number;
    a report has one detail for each of the first [n] numbers from [start]
    on, in their order, for some [n], with [added + failed + skipped = n];
    a report of success has all the numbers from [start] on; and the numbers
    attempted during the submission are some of the numbers from [start] on,
    in their order, each at most once. *)
Theorem report_accounts_for_the_batch (env : Oracle) (groupId : string)
    (numbers : list Item) (text : string) (m : Machine) :
  let run := addMembersToGroup env groupId numbers text m in
  let todo := drop (startIndex groupId (stats m)) numbers in
  match fst run with
  | Rejected _ => attemptsOf (events (snd run)) = attemptsOf (events m)
  | Report r =>
      (exists n : nat,
         numbersOf r = take n todo /\
         (added r + failed r + skipped r)%nat = n /\
         length (details r) = n /\
         (n <= length todo)%nat) /\
      (success r = true -> numbersOf r = todo) /\
      exists l : list Item,
        attemptsOf (events (snd run)) = (attemptsOf (events m) ++ l)%list /\
        sublist l todo
  end.
Proof.
  cbv zeta.
  destruct (addMembersToGroup_cases env groupId numbers text m)
    as [(refusal & m1 & -> & Hq)|(m1 & Hq & ->)]; cbn [fst snd].
  - apply (quiet_attempts _ _ Hq).
  - destruct (processBatch_batchRun env groupId numbers text m1)
      as (r & -> & Hran).
    rewrite (startIndex_quiet _ _ _ Hq) in Hran.
    destruct (run_numbers _ _ _ _ _ Hran) as (n & Hn & Hh & Hle).
    destruct (run_attempts _ _ _ _ _ Hran) as (l & Hl & Hsub).
    split; [|split].
    + exists n. split; [exact Hn|]. split; [exact Hh|].
      rewrite length_drop. split; [|exact Hle].
      transitivity (length (numbersOf r)).
      * unfold numbersOf. rewrite length_map. reflexivity.
      * rewrite Hn, length_take, length_drop. lia.
    + intros Hsuccess. apply (run_complete _ _ _ _ _ Hran Hsuccess).
    + exists l. rewrite Hl, (quiet_attempts _ _ Hq). split; [reflexivity | exact Hsub].
Qed.
